(** * RADIUS ingestion pipeline: a shallow embedding of the Python sources

    The development follows the layout of the repository:
    - [Py]       the Python string and integer primitives the code relies on;
    - [Decoder]  [decode_enodeb_cellid] (backfill_radius_history.py,
                 parse_radius_logs_debug.py, trace_incremental.py) and
                 [decode_eci] (radius_parser.py);
    - [Parser]   [parse_entry], [read_log_entries], [parse_radius_record];
    - [Store]    the three tables and the upsert statements of each variant;
    - [Sys], [IO] the world the scripts act on (database, files, clock,
                 failures of external calls) and the monad of their effects;
    - [Backfill] [build_record], [ProgressTracker], [bulk_insert_records],
                 [process_log_file], [backfill];
    - [RadiusParser], [Watcher], [WatcherOld]  the other ingestion paths;
    - [Samples]  concrete inputs, followed by the properties. *)

From Stdlib Require Import ZArith String Ascii List Bool Lia PrimFloat Sorted.
From stdpp Require Import base option gmap strings pretty.

Import ListNotations.
Local Open Scope string_scope.
Local Open Scope Z_scope.

(** Outcome of a Python call: a returned value or a raised exception
    (carrying the exception class name). *)
Inductive PyResult (A : Type) : Type :=
| Returned (a : A)
| Raised (e : string).
Arguments Returned {A} a.
Arguments Raised {A} e.

(* ================================================================== *)
(** ** Python primitives *)
(* ================================================================== *)
Module Py.

(** [str.isspace] on one character, characters being code points 0..255:
    TAB..CR, FS..US, SPACE, NEL and NBSP. *)
Definition isspace (c : ascii) : bool :=
  let n := N_of_ascii c in
  (((9 <=? n) && (n <=? 13)) || ((28 <=? n) && (n <=? 32))
   || (n =? 133) || (n =? 160))%N.

Fixpoint lstrip_with (p : ascii -> bool) (s : string) : string :=
  match s with
  | EmptyString => EmptyString
  | String c s' => if p c then lstrip_with p s' else s
  end.

Fixpoint rstrip_with (p : ascii -> bool) (s : string) : string :=
  match s with
  | EmptyString => EmptyString
  | String c s' =>
      match rstrip_with p s' with
      | EmptyString => if p c then EmptyString else String c EmptyString
      | r => String c r
      end
  end.

Definition strip_with (p : ascii -> bool) (s : string) : string :=
  lstrip_with p (rstrip_with p s).

(** [s.strip()] *)
Definition strip (s : string) : string := strip_with isspace s.

(** [s.strip(chars)] for a one-character [chars] *)
Definition strip_char (q : ascii) (s : string) : string :=
  strip_with (Ascii.eqb q) s.

(** [s.startswith(p)] *)
Definition startswith (p s : string) : bool := String.prefix p s.

(** [s[n:]] for [n >= 0] *)
Fixpoint drop (n : nat) (s : string) : string :=
  match n, s with
  | O, _ => s
  | S _, EmptyString => EmptyString
  | S k, String _ s' => drop k s'
  end.

(** [s[:n]] for [n >= 0] *)
Fixpoint take (n : nat) (s : string) : string :=
  match n, s with
  | O, _ => EmptyString
  | S _, EmptyString => EmptyString
  | S k, String c s' => String c (take k s')
  end.

(** [s[-n:]] for [n > 0]: the last [n] characters, the whole string when it
    is shorter. *)
Definition last_n (n : nat) (s : string) : string :=
  drop (String.length s - n) s.

(** [s.replace(old, new)] for a non-empty [old]: occurrences are replaced
    left to right without overlap; [skip] counts the characters of a matched
    occurrence that are still to be dropped. *)
Fixpoint replace_aux (old new : string) (skip : nat) (s : string) : string :=
  match s with
  | EmptyString => EmptyString
  | String c s' =>
      match skip with
      | S k => replace_aux old new k s'
      | O =>
          if String.prefix old s
          then new ++ replace_aux old new (String.length old - 1) s'
          else String c (replace_aux old new 0 s')
      end
  end.

Definition replace (old new s : string) : string := replace_aux old new 0 s.

(** [sep in s] *)
Definition contains (sep s : string) : bool :=
  match String.index 0 sep s with Some _ => true | None => false end.

(** [s.partition(sep)] *)
Definition partition (sep s : string) : string * string * string :=
  match String.index 0 sep s with
  | None => (s, EmptyString, EmptyString)
  | Some i =>
      (take i s, sep, drop (i + String.length sep) s)
  end.

(** [s.split(sep)] for a one-character separator *)
Fixpoint split (sep : ascii) (s : string) : list string :=
  match s with
  | EmptyString => [EmptyString]
  | String c s' =>
      if Ascii.eqb c sep then EmptyString :: split sep s'
      else match split sep s' with
           | h :: t => String c h :: t
           | [] => [String c EmptyString]
           end
  end.

(** Value of a digit character in [int(s, base)]. *)
Definition digit_value (c : ascii) : option Z :=
  let n := Z.of_N (N_of_ascii c) in
  if (48 <=? n) && (n <=? 57) then Some (n - 48)
  else if (97 <=? n) && (n <=? 122) then Some (n - 87)
  else if (65 <=? n) && (n <=? 90) then Some (n - 55)
  else None.

Definition underscore : ascii := "_"%char.

(** The digit loop of [int]: underscores are allowed singly between digits,
    never at the end. *)
Fixpoint int_digits (base : Z) (s : string) (acc : Z) (prev_us : bool)
  : option Z :=
  match s with
  | EmptyString => if prev_us then None else Some acc
  | String c s' =>
      if Ascii.eqb c underscore
      then (if prev_us then None else int_digits base s' acc true)
      else match digit_value c with
           | Some d =>
               if d <? base then int_digits base s' (acc * base + d) false
               else None
           | None => None
           end
  end.

(** The limit of CPython on the number of decimal digits converted between
    [int] and [str] ([sys.get_int_max_str_digits()], since 3.11 and the
    security releases of 3.7 to 3.10). *)
Definition MAX_STR_DIGITS : nat := 4300.

(** Number of digits of a literal, its underscores left aside. *)
Fixpoint digit_count (s : string) : nat :=
  match s with
  | EmptyString => O
  | String c s' =>
      if Ascii.eqb c underscore then digit_count s' else S (digit_count s')
  end.

(** The magnitude part of a literal: the digits must start with a digit;
    in base 10 more than [MAX_STR_DIGITS] digits are refused (the limit does
    not apply to base 16). *)
Definition int_magnitude (base : Z) (s : string) : option Z :=
  match s with
  | EmptyString => None
  | String c _ =>
      if Ascii.eqb c underscore then None
      else if (base =? 10) && (MAX_STR_DIGITS <? digit_count s)%nat then None
      else int_digits base s 0 false
  end.

(** After the sign: for base 16 an optional [0x]/[0X] prefix, itself
    optionally followed by one underscore. *)
Definition int_unsigned (base : Z) (s : string) : option Z :=
  if (base =? 16) && (String.prefix "0x" s || String.prefix "0X" s)
  then let r := drop 2 s in
       int_magnitude base (if String.prefix "_" r then drop 1 r else r)
  else int_magnitude base s.

(** The white space [int] skips around a literal: TAB..CR and SPACE, and
    NEL and NBSP, which it first turns into a blank; unlike [str.strip] it
    does not skip FS..US. *)
Definition int_space (c : ascii) : bool :=
  let n := N_of_ascii c in
  (((9 <=? n) && (n <=? 13)) || (n =? 32) || (n =? 133) || (n =? 160))%N.

(** [int(s, base)] for base 10 or 16; [None] is [ValueError]. *)
Definition int (base : Z) (s : string) : option Z :=
  let t := strip_with int_space s in
  match t with
  | String "-" r => Z.opp <$> int_unsigned base r
  | String "+" r => int_unsigned base r
  | _ => int_unsigned base t
  end.

(** [str(z)], also inside an f-string; [None] is the [ValueError] raised
    for an integer of more than [MAX_STR_DIGITS] digits. *)
Definition str_int (z : Z) : option string :=
  if 10 ^ Z.of_nat MAX_STR_DIGITS <=? Z.abs z then None else Some (pretty z).

(** [len(s)] *)
Definition len (s : string) : Z := Z.of_nat (String.length s).

End Py.

(* ================================================================== *)
(** ** Location decoders *)
(* ================================================================== *)
Module Decoder.

(** [decode_enodeb_cellid], identical in backfill_radius_history.py,
    parse_radius_logs_debug.py and trace_incremental.py. *)
Definition decode_enodeb_cellid (uli_hex : string) : PyResult (Z * Z) :=
  let uli_hex := if Py.startswith "0x" uli_hex then Py.drop 2 uli_hex
                 else uli_hex in
  let eci_hex := Py.last_n 8 uli_hex in
  match Py.int 16 eci_hex with
  | None => Raised "ValueError"
  | Some eci =>
      let enodeb_id := Z.shiftr eci 8 in
      let cell_id := Z.land eci 255 in
      Returned (enodeb_id, cell_id)
  end.

(** The dictionary returned by [decode_eci]. *)
Record EciInfo : Type := mkEciInfo {
  enodeb_id : Z;
  cell_id : Z;
  eci : Z
}.

(** [radius_parser.decode_eci]; every exception is caught and turned into
    [None]. *)
Definition decode_eci (location_hex : string) : option EciInfo :=
  let hex_clean := Py.replace "0X" "" (Py.replace "0x" "" location_hex) in
  if Py.len hex_clean <? 8 then None
  else
    let eci_hex := Py.last_n 8 hex_clean in
    match Py.int 16 eci_hex with
    | None => None
    | Some eci =>
        Some {| enodeb_id := Z.land (Z.shiftr eci 8) 1048575;
                cell_id := Z.land eci 255;
                eci := eci |}
    end.

End Decoder.

(* ================================================================== *)
(** ** Record parsers *)
(* ================================================================== *)
Module Parser.

Definition newline : ascii := ascii_of_N 10.
Definition cr : ascii := ascii_of_N 13.
Definition quote : ascii := ascii_of_N 34.
Definition hash : ascii := "#"%char.

(** The lines produced by iterating over a file opened in text mode
    ([for line in f]), with universal newlines: a line ends at LF, at CR LF
    or at a bare CR, each of which is handed out as one newline character;
    the last line may lack it. *)
Fixpoint readlines (s : string) : list string :=
  match s with
  | EmptyString => []
  | String c s' =>
      if Ascii.eqb c newline then String newline EmptyString :: readlines s'
      else if Ascii.eqb c cr then
        match s' with
        | String c' s'' =>
            if Ascii.eqb c' newline
            then String newline EmptyString :: readlines s''
            else String newline EmptyString :: readlines s'
        | EmptyString => [String newline EmptyString]
        end
      else match readlines s' with
           | [] => [String c EmptyString]
           | l :: ls => String c l :: ls
           end
  end.

(** Longest prefix of non-whitespace characters: the group [(\S+)]. *)
Fixpoint nonspace_prefix (s : string) : string :=
  match s with
  | EmptyString => EmptyString
  | String c s' =>
      if Py.isspace c then EmptyString else String c (nonspace_prefix s')
  end.

(** Removes one trailing double quote, if there is one. *)
Fixpoint drop_last_quote (s : string) : string :=
  match s with
  | EmptyString => EmptyString
  | String c EmptyString =>
      if Ascii.eqb c quote then EmptyString else s
  | String c s' => String c (drop_last_quote s')
  end.

(** Removes one trailing newline, if there is one. *)
Fixpoint drop_last_newline (s : string) : string :=
  match s with
  | EmptyString => EmptyString
  | String c EmptyString =>
      if Ascii.eqb c newline then EmptyString else s
  | String c s' => String c (drop_last_newline s')
  end.

(** Does the string hold the character? *)
Fixpoint has_char (q : ascii) (s : string) : bool :=
  match s with
  | EmptyString => false
  | String c s' => Ascii.eqb c q || has_char q s'
  end.

(** The lazy group of the pattern, followed by an optional double quote and
    the dollar: the dollar matches at the end and
    just before a newline that ends the text, the lazy group stops as early
    as that allows, so the value is the text without such a newline and
    without one double quote before it; there is no match when a newline is
    left in the value, since the dot does not match one. *)
Definition lazy_value (s : string) : option string :=
  let value := drop_last_quote (drop_last_newline s) in
  if has_char newline value then None else Some value.

(** [re.match(r'(\S+)\s+=\s+"?(.*?)"?$', line)]: the key is the leading run
    of non-blank characters, then blanks, an equals sign, blanks again; the
    value is the rest without one leading and one trailing double quote. *)
Definition match_pair (line : string) : option (string * string) :=
  let key := nonspace_prefix line in
  let r1 := Py.drop (String.length key) line in
  let r2 := Py.lstrip_with Py.isspace r1 in
  if String.eqb key "" || (String.length r2 =? String.length r1)%nat
  then None
  else match r2 with
       | String "=" r3 =>
           let r4 := Py.lstrip_with Py.isspace r3 in
           if (String.length r4 =? String.length r3)%nat then None
           else
             let r5 := match r4 with
                       | String c r => if Ascii.eqb c quote then r else r4
                       | EmptyString => r4
                       end in
             value ← lazy_value r5; Some (key, value)
       | _ => None
       end.

(** [backfill_radius_history.parse_entry] *)
Definition parse_entry (lines : list string) : gmap string string :=
  fold_left
    (fun entry line =>
       match match_pair line with
       | Some (key, value) => <[key := value]> entry
       | None => entry
       end)
    lines ∅.

(** The generator body of [read_log_entries], over the lines of the file:
    [buffer] is the block being collected. *)
Fixpoint read_entries (lines : list string) (buffer : list string)
  : list (list string) :=
  match lines with
  | [] => if bool_decide (buffer = []) then [] else [buffer]
  | line :: rest =>
      let line := Py.strip line in
      if String.eqb line "" then
        if bool_decide (buffer = []) then read_entries rest buffer
        else buffer :: read_entries rest []
      else read_entries rest (buffer ++ [line])
  end.

(** The dictionary built by [radius_parser.parse_radius_record]; a key that
    was never assigned is [None]. *)
Record RadiusDict : Type := mkRadiusDict {
  msisdn : option string;
  ip_address : option string;
  imsi : option string;
  imei : option string;
  enodeb_id : option Z;
  cell_id : option Z;
  timestamp : option Z;
  status_type : option string
}.

Definition empty_dict : RadiusDict :=
  mkRadiusDict None None None None None None None None.

(** Assignment [record[k] = v], one function per key. *)
Definition set_msisdn (v : string) (r : RadiusDict) : RadiusDict :=
  mkRadiusDict (Some v) (ip_address r) (imsi r) (imei r) (enodeb_id r) (cell_id r) (timestamp r) (status_type r).
Definition set_ip_address (v : string) (r : RadiusDict) : RadiusDict :=
  mkRadiusDict (msisdn r) (Some v) (imsi r) (imei r) (enodeb_id r) (cell_id r) (timestamp r) (status_type r).
Definition set_imsi (v : string) (r : RadiusDict) : RadiusDict :=
  mkRadiusDict (msisdn r) (ip_address r) (Some v) (imei r) (enodeb_id r) (cell_id r) (timestamp r) (status_type r).
Definition set_imei (v : string) (r : RadiusDict) : RadiusDict :=
  mkRadiusDict (msisdn r) (ip_address r) (imsi r) (Some v) (enodeb_id r) (cell_id r) (timestamp r) (status_type r).
Definition set_enodeb_id (v : Z) (r : RadiusDict) : RadiusDict :=
  mkRadiusDict (msisdn r) (ip_address r) (imsi r) (imei r) (Some v) (cell_id r) (timestamp r) (status_type r).
Definition set_cell_id (v : Z) (r : RadiusDict) : RadiusDict :=
  mkRadiusDict (msisdn r) (ip_address r) (imsi r) (imei r) (enodeb_id r) (Some v) (timestamp r) (status_type r).
Definition set_timestamp (v : Z) (r : RadiusDict) : RadiusDict :=
  mkRadiusDict (msisdn r) (ip_address r) (imsi r) (imei r) (enodeb_id r) (cell_id r) (Some v) (status_type r).
Definition set_status_type (v : string) (r : RadiusDict) : RadiusDict :=
  mkRadiusDict (msisdn r) (ip_address r) (imsi r) (imei r) (enodeb_id r) (cell_id r) (timestamp r) (Some v).

(** [datetime.fromtimestamp(t)]: a point in time, kept as its epoch second;
    it raises outside the years 1..9999. *)
Definition fromtimestamp (t : Z) : option Z :=
  if (-62135596800 <=? t) && (t <=? 253402300799) then Some t else None.

(** One iteration of the loop of [parse_radius_record]. *)
Definition record_line (record : RadiusDict) (line : string) : RadiusDict :=
  let line := Py.strip line in
  if String.eqb line "" || Py.startswith "#" line then record
  else if Py.contains "=" line then
    let '(key, _, value) := Py.partition "=" line in
    let key := Py.strip key in
    let value := Py.strip_char quote (Py.strip value) in
    if String.eqb key "Calling-Station-Id" then
      set_msisdn value record
    else if String.eqb key "Framed-IP-Address" then
      set_ip_address value record
    else if String.eqb key "3GPP-IMSI" then
      set_imsi value record
    else if String.eqb key "3GPP-IMEISV" || String.eqb key "3GPP-IMEI" then
      set_imei value record
    else if String.eqb key "3GPP-User-Location-Info" then
      match Decoder.decode_eci value with
      | Some decoded =>
          set_cell_id (Decoder.cell_id decoded)
            (set_enodeb_id (Decoder.enodeb_id decoded) record)
      | None => record
      end
    else if String.eqb key "Timestamp" then
      match Py.int 10 value ≫= fromtimestamp with
      | Some t => set_timestamp t record
      | None => record
      end
    else if String.eqb key "Acct-Status-Type" then
      set_status_type value record
    else record
  else record.

(** Truth value of [record.get(k)] for a string and for an integer. *)
Definition truthy_str (v : option string) : bool :=
  match v with Some s => negb (String.eqb s "") | None => false end.
Definition truthy_int (v : option Z) : bool :=
  match v with Some z => negb (z =? 0) | None => false end.

(** [radius_parser.parse_radius_record] *)
Definition parse_radius_record (lines : list string) : option RadiusDict :=
  let record := fold_left record_line lines empty_dict in
  if truthy_str (msisdn record) && truthy_int (enodeb_id record)
  then Some record else None.

(** A line that opens a new record in the tail readers and in
    [parse_radius_file]: it is not blank and starts in the first column. *)
Definition is_header (line : string) : bool :=
  match line with
  | EmptyString => false
  | String c _ => negb (Py.isspace c) && negb (String.eqb (Py.strip line) "")
  end.

End Parser.

(* ================================================================== *)
(** ** The persisted tables and the statements of each ingestion path *)
(* ================================================================== *)
Module Store.

Definition float : Type := PrimFloat.float.

(** A row of [radius_matches]; the [imei] column is only written by
    radius_parser.py and radius_watcher.py. Points in time are epoch
    seconds. *)
Record HistoryRow : Type := mkHistoryRow {
  h_msisdn : string;
  h_imsi : string;
  h_imei : option string;
  h_enodeb_id : string;
  h_cell_id : string;
  h_tower_name : string;
  h_lat : float;
  h_lon : float;
  h_timestamp : Z
}.

(** A row of [latest_traces] without its primary key [msisdn]; a column
    left out of an INSERT is NULL, that is [None]. *)
Record LatestRow : Type := mkLatestRow {
  l_imsi : option string;
  l_enodeb_id : option string;
  l_cell_id : option string;
  l_tower_name : option string;
  l_lat : option float;
  l_lon : option float;
  l_timestamp : option Z;
  l_source : option string;
  l_device_model : option string;
  l_updated_at : Z
}.

(** A row of [backfill_audit] without its primary key [filename]. *)
Record AuditRow : Type := mkAuditRow {
  a_processed : Z;
  a_inserted : Z;
  a_deduplicated : Z;
  a_runtime_seconds : Z;
  a_backfill_time : Z
}.

Record DB : Type := mkDB {
  radius_matches : list HistoryRow;
  latest_traces : gmap string LatestRow;
  backfill_audit : gmap string AuditRow
}.

Definition empty_db : DB := mkDB [] ∅ ∅.

Definition set_radius_matches (t : list HistoryRow) (d : DB) : DB :=
  mkDB t (latest_traces d) (backfill_audit d).
Definition set_latest_traces (t : gmap string LatestRow) (d : DB) : DB :=
  mkDB (radius_matches d) t (backfill_audit d).
Definition set_backfill_audit (t : gmap string AuditRow) (d : DB) : DB :=
  mkDB (radius_matches d) (latest_traces d) t.

(** The constraint [unique_radius_entry]. *)
Definition same_key (a b : HistoryRow) : bool :=
  String.eqb (h_msisdn a) (h_msisdn b)
  && String.eqb (h_enodeb_id a) (h_enodeb_id b)
  && String.eqb (h_cell_id a) (h_cell_id b)
  && (h_timestamp a =? h_timestamp b).

(** [INSERT INTO radius_matches ... ON CONFLICT ... DO NOTHING] *)
Definition insert_history (row : HistoryRow) (t : list HistoryRow)
  : list HistoryRow :=
  if existsb (same_key row) t then t else t ++ [row].

(** The latest-state statement of [backfill_radius_history.bulk_insert_records]:
    every column is taken from the incoming row, [source] is the literal
    'backfill' and [updated_at] is NOW(). *)
Definition upsert_backfill (now : Z) (msisdn imsi enodeb_id cell_id tower : string)
    (lat lon : float) (ts : Z) (device_model : string)
    (t : gmap string LatestRow) : gmap string LatestRow :=
  <[msisdn := mkLatestRow (Some imsi) (Some enodeb_id) (Some cell_id)
                (Some tower) (Some lat) (Some lon) (Some ts)
                (Some "backfill") (Some device_model) now]> t.

(** The latest-state statement of [radius_watcher.RadiusWatcher.insert_records]:
    the update is guarded by
    [WHERE latest_traces.timestamp < EXCLUDED.timestamp] (not true when the
    stored timestamp is NULL) and leaves [updated_at] alone. *)
Definition upsert_watcher (now : Z) (msisdn imsi enodeb_id cell_id : string)
    (ts : Z) (t : gmap string LatestRow) : gmap string LatestRow :=
  match t !! msisdn with
  | None =>
      <[msisdn := mkLatestRow (Some imsi) (Some enodeb_id) (Some cell_id)
                    None None None (Some ts) (Some "radius") None now]> t
  | Some old =>
      match l_timestamp old with
      | Some stored =>
          if stored <? ts
          then <[msisdn := mkLatestRow (Some imsi) (Some enodeb_id)
                             (Some cell_id) (l_tower_name old) (l_lat old)
                             (l_lon old) (Some ts) (Some "radius")
                             (l_device_model old) (l_updated_at old)]> t
          else t
      | None => t
      end
  end.

(** The latest-state statement of [radius_parser.upsert_latest_traces]: on
    conflict only [enodeb_id], [cell_id], [timestamp], [source], [imsi] and
    [updated_at] are assigned. *)
Definition upsert_parser (now : Z) (msisdn imsi enodeb_id cell_id : string)
    (ts : Z) (t : gmap string LatestRow) : gmap string LatestRow :=
  match t !! msisdn with
  | None =>
      <[msisdn := mkLatestRow (Some imsi) (Some enodeb_id) (Some cell_id)
                    (Some EmptyString) (Some 0%float) (Some 0%float)
                    (Some ts) (Some "radius") (Some EmptyString) now]> t
  | Some old =>
      <[msisdn := mkLatestRow (Some imsi) (Some enodeb_id) (Some cell_id)
                    (l_tower_name old) (l_lat old) (l_lon old) (Some ts)
                    (Some "radius") (l_device_model old) now]> t
  end.

(** The latest-state statement of [parse_radius_logs_debug.insert_record]:
    that of the backfill with the literal 'debug'. *)
Definition upsert_debug (now : Z) (msisdn imsi enodeb_id cell_id tower : string)
    (lat lon : float) (ts : Z) (device_model : string)
    (t : gmap string LatestRow) : gmap string LatestRow :=
  <[msisdn := mkLatestRow (Some imsi) (Some enodeb_id) (Some cell_id)
                (Some tower) (Some lat) (Some lon) (Some ts)
                (Some "debug") (Some device_model) now]> t.

(** The latest-state statement of [trace_incremental.bulk_insert_records]
    ([tag] 'incremental') and of [cell_mapper.insert_record] ([tag]
    'watcher'): [device_model] is not among the columns, so a new row has
    none and a stored row keeps its own; every other column is assigned and
    [updated_at] is NOW(). *)
Definition upsert_tagged (tag : string) (now : Z)
    (msisdn imsi enodeb_id cell_id tower : string) (lat lon : float) (ts : Z)
    (t : gmap string LatestRow) : gmap string LatestRow :=
  <[msisdn := mkLatestRow (Some imsi) (Some enodeb_id) (Some cell_id)
                (Some tower) (Some lat) (Some lon) (Some ts) (Some tag)
                (t !! msisdn ≫= l_device_model) now]> t.

Definition upsert_incremental := upsert_tagged "incremental".
Definition upsert_cell_mapper := upsert_tagged "watcher".

(** [INSERT INTO backfill_audit ... ON CONFLICT (filename) DO NOTHING] *)
Definition insert_audit (filename : string) (row : AuditRow)
    (t : gmap string AuditRow) : gmap string AuditRow :=
  match t !! filename with
  | Some _ => t
  | None => <[filename := row]> t
  end.

End Store.

(* ================================================================== *)
(** ** The world the scripts run in, and the monad of their effects *)
(* ================================================================== *)
Module Sys.

(** What a directory entry below a source directory can be. *)
Inductive Child : Type :=
| RegularFile (content : string)
| NotAFile.

(** What an entry of [Config.LOG_DIR] can be. *)
Inductive Entry : Type :=
| Directory (children : list (string * Child))
| NotADirectory.

(** The effects the properties speak about, as they happen. *)
Inductive Event : Type :=
| EvFlush (msisdns : list string)     (* a batch was committed *)
| EvCheckpoint (file : string) (pos : Z) (* ProgressTracker.save wrote a line *)
| EvAudit (file : string)             (* the audit insert was committed *)
| EvUnlink (path : string)            (* a source file was removed *)
| EvClear.                            (* ProgressTracker.clear was called *)

(** [db] is the committed database, [tx] the uncommitted view of the open
    transaction, if any. [faults] decides the coming fallible external calls
    (connect, execute, commit, open, write, unlink), in order: [true] makes
    the call raise; when the list is used up no call fails. [trace] holds
    the events, the most recent first. Reading the clock returns [clock];
    time does not pass on its own. *)
Record World : Type := mkWorld {
  db : Store.DB;
  tx : option Store.DB;
  radacct : list (string * Entry);
  progress : option string;
  lock : bool;
  clock : Z;
  faults : list bool;
  trace : list Event
}.

Definition set_db (x : Store.DB) (w : World) : World :=
  mkWorld x (tx w) (radacct w) (progress w) (lock w) (clock w) (faults w) (trace w).
Definition set_tx (x : option Store.DB) (w : World) : World :=
  mkWorld (db w) x (radacct w) (progress w) (lock w) (clock w) (faults w) (trace w).
Definition set_radacct (x : list (string * Entry)) (w : World) : World :=
  mkWorld (db w) (tx w) x (progress w) (lock w) (clock w) (faults w) (trace w).
Definition set_progress (x : option string) (w : World) : World :=
  mkWorld (db w) (tx w) (radacct w) x (lock w) (clock w) (faults w) (trace w).
Definition set_lock (x : bool) (w : World) : World :=
  mkWorld (db w) (tx w) (radacct w) (progress w) x (clock w) (faults w) (trace w).
Definition set_faults (x : list bool) (w : World) : World :=
  mkWorld (db w) (tx w) (radacct w) (progress w) (lock w) (clock w) x (trace w).
Definition emit (e : Event) (w : World) : World :=
  mkWorld (db w) (tx w) (radacct w) (progress w) (lock w) (clock w) (faults w)
          (e :: trace w).

(** A computation: from a world to the world it leaves and its outcome. *)
Definition M (A : Type) : Type := World -> World * PyResult A.

Definition ret {A} (a : A) : M A := fun w => (w, Returned a).
Definition raise {A} (e : string) : M A := fun w => (w, Raised e).
Definition bind {A B} (m : M A) (k : A -> M B) : M B :=
  fun w => match m w with
           | (w', Returned a) => k a w'
           | (w', Raised e) => (w', Raised e)
           end.

(** [try: m  except Exception as e: h e] *)
Definition try_except {A} (m : M A) (h : string -> M A) : M A :=
  fun w => match m w with
           | (w', Returned a) => (w', Returned a)
           | (w', Raised e) => h e w'
           end.

(** [try: m  finally: c] *)
Definition finally {A} (m : M A) (c : M unit) : M A :=
  fun w => match m w with
           | (w', r) =>
               match c w' with
               | (w'', Returned _) => (w'', r)
               | (w'', Raised e) => (w'', Raised e)
               end
           end.

Definition get {X} (f : World -> X) : M X := fun w => (w, Returned (f w)).
Definition modify (f : World -> World) : M unit := fun w => (f w, Returned tt).

End Sys.

Declare Scope sys_scope.
Delimit Scope sys_scope with sys.
Notation "x <- m ;; k" := (Sys.bind m (fun x => k))
  (at level 100, m at next level, right associativity) : sys_scope.
Notation "m >> k" := (Sys.bind m (fun _ => k))
  (at level 100, k at level 200, right associativity) : sys_scope.

Module IO.
Import Sys.
Local Open Scope sys_scope.

(** A call into the outside world that may raise [what]. *)
Definition fallible (what : string) : M unit :=
  fun w => match faults w with
           | [] => (w, Returned tt)
           | b :: fs =>
               (set_faults fs w, if b : bool then Raised what else Returned tt)
           end.

(** Executes one statement inside the open transaction; a statement the
    server rejects ([None]) raises. *)
Definition execute (stmt : Store.DB -> option Store.DB) : M unit :=
  fallible "DatabaseError" >>
  fun w => match stmt (default (db w) (tx w)) with
           | Some d => (set_tx (Some d) w, Returned tt)
           | None => (w, Raised "DataError")
           end.

(** [cur.executemany(sql, rows)] *)
Fixpoint executemany {A} (stmt : A -> Store.DB -> option Store.DB)
    (rows : list A) : M unit :=
  match rows with
  | [] => ret tt
  | r :: rs => execute (stmt r) >> executemany stmt rs
  end.

(** [conn.commit()] *)
Definition commit : M unit :=
  fallible "OperationalError" >>
  modify (fun w => set_tx None (set_db (default (db w) (tx w)) w)).

(** [conn.rollback()]: the open transaction is discarded; on a connection
    that is closed or lost the call raises, and the server has dropped the
    transaction all the same. *)
Definition rollback : M unit :=
  modify (set_tx None) >> fallible "OperationalError".

(** The [with conn:] block of psycopg2, entered on a fresh connection:
    commit when the body returns, rollback when it raises. *)
Definition with_conn {A} (connect : M unit) (body : M A) : M A :=
  connect >>
  modify (set_tx None) >>
  fun w => match body w with
           | (w', Returned a) => (commit >> ret a) w'
           | (w', Raised e) => (set_tx None w', Raised e)
           end.

(** [VARCHAR(n)]: does the value fit the column? *)
Definition fits (n : nat) (s : string) : bool := (String.length s <=? n)%nat.

(** Path of a file of a source directory, as [str(Path(LOG_DIR) / ip / name)]. *)
Definition join (log_dir ip_dir name : string) : string :=
  log_dir ++ "/" ++ ip_dir ++ "/" ++ name.

(** Content of the regular file at [path], if there is one. *)
Fixpoint lookup_child (log_dir ip_dir path : string)
    (children : list (string * Child)) : option string :=
  match children with
  | [] => None
  | (name, RegularFile content) :: rest =>
      if String.eqb (join log_dir ip_dir name) path then Some content
      else lookup_child log_dir ip_dir path rest
  | (_, NotAFile) :: rest => lookup_child log_dir ip_dir path rest
  end.

Fixpoint lookup_path (log_dir path : string) (tree : list (string * Entry))
  : option string :=
  match tree with
  | [] => None
  | (ip_dir, Directory children) :: rest =>
      match lookup_child log_dir ip_dir path children with
      | Some s => Some s
      | None => lookup_path log_dir path rest
      end
  | (_, NotADirectory) :: rest => lookup_path log_dir path rest
  end.

(** The tree without the regular files at [path]. *)
Definition remove_path (log_dir path : string) (tree : list (string * Entry))
  : list (string * Entry) :=
  map (fun '(ip_dir, e) =>
         match e with
         | Directory children =>
             (ip_dir,
              Directory
                (List.filter
                   (fun '(name, c) =>
                      match c with
                      | RegularFile _ =>
                          negb (String.eqb (join log_dir ip_dir name) path)
                      | NotAFile => true
                      end) children))
         | NotADirectory => (ip_dir, e)
         end) tree.

End IO.

(* ================================================================== *)
(** ** Tools/backfill_radius_history.py *)
(* ================================================================== *)
Module Backfill.
Import Sys IO.
Local Open Scope sys_scope.

Module Config.
Definition MAX_RETRIES : nat := 3.
Definition BATCH_SIZE : nat := 1000.
Definition ENABLE_PURGE : bool := true.
Definition PURGE_AGE_DAYS : Z := 30.
Definition LOG_DIR : string := "/var/log/freeradius/radacct".
Definition DETAIL_PREFIX : string := "detail-".
End Config.

(** Modelled from the spec: the value of [decode_location_info], which
    Tools/cell_mapper.py does not define in this repository. It is the tuple
    [(tower, enodeb, cell_id, lat, lon)] that the callers unpack; station and
    sector are integers, name and coordinates are absent when the tower
    lookup misses. *)
Record Location : Type := mkLocation {
  loc_tower : option string;
  loc_enodeb : Z;
  loc_cell : Z;
  loc_lat : option Store.float;
  loc_lon : option Store.float
}.

(** What the script takes from its libraries and collaborators. A date and
    time is the number of seconds since 1970-01-01 00:00:00 on its own wall
    clock.
    - [strptime fmt s] and [strftime fmt t] are those of [datetime]
      ([None]: ValueError);
    - [decode_location_info] is imported from Tools.cell_mapper, which does
      not define it in this repository: it raises, returns a value that is
      empty or not a 5-tuple ([Returned None]), or returns the tuple;
    - [device_models tac] is the row of the device table read by
      [eir_lookup.lookup_device_model] ([None]: no row, or the query failed);
    - [timestamptz_in] is the server's reading of a TIMESTAMPTZ literal
      ([None]: the literal is rejected). *)
Record Env : Type := mkEnv {
  strptime : string -> string -> option Z;
  strftime : string -> Z -> string;
  decode_location_info : string -> PyResult (option Location);
  device_models : string -> option (string * string * string);
  timestamptz_in : string -> option Z
}.

(** The validated model [RadiusRecord]. *)
Record RadiusRecord : Type := mkRadiusRecord {
  msisdn : string;
  imsi : string;
  enodeb_id : string;
  cell_id : string;
  tower_name : string;
  lat : Store.float;
  lon : Store.float;
  timestamp : string;
  device_model : string
}.

Definition FMT_UTC : string := "%b %d %Y %H:%M:%S UTC".
Definition FMT_LOCAL : string := "%b %d %Y %H:%M:%S GMT-04".

(** Wall clock at UTC-4 of the instant [t], and its calendar day. *)
Definition to_local (t : Z) : Z := t - 4 * 3600.
Definition date_of (t : Z) : Z := t / 86400.

(** [validate_msisdn] *)
Definition validate_msisdn (v : string) : option string :=
  if String.eqb v "" || (Py.len v <? 10) then None else Some v.

(** [validate_timestamp] *)
Definition validate_timestamp (env : Env) (v : string) : option string :=
  match strptime env FMT_LOCAL v with
  | Some _ => Some v
  | None => None
  end.

(** [process_timestamp]; [now] is the instant at which the clock is read. *)
Definition process_timestamp (env : Env) (now : Z) (raw_ts : string)
  : option string :=
  match strptime env FMT_UTC raw_ts with
  | None => None
  | Some ts_obj =>
      let local_dt := to_local ts_obj in
      if negb (date_of local_dt =? date_of (to_local now)) then None
      else Some (strftime env FMT_LOCAL local_dt)
  end.

(** [process_location] *)
Definition process_location (env : Env) (raw_loc : string) : option Location :=
  match decode_location_info env raw_loc with
  | Returned (Some decoded) => Some decoded
  | Returned None => None
  | Raised _ => None
  end.

(** [eir_lookup.lookup_device_model] *)
Definition lookup_device_model (env : Env) (tac : string) : string :=
  if String.eqb tac "" || (Py.len tac <? 8) then "Unknown Device"
  else match device_models env (Py.take 8 tac) with
       | Some (manufacturer, model, device_type) =>
           manufacturer ++ " " ++ model ++ " (" ++ device_type ++ ")"
       | None => "Unknown Device"
       end.

(** [entry.get(k, "")] *)
Definition get_str (entry : gmap string string) (k : string) : string :=
  default EmptyString (entry !! k).

(** [entry.get(k1) or entry.get(k2, "")] *)
Definition get_or (entry : gmap string string) (k1 k2 : string) : string :=
  match entry !! k1 with
  | Some v => if String.eqb v "" then get_str entry k2 else v
  | None => get_str entry k2
  end.

(** [build_record]: a validation error of the model is caught and gives
    [None]; nothing else in the body raises. *)
Definition build_record (env : Env) (now : Z) (entry : gmap string string)
  : option RadiusRecord :=
  let msisdn := Py.strip (get_str entry "Calling-Station-Id") in
  let imsi := Py.strip (get_or entry "3GPP-IMSI" "User-Name") in
  let raw_loc := Py.strip (get_str entry "3GPP-User-Location-Info") in
  let raw_ts := Py.strip (get_str entry "Event-Timestamp") in
  let imei_raw := Py.strip (get_str entry "3GPP-IMEISV") in
  if String.eqb msisdn "" || String.eqb raw_loc "" || String.eqb raw_ts ""
  then None
  else
    match process_timestamp env now raw_ts with
    | None => None
    | Some timestamp =>
        if String.eqb timestamp "" then None
        else
          match process_location env raw_loc with
          | None => None
          | Some location_data =>
              let enodeb := pretty (loc_enodeb location_data) in
              let cell_id := pretty (loc_cell location_data) in
              let model := if String.eqb imei_raw "" then "Unknown"
                           else lookup_device_model env (Py.take 8 imei_raw) in
              msisdn ← validate_msisdn msisdn;
              tower ← loc_tower location_data;
              lat ← loc_lat location_data;
              lon ← loc_lon location_data;
              timestamp ← validate_timestamp env timestamp;
              Some (mkRadiusRecord msisdn imsi enodeb cell_id tower lat lon
                      timestamp model)
          end
    end.

(** [get_db_connection]: up to [Config.MAX_RETRIES] attempts; the last
    failure is raised again. *)
Fixpoint connect_retry (attempts : nat) : M unit :=
  match attempts with
  | O => raise "ConnectionError"
  | S k =>
      try_except (fallible "OperationalError")
        (fun e => match k with
                  | O => raise e
                  | S _ => connect_retry k
                  end)
  end.

Definition get_db_connection : M unit := connect_retry Config.MAX_RETRIES.

(** The row of [radius_matches] a record becomes; [None] when the server
    rejects a value (timestamp literal, VARCHAR length). *)
Definition history_row (env : Env) (r : RadiusRecord) : option Store.HistoryRow :=
  ts ← timestamptz_in env (timestamp r);
  if fits 15 (msisdn r) && fits 15 (imsi r) && fits 20 (enodeb_id r)
     && fits 10 (cell_id r)
  then Some (Store.mkHistoryRow (msisdn r) (imsi r) None (enodeb_id r)
               (cell_id r) (tower_name r) (lat r) (lon r) ts)
  else None.

Definition history_stmt (env : Env) (r : RadiusRecord) (d : Store.DB)
  : option Store.DB :=
  row ← history_row env r;
  Some (Store.set_radius_matches
          (Store.insert_history row (Store.radius_matches d)) d).

Definition latest_stmt (env : Env) (now : Z) (r : RadiusRecord) (d : Store.DB)
  : option Store.DB :=
  ts ← timestamptz_in env (timestamp r);
  if fits 15 (msisdn r) && fits 15 (imsi r) && fits 20 (enodeb_id r)
     && fits 10 (cell_id r)
  then Some (Store.set_latest_traces
               (Store.upsert_backfill now (msisdn r) (imsi r) (enodeb_id r)
                  (cell_id r) (tower_name r) (lat r) (lon r) ts
                  (device_model r) (Store.latest_traces d)) d)
  else None.

(** [bulk_insert_records]: both statements run in one transaction; the
    count returned is the row count of the upsert, one per record. *)
Definition bulk_insert_records (env : Env) (records : list RadiusRecord)
  : M Z :=
  match records with
  | [] => ret 0
  | _ =>
      try_except
        (with_conn get_db_connection
           (now <- get clock ;;
            executemany (history_stmt env) records >>
            executemany (latest_stmt env now) records >>
            let inserted := Z.of_nat (length records) in
            commit >>
            modify (emit (EvFlush (map msisdn records))) >>
            ret inserted))
        (fun e => raise e)
  end.

(** *** ProgressTracker *)

Definition pipe : ascii := "|"%char.

(** One line of the progress file, in the comprehension of [load]:
    [Some None] skips the line, [None] is the ValueError of [int]. *)
Definition load_line (line : string) : option (option (string * Z)) :=
  match Py.split pipe (Py.strip line) with
  | [name; pos] =>
      match Py.int 10 pos with
      | Some p => Some (Some (name, p))
      | None => None
      end
  | _ => Some None
  end.

Fixpoint load_lines (lines : list string) (acc : gmap string Z)
  : option (gmap string Z) :=
  match lines with
  | [] => Some acc
  | line :: rest =>
      match load_line line with
      | None => None
      | Some None => load_lines rest acc
      | Some (Some (name, p)) => load_lines rest (<[name := p]> acc)
      end
  end.

(** The mapping [load] builds from the content of the progress file; a
    ValueError is caught and gives the empty mapping. *)
Definition load_content (content : string) : gmap string Z :=
  default ∅ (load_lines (Parser.readlines content) ∅).

(** [ProgressTracker.load] *)
Definition load : M (gmap string Z) :=
  content <- get progress ;;
  match content with
  | None => ret ∅
  | Some c =>
      try_except (fallible "OSError" >> ret (load_content c))
                 (fun _ => ret ∅)
  end.

(** [ProgressTracker.save]: the file is opened for appending, which creates
    it, then the line is formatted and written; an exception of either step
    is logged. *)
Definition save (filename : string) (position : Z) : M unit :=
  try_except
    (fallible "OSError" >>
     match Py.str_int position with
     | Some digits =>
         modify (fun w =>
           emit (EvCheckpoint filename position)
             (set_progress
                (Some (default EmptyString (progress w) ++ filename ++ "|"
                       ++ digits ++ String Parser.newline EmptyString))
                w))
     | None =>
         modify (fun w =>
           set_progress (Some (default EmptyString (progress w))) w) >>
         raise "ValueError"
     end)
    (fun _ => ret tt).

(** [ProgressTracker.clear] *)
Definition clear : M unit :=
  modify (emit EvClear) >>
  try_except
    (content <- get progress ;;
     match content with
     | Some _ => fallible "OSError" >> modify (set_progress None)
     | None => ret tt
     end)
    (fun _ => ret tt).

(** *** Processing one file *)

(** The variables of the loop of [process_log_file]. *)
Record LoopState : Type := mkLoopState {
  batch : list RadiusRecord;
  processed : Z;
  inserted : Z
}.

(** [open(file_path)] in [read_log_entries] *)
Definition open_log (path : string) : M string :=
  fallible "OSError" >>
  tree <- get radacct ;;
  match lookup_path Config.LOG_DIR path tree with
  | Some content => ret content
  | None => raise "FileNotFoundError"
  end.

(** [Path(log_file).unlink()] *)
Definition unlink_log (path : string) : M unit :=
  fallible "OSError" >>
  tree <- get radacct ;;
  match lookup_path Config.LOG_DIR path tree with
  | Some _ =>
      modify (fun w =>
        emit (EvUnlink path)
          (set_radacct (remove_path Config.LOG_DIR path (radacct w)) w))
  | None => raise "FileNotFoundError"
  end.

(** The body of the [for] loop, for the entry numbered [entry_num]. *)
Definition loop_body (env : Env) (log_file : string) (st : LoopState)
    (entry_num : Z) (entry_lines : list string) : M LoopState :=
  now <- get clock ;;
  let entry := Parser.parse_entry entry_lines in
  match build_record env now entry with
  | Some record =>
      let batch' := (batch st ++ [record])%list in
      let processed' := processed st + 1 in
      if (Config.BATCH_SIZE <=? length batch')%nat then
        n <- bulk_insert_records env batch' ;;
        save log_file (entry_num + 1) >>
        ret (mkLoopState [] processed' (inserted st + n))
      else ret (mkLoopState batch' processed' (inserted st))
  | None => ret st
  end.

(** The [for] loop over [enumerate(read_log_entries(log_file))]; reading the
    next entry from the file may fail. *)
Fixpoint loop (env : Env) (log_file : string) (entries : list (list string))
    (entry_num : Z) (st : LoopState) : M LoopState :=
  match entries with
  | [] => fallible "OSError" >> ret st
  | entry_lines :: rest =>
      fallible "OSError" >>
      st' <- loop_body env log_file st entry_num entry_lines ;;
      loop env log_file rest (entry_num + 1) st'
  end.

(** The part of [process_log_file] that reads the file and flushes the
    batches. The resume position is loaded and appears in a log line; the
    enumeration starts at entry 0 whatever its value. *)
Definition ingest (env : Env) (log_file : string) (resume_pos : Z)
  : M LoopState :=
  content <- open_log log_file ;;
  st <- loop env log_file
          (Parser.read_entries (Parser.readlines content) []) 0
          (mkLoopState [] 0 0) ;;
  match batch st with
  | [] => ret st
  | _ =>
      n <- bulk_insert_records env (batch st) ;;
      ret (mkLoopState (batch st) (processed st) (inserted st + n))
  end.

Definition audit_stmt (log_file : string) (st : LoopState) (runtime now : Z)
    (d : Store.DB) : option Store.DB :=
  Some (Store.set_backfill_audit
          (Store.insert_audit log_file
             (Store.mkAuditRow (processed st) (inserted st)
                (processed st - inserted st) runtime now)
             (Store.backfill_audit d)) d).

(** The audit insert: its own connection and transaction. *)
Definition record_completion (log_file : string) (st : LoopState)
    (runtime : Z) : M unit :=
  with_conn get_db_connection
    (now <- get clock ;;
     execute (audit_stmt log_file st runtime now) >>
     commit >>
     modify (emit (EvAudit log_file))).

(** [process_log_file] *)
Definition process_log_file (env : Env) (log_file : string) : M (Z * Z) :=
  progress_map <- load ;;
  let resume_pos := default 0 (progress_map !! log_file) in
  start_time <- get clock ;;
  try_except
    (st <- ingest env log_file resume_pos ;;
     end_time <- get clock ;;
     let runtime := end_time - start_time in
     record_completion log_file st runtime >>
     try_except (unlink_log log_file) (fun _ => ret tt) >>
     ret (processed st, inserted st))
    (fun e => raise e).

(** *** The run *)

Fixpoint insert_sorted (x : string) (l : list string) : list string :=
  match l with
  | [] => [x]
  | y :: l' => if String.leb x y then x :: l else y :: insert_sorted x l'
  end.

(** [sorted(paths)] *)
Definition sorted (l : list string) : list string :=
  fold_right insert_sorted [] l.

(** The files of one source directory that [glob] matches and that are
    regular files. *)
Definition matched_files (today_str ip_dir : string)
    (children : list (string * Child)) : list string :=
  flat_map (fun '(name, c) =>
              match c with
              | RegularFile _ =>
                  if Py.startswith (Config.DETAIL_PREFIX ++ today_str) name
                  then [join Config.LOG_DIR ip_dir name] else []
              | NotAFile => []
              end) children.

Fixpoint scan (today_str : string) (tree : list (string * Entry))
  : list (string * list string) :=
  match tree with
  | [] => []
  | (ip_dir, Directory children) :: rest =>
      match matched_files today_str ip_dir children with
      | [] => scan today_str rest
      | matched => (ip_dir, sorted matched) :: scan today_str rest
      end
  | (_, NotADirectory) :: rest => scan today_str rest
  end.

(** [get_all_log_files] *)
Definition get_all_log_files (env : Env) : M (list (string * list string)) :=
  now <- get clock ;;
  let today_str := strftime env "%Y%m%d" (to_local now) in
  try_except
    (fallible "OSError" >>
     tree <- get radacct ;;
     ret (scan today_str tree))
    (fun e => raise e).

(** The files of one source, one after the other; a file that fails is
    logged and the others go on. The pool runs them concurrently: this is
    the schedule in which each worker finishes before the next starts. *)
Fixpoint process_files (env : Env) (files : list string) (totals : Z * Z)
  : M (Z * Z) :=
  match files with
  | [] => ret totals
  | f :: rest =>
      totals' <- try_except
                   (r <- process_log_file env f ;;
                    ret (totals.1 + r.1, totals.2 + r.2))
                   (fun _ => ret totals) ;;
      process_files env rest totals'
  end.

Fixpoint process_sources (env : Env) (all_logs : list (string * list string))
    (totals : Z * Z) : M (Z * Z) :=
  match all_logs with
  | [] => ret totals
  | (_, files) :: rest =>
      totals' <- process_files env files totals ;;
      process_sources env rest totals'
  end.

Definition purge_stmt (now : Z) (d : Store.DB) : option Store.DB :=
  Some (Store.set_backfill_audit
          (filter (fun kv => ¬ (Store.a_backfill_time kv.2
                                 < now - Config.PURGE_AGE_DAYS * 86400))
                  (Store.backfill_audit d)) d).

(** [perform_maintenance] *)
Definition perform_maintenance : M unit :=
  if Config.ENABLE_PURGE then
    try_except
      (with_conn get_db_connection
         (now <- get clock ;;
          execute (purge_stmt now) >>
          commit >>
          fallible "ActiveSqlTransaction"))
      (fun _ => ret tt)
  else ret tt.

(** [create_tables_if_not_exists]: the tables exist in the model from the
    start, the statement changes no row. *)
Definition create_tables_if_not_exists : M unit :=
  execute (fun d => Some d) >> commit.

(** What [backfill] does between taking the lock and the [finally] clause. *)
Definition backfill_body (env : Env) : M unit :=
  with_conn get_db_connection create_tables_if_not_exists >>
  all_logs <- get_all_log_files env ;;
  match all_logs with
  | [] => ret tt
  | _ =>
      process_sources env all_logs (0, 0) >>
      perform_maintenance
  end.

(** [Path(Config.LOCK_FILE).unlink()] *)
Definition unlink_lock : M unit :=
  fallible "OSError" >>
  locked <- get lock ;;
  if locked : bool then modify (set_lock false) else raise "FileNotFoundError".

(** The [finally] clause of [backfill]. *)
Definition cleanup : M unit :=
  try_except (unlink_lock >> clear) (fun _ => ret tt).

(** [backfill] *)
Definition backfill (env : Env) : M unit :=
  locked <- get lock ;;
  if locked : bool then ret tt
  else
    created <- try_except (fallible "OSError" >> modify (set_lock true) >> ret true)
                          (fun _ => ret false) ;;
    if created : bool then
      finally (try_except (backfill_body env) (fun _ => ret tt)) cleanup
    else ret tt.

End Backfill.

(* ================================================================== *)
(** ** Tools/radius_parser.py *)
(* ================================================================== *)
Module RadiusParser.
Import Sys IO.
Local Open Scope sys_scope.

(** [get_db_connection]: one attempt. *)
Definition get_db_connection : M unit :=
  fallible "OperationalError" >> modify (set_tx None).

(** The loop of [parse_radius_file] over the lines of the file;
    [current_record] collects the lines since the last header line. *)
Fixpoint parse_lines (lines : list string) (current_record : list string)
  : list Parser.RadiusDict :=
  match lines with
  | [] =>
      match current_record with
      | [] => []
      | _ => match Parser.parse_radius_record current_record with
             | Some parsed => [parsed]
             | None => []
             end
      end
  | line :: rest =>
      if Parser.is_header line then
        match current_record with
        | [] => parse_lines rest []
        | _ => match Parser.parse_radius_record current_record with
               | Some parsed => parsed :: parse_lines rest []
               | None => parse_lines rest []
               end
        end
      else parse_lines rest (current_record ++ [line])%list
  end.

(** [parse_radius_file]: a missing file yields nothing. *)
Definition parse_radius_file (filepath : string) : M (list Parser.RadiusDict) :=
  tree <- get radacct ;;
  match lookup_path Backfill.Config.LOG_DIR filepath tree with
  | None => ret []
  | Some content =>
      fallible "OSError" >> ret (parse_lines (Parser.readlines content) [])
  end.

(** [str(r.get(k, ''))] for an integer entry *)
Definition str_or_empty (v : option Z) : string :=
  match v with Some z => pretty z | None => EmptyString end.

(** [execute_values] sends the rows in pages of 100, one statement each. *)
Fixpoint pages (fuel : nat) (rows : list Parser.RadiusDict)
  : list (list Parser.RadiusDict) :=
  match fuel, rows with
  | _, [] => []
  | O, _ => [rows]
  | S k, _ => firstn 100 rows :: pages k (skipn 100 rows)
  end.

Definition execute_values
    (stmt : list Parser.RadiusDict -> Store.DB -> option Store.DB)
    (rows : list Parser.RadiusDict) : M unit :=
  executemany stmt (pages (length rows) rows).

(** One row of the upsert; [None] when the server rejects it (NULL key,
    VARCHAR length). [client_now] is [datetime.now()]. *)
Definition latest_row (now client_now : Z) (r : Parser.RadiusDict)
    (t : gmap string Store.LatestRow) : option (gmap string Store.LatestRow) :=
  m ← Parser.msisdn r;
  let imsi := default EmptyString (Parser.imsi r) in
  let enodeb := str_or_empty (Parser.enodeb_id r) in
  let cell := str_or_empty (Parser.cell_id r) in
  if fits 15 m && fits 15 imsi && fits 20 enodeb && fits 10 cell
  then Some (Store.upsert_parser now m imsi enodeb cell
               (default client_now (Parser.timestamp r)) t)
  else None.

(** The upsert of one page: a statement that would update one row twice is
    rejected by the server. *)
Definition latest_page (now client_now : Z) (page : list Parser.RadiusDict)
    (d : Store.DB) : option Store.DB :=
  if bool_decide (NoDup (map Parser.msisdn page)) then
    t ← foldl (fun acc r => acc ≫= latest_row now client_now r)
              (Some (Store.latest_traces d)) page;
    Some (Store.set_latest_traces t d)
  else None.

Definition history_row (client_now : Z) (r : Parser.RadiusDict)
  : option Store.HistoryRow :=
  m ← Parser.msisdn r;
  let imsi := default EmptyString (Parser.imsi r) in
  let enodeb := str_or_empty (Parser.enodeb_id r) in
  let cell := str_or_empty (Parser.cell_id r) in
  if fits 15 m && fits 15 imsi && fits 20 enodeb && fits 10 cell
  then Some (Store.mkHistoryRow m imsi
               (Some (default EmptyString (Parser.imei r))) enodeb cell
               EmptyString 0%float 0%float
               (default client_now (Parser.timestamp r)))
  else None.

Definition history_page (client_now : Z) (page : list Parser.RadiusDict)
    (d : Store.DB) : option Store.DB :=
  t ← foldl (fun acc r =>
               t ← acc; row ← history_row client_now r;
               Some (Store.insert_history row t))
            (Some (Store.radius_matches d)) page;
  Some (Store.set_radius_matches t d).

(** [upsert_latest_traces(records, conn)] on the caller's connection: it
    commits its own statement, and on an exception rolls back and returns 0. *)
Definition upsert_latest_traces (records : list Parser.RadiusDict) : M Z :=
  match records with
  | [] => ret 0
  | _ =>
      try_except
        (now <- get clock ;;
         execute_values (latest_page now now) records >>
         commit >>
         ret (Z.of_nat (length records)))
        (fun _ => rollback >> ret 0)
  end.

(** [insert_radius_history(records, conn)], likewise; the count, which the
    callers ignore, is the number of rows the call added. *)
Definition insert_radius_history (records : list Parser.RadiusDict) : M Z :=
  match records with
  | [] => ret 0
  | _ =>
      try_except
        (now <- get clock ;;
         before <- get (fun w => length (Store.radius_matches (default (db w) (tx w)))) ;;
         execute_values (history_page now) records >>
         after <- get (fun w => length (Store.radius_matches (default (db w) (tx w)))) ;;
         commit >>
         ret (Z.of_nat (after - before)))
        (fun _ => rollback >> ret 0)
  end.

(** The two writes of one batch in [process_file]. *)
Definition write_batch (batch : list Parser.RadiusDict) : M Z :=
  inserted <- upsert_latest_traces batch ;;
  insert_radius_history batch >>
  ret inserted.

Fixpoint process_records (batch_size : nat) (records batch : list Parser.RadiusDict)
    (totals : Z * Z) : M (Z * Z) :=
  match records with
  | [] =>
      match batch with
      | [] => ret totals
      | _ =>
          inserted <- write_batch batch ;;
          ret (totals.1 + Z.of_nat (length batch), totals.2 + inserted)
      end
  | record :: rest =>
      let batch' := (batch ++ [record])%list in
      if (batch_size <=? length batch')%nat then
        inserted <- write_batch batch' ;;
        process_records batch_size rest []
          (totals.1 + Z.of_nat (length batch'), totals.2 + inserted)
      else process_records batch_size rest batch' totals
  end.

(** [process_file(filepath, batch_size)] *)
Definition process_file (filepath : string) (batch_size : nat) : M (Z * Z) :=
  get_db_connection >>
  records <- parse_radius_file filepath ;;
  process_records batch_size records [] (0, 0).

End RadiusParser.

(* ================================================================== *)
(** ** Tools/radius_watcher.py *)
(* ================================================================== *)
Module Watcher.
Import Sys IO.
Local Open Scope sys_scope.

(** The loop of [RadiusWatcher.process_file] over the lines read in this
    poll; [current_record] is a local of the call, and what it holds when
    the lines run out is not used. *)
Fixpoint scan_lines (lines : list string) (current_record : list string)
    (records : list Parser.RadiusDict) : list Parser.RadiusDict :=
  match lines with
  | [] => records
  | line :: rest =>
      if Parser.is_header line then
        match current_record with
        | [] => scan_lines rest [] records
        | _ =>
            match Parser.parse_radius_record current_record with
            | Some parsed =>
                if Parser.truthy_str (Parser.msisdn parsed)
                   && Parser.truthy_int (Parser.enodeb_id parsed)
                then scan_lines rest [] (records ++ [parsed])%list
                else scan_lines rest [] records
            | None => scan_lines rest [] records
            end
        end
      else scan_lines rest (current_record ++ [line])%list records
  end.

(** [RadiusWatcher.process_file]: [file_positions] is the attribute of the
    watcher, returned with the records of this poll (the results 0 and []
    of the source are both the empty list). *)
Definition process_file (file_positions : gmap string nat) (filepath : string)
  : M (gmap string nat * list Parser.RadiusDict) :=
  tree <- get radacct ;;
  match lookup_path Backfill.Config.LOG_DIR filepath tree with
  | None => ret (file_positions, [])
  | Some content =>
      try_except
        (let current_size := String.length content in
         let last_pos := default 0%nat (file_positions !! filepath) in
         let last_pos := if (current_size <? last_pos)%nat then 0%nat
                         else last_pos in
         if (current_size <=? last_pos)%nat then ret (file_positions, [])
         else
           fallible "OSError" >>
           let records :=
             scan_lines (Parser.readlines (Py.drop last_pos content)) [] [] in
           ret (<[filepath := current_size]> file_positions, records))
        (fun _ => ret (file_positions, []))
  end.

Definition latest_stmt (now client_now : Z) (r : Parser.RadiusDict)
    (d : Store.DB) : option Store.DB :=
  m ← Parser.msisdn r;
  let imsi := default EmptyString (Parser.imsi r) in
  let enodeb := RadiusParser.str_or_empty (Parser.enodeb_id r) in
  let cell := RadiusParser.str_or_empty (Parser.cell_id r) in
  if fits 15 m && fits 15 imsi && fits 20 enodeb && fits 10 cell
  then Some (Store.set_latest_traces
               (Store.upsert_watcher now m imsi enodeb cell
                  (default client_now (Parser.timestamp r))
                  (Store.latest_traces d)) d)
  else None.

Definition history_stmt (client_now : Z) (r : Parser.RadiusDict)
    (d : Store.DB) : option Store.DB :=
  row ← RadiusParser.history_row client_now r;
  Some (Store.set_radius_matches
          (Store.insert_history row (Store.radius_matches d)) d).

(** [RadiusWatcher.reconnect_db]; a failure is logged. *)
Definition reconnect_db : M unit :=
  try_except (RadiusParser.get_db_connection) (fun _ => ret tt).


End Watcher.

(* ================================================================== *)
(** ** Tools/radius_watcher_old.py *)
(* ================================================================== *)
Module WatcherOld.
Import Sys IO.
Local Open Scope sys_scope.

(** The loop of [RadiusFileHandler.process_new_lines]; [buffer] is
    [self.buffer[filepath]], which outlives the call. *)
Fixpoint scan_lines (lines : list string) (buffer : list string)
    (records : list Parser.RadiusDict)
  : list string * list Parser.RadiusDict :=
  match lines with
  | [] => (buffer, records)
  | line :: rest =>
      if Parser.is_header line then
        match buffer with
        | [] => scan_lines rest [] records
        | _ =>
            match Parser.parse_radius_record buffer with
            | Some parsed => scan_lines rest [] (records ++ [parsed])%list
            | None => scan_lines rest [] records
            end
        end
      else scan_lines rest (buffer ++ [line])%list records
  end.

(** The attributes of the handler. *)
Record Handler : Type := mkHandler {
  file_positions : gmap string nat;
  buffer : gmap string (list string)
}.

(** The reading part of [process_new_lines]: the handler afterwards and
    [records_to_insert]. *)
Definition read_new_lines (h : Handler) (filepath content : string)
  : Handler * list Parser.RadiusDict :=
  let last_pos := default 0%nat (file_positions h !! filepath) in
  let current_size := String.length content in
  let last_pos := if (current_size <? last_pos)%nat then 0%nat else last_pos in
  let buf := default [] (buffer h !! filepath) in
  let '(buf', records) :=
    scan_lines (Parser.readlines (Py.drop last_pos content)) buf [] in
  (mkHandler (<[filepath := current_size]> (file_positions h))
             (<[filepath := buf']> (buffer h)),
   records).

(** [RadiusFileHandler.reconnect_db]; a failure is logged. *)
Definition reconnect_db : M unit :=
  try_except (RadiusParser.get_db_connection) (fun _ => ret tt).

(** [process_new_lines] on an established connection; an exception of the
    two writes is logged and followed by a reconnection, any other one is
    logged and swallowed. *)
Definition process_new_lines (h : Handler) (filepath : string) : M Handler :=
  try_except
    (fallible "OSError" >>
     tree <- get radacct ;;
     match lookup_path Backfill.Config.LOG_DIR filepath tree with
     | None => raise "FileNotFoundError"
     | Some content =>
         let '(h', records) := read_new_lines h filepath content in
         match records with
         | [] => ret h'
         | _ =>
             try_except
               (RadiusParser.upsert_latest_traces records >>
                RadiusParser.insert_radius_history records >>
                ret tt)
               (fun _ => reconnect_db) >>
             ret h'
         end
     end)
    (fun _ => ret h).

End WatcherOld.

(* ================================================================== *)
(** ** Sample inputs *)
(* ================================================================== *)
Module Samples.
Import Sys IO.

Definition nl : string := String Parser.newline EmptyString.
Definition tab : string := String (ascii_of_N 9) EmptyString.
Definition quoted (s : string) : string :=
  String Parser.quote s ++ String Parser.quote EmptyString.

(** The location code of the scenario of the specification. *)
Definition scenario_code : string := "0x823708401b59370840000fc70e".

(** An environment for 4 November 2026: the one timestamp the samples use
    is understood by [strptime], locations are decoded with
    [decode_enodeb_cellid] and every tower is found. *)
Definition env : Backfill.Env :=
  Backfill.mkEnv
    (fun fmt s =>
       if String.eqb fmt Backfill.FMT_UTC
          && String.eqb s "Nov 04 2026 12:00:00 UTC" then Some 1793793600
       else if String.eqb fmt Backfill.FMT_LOCAL
               && String.eqb s "Nov 04 2026 08:00:00 GMT-04"
            then Some 1793779200
            else None)
    (fun fmt t => if String.eqb fmt "%Y%m%d" then "20261104"
                  else "Nov 04 2026 08:00:00 GMT-04")
    (fun loc =>
       match Decoder.decode_enodeb_cellid loc with
       | Returned (e, c) =>
           Returned (Some (Backfill.mkLocation (Some "Tower") e c
                             (Some 0%float) (Some 0%float)))
       | Raised e => Raised e
       end)
    (fun _ => None)
    (fun s => if String.eqb s "Nov 04 2026 08:00:00 GMT-04"
              then Some 1793793600 else None).

Definition now : Z := 1793793700.

(** A complete block of a detail file, as the backfill reads it. *)
Definition entry_lines (msisdn : string) : list string :=
  [ "Calling-Station-Id = " ++ quoted msisdn;
    "3GPP-IMSI = " ++ quoted "738010000000001";
    "3GPP-User-Location-Info = " ++ scenario_code;
    "Event-Timestamp = " ++ quoted "Nov 04 2026 12:00:00 UTC" ].

(** A block without a location code. *)
Definition rejected_lines : list string :=
  [ "Calling-Station-Id = " ++ quoted "5926001234";
    "Event-Timestamp = " ++ quoted "Nov 04 2026 12:00:00 UTC" ].

Definition block (lines : list string) : string :=
  fold_right (fun l acc => l ++ nl ++ acc) nl lines.

Fixpoint repeat_text (n : nat) (s : string) : string :=
  match n with
  | O => EmptyString
  | S k => s ++ repeat_text k s
  end.

Definition path : string :=
  "/var/log/freeradius/radacct/10.20.50.67/detail-20261104".

(** A world with one source directory holding one detail file. *)
Definition world (content : string) (progress : option string)
    (faults : list bool) : World :=
  mkWorld Store.empty_db None
    [("10.20.50.67", Directory [("detail-20261104", RegularFile content)])]
    progress false now faults [].

(** A stored latest-state row written by the backfill at time 200. *)
Definition stored_row : Store.LatestRow :=
  Store.mkLatestRow (Some "738010000000001") (Some "4039") (Some "14")
    (Some "Tower") (Some 0%float) (Some 0%float) (Some 200)
    (Some "backfill") (Some "Unknown") 205.

(** A block of a detail file as the tail readers see it: a header line in
    the first column, indented attributes, a blank line. *)
Definition tail_block (header msisdn : string) : string :=
  header ++ nl
  ++ tab ++ "Calling-Station-Id = " ++ quoted msisdn ++ nl
  ++ tab ++ "3GPP-User-Location-Info = " ++ scenario_code ++ nl
  ++ tab ++ "Timestamp = 1793793600" ++ nl
  ++ nl.

(** Sizes of the batches committed along a trace, oldest first. *)
Definition flush_sizes (tr : list Event) : list nat :=
  flat_map (fun e => match e with
                     | EvFlush l => [length l]
                     | _ => []
                     end) (rev tr).

(** The events of a trace other than the commits of batches, most recent
    first. *)
Definition marks (tr : list Event) : list Event :=
  List.filter (fun e => match e with
                        | EvFlush _ => false
                        | _ => true
                        end) tr.

(** A detail file of 1001 valid entries, and a run on it in which the first
    batch of 1000 is flushed and checkpointed and the database cannot be
    reached for the last entry. *)
Definition long_file : string :=
  repeat_text 1001 (block (entry_lines "5926001234")).
Definition first_run : World * PyResult (Z * Z) :=
  Backfill.process_log_file env path
    (world long_file None (repeat false 3007 ++ [true; true; true])).
Definition interrupted : World := first_run.1.

(** A whole run of [backfill] on that file, in which likewise the database
    cannot be reached for the last entry. *)
Definition failed_backfill : World * PyResult unit :=
  Backfill.backfill env
    (world long_file None (repeat false 3013 ++ [true; true; true])).

Definition tail_record (msisdn : string) : Parser.RadiusDict :=
  Parser.mkRadiusDict (Some msisdn) None None None (Some 4039) (Some 14)
    (Some 1793793600) None.

End Samples.

(* ================================================================== *)
(** ** Vocabulary of the properties *)
(* ================================================================== *)

(** [preserves f m]: running [m] does not change the observation [f] of the
    world, whether [m] returns or raises. *)
Definition preserves {X A : Type} (f : Sys.World -> X) (m : Sys.M A) : Prop :=
  forall w, f (m w).1 = f w.

(** What the open transaction sees. *)
Definition view (w : Sys.World) : Store.DB := default (Sys.db w) (Sys.tx w).

(** The statements of an [executemany], one after the other, on a database;
    [None] when one of them is rejected. *)
Fixpoint run {A} (stmt : A -> Store.DB -> option Store.DB) (rows : list A)
    (d : Store.DB) : option Store.DB :=
  match rows with
  | [] => Some d
  | r :: rs => stmt r d ≫= run stmt rs
  end.

(** Both statements of [bulk_insert_records] applied to a database. *)
Definition both_applied (env : Backfill.Env) (now : Z)
    (records : list Backfill.RadiusRecord) (d : Store.DB) : option Store.DB :=
  run (Backfill.history_stmt env) records d
  ≫= run (Backfill.latest_stmt env now) records.

(** The constraint [unique_radius_entry] on a history table: no two rows
    at different positions agree on the key. *)
Definition unique_keys (t : list Store.HistoryRow) : Prop :=
  forall i j a b,
    t !! i = Some a -> t !! j = Some b -> Store.same_key a b = true -> i = j.

(** Does [p] hold of every character of the string? *)
Fixpoint string_forall (p : ascii -> bool) (s : string) : bool :=
  match s with
  | EmptyString => true
  | String c s' => p c && string_forall p s'
  end.

(** A hexadecimal digit, in either case. *)
Definition is_hex (c : ascii) : bool :=
  match Py.digit_value c with
  | Some d => d <? 16
  | None => false
  end.

(** In a dictionary under construction the station and the sector are
    either both missing or both set, and then in range. *)
Definition ids_in_range (record : Parser.RadiusDict) : Prop :=
  match Parser.enodeb_id record, Parser.cell_id record with
  | Some e, Some c => 0 <= e < 1048576 /\ 0 <= c < 256
  | None, None => True
  | _, _ => False
  end.

(** Is the text empty or ended by a newline, so that every line of it is
    complete? *)
Fixpoint complete_lines (s : string) : bool :=
  match s with
  | EmptyString => true
  | String c s' =>
      match s' with
      | EmptyString => Ascii.eqb c Parser.newline
      | _ => complete_lines s'
      end
  end.

(** A decimal digit. *)
Definition is_digit (c : ascii) : bool :=
  let n := N_of_ascii c in ((48 <=? n) && (n <=? 57))%N.

(** A character of a file name that the progress file can hold: neither
    white space nor the separator. *)
Definition plain_char (c : ascii) : bool :=
  negb (Py.isspace c) && negb (Ascii.eqb c Backfill.pipe).

(** An attribute of a detail file as FreeRADIUS writes it, the value in
    double quotes: [key = "value"]. *)
Definition attribute_line (key value : string) : string :=
  key ++ " = " ++ String Parser.quote (value ++ String Parser.quote EmptyString).

(* ================================================================== *)
(** * Properties *)
(* ================================================================== *)

(** ** Location decoding *)

(** [decode_eci] refuses every code with fewer than 8 characters left after
    the prefix is removed. *)
Lemma decode_eci_short (location_hex : string) :
  Py.len (Py.replace "0X" "" (Py.replace "0x" "" location_hex)) < 8 ->
  Decoder.decode_eci location_hex = None.
Proof.
  intros Hlen. unfold Decoder.decode_eci.
  destruct (Z.ltb_spec (Py.len (Py.replace "0X" "" (Py.replace "0x" "" location_hex))) 8);
    [reflexivity | lia].
Qed.

(** C4, as the specification states it, fails: the code of the scenario
    does not decode to station 4038. *)
Lemma scenario_not_4038 :
  Decoder.decode_enodeb_cellid Samples.scenario_code <> Returned (4038, 14).
Proof. vm_compute. discriminate. Qed.

(** C4 (amended): the last 8 hex characters of the scenario code are
    000fc70e, eci = 0x000fc70e = 1033998, and both decoders give station
    1033998 >> 8 = 4039 and sector 1033998 & 0xFF = 14. *)
Theorem scenario_decodes_to_4039 :
  Py.last_n 8 (Py.drop 2 Samples.scenario_code) = "000fc70e"
  /\ Py.int 16 "000fc70e" = Some 1033998
  /\ Z.shiftr 1033998 8 = 4039 /\ Z.land 1033998 255 = 14
  /\ Decoder.decode_enodeb_cellid Samples.scenario_code = Returned (4039, 14)
  /\ Decoder.decode_eci Samples.scenario_code
     = Some (Decoder.mkEciInfo 4039 14 1033998).
Proof. vm_compute. repeat split; reflexivity. Qed.

(** C9: [decode_enodeb_cellid] has no length check. On a code with three hex
    digits it returns a station and a sector, and on a code with none it
    raises ValueError, where [decode_eci] returns [None] for both. *)
Theorem decode_enodeb_cellid_short_input :
  Decoder.decode_enodeb_cellid "0xfc7" = Returned (15, 199)
  /\ Decoder.decode_enodeb_cellid "0x" = Raised "ValueError"
  /\ Decoder.decode_eci "0xfc7" = None
  /\ Decoder.decode_eci "0x" = None.
Proof. vm_compute. repeat split; reflexivity. Qed.

(** ** The progress file *)

Lemma load_lines_invalid (lines : list string) (line : string)
    (acc : gmap string Z) :
  In line lines -> Backfill.load_line line = None ->
  Backfill.load_lines lines acc = None.
Proof.
  revert acc. induction lines as [|l ls IH]; intros acc Hin Hbad; [destruct Hin|].
  simpl. destruct Hin as [->|Hin].
  - rewrite Hbad. reflexivity.
  - destruct (Backfill.load_line l) as [[[name p]|]|]; eauto.
Qed.

Lemma load_lines_skip (l1 l2 : list string) (line : string)
    (acc : gmap string Z) :
  Backfill.load_line line = Some None ->
  Backfill.load_lines (l1 ++ line :: l2) acc = Backfill.load_lines (l1 ++ l2) acc.
Proof.
  intros Hskip. revert acc. induction l1 as [|l ls IH]; intros acc; simpl.
  - rewrite Hskip. reflexivity.
  - destruct (Backfill.load_line l) as [[[name p]|]|]; auto.
Qed.

Lemma load_line_fields (line : string) :
  length (Py.split Backfill.pipe (Py.strip line)) <> 2%nat ->
  Backfill.load_line line = Some None.
Proof.
  unfold Backfill.load_line.
  destruct (Py.split Backfill.pipe (Py.strip line)) as [|a [|b [|c l]]];
    simpl; intros H; try reflexivity.
  exfalso. apply H. reflexivity.
Qed.

Lemma load_line_invalid (line name pos : string) :
  Py.split Backfill.pipe (Py.strip line) = [name; pos] ->
  Py.int 10 pos = None ->
  Backfill.load_line line = None.
Proof. unfold Backfill.load_line. intros -> ->. reflexivity. Qed.

(** [load] on a world whose progress file has the given content. *)
Lemma load_result (w : Sys.World) (content : string) :
  Sys.progress w = Some content ->
  (Backfill.load w).2
  = match Sys.faults w with
    | true :: _ => Returned ∅
    | _ => Returned (Backfill.load_content content)
    end.
Proof.
  intros Hc. unfold Backfill.load, Sys.bind, Sys.get, Sys.try_except,
    IO.fallible, Sys.ret. rewrite Hc.
  destruct (Sys.faults w) as [|[] fs]; reflexivity.
Qed.

Lemma load_lines_app l1 l2 :
  forall acc,
    Backfill.load_lines (l1 ++ l2) acc
    = Backfill.load_lines l1 acc ≫= Backfill.load_lines l2.
Proof.
  induction l1 as [|l ls IH]; intros acc; simpl; [reflexivity|].
  destruct (Backfill.load_line l) as [[[name p]|]|]; auto.
Qed.

(** A line gives an entry exactly when it splits into two fields of which
    the second is an integer literal. *)
Lemma load_line_entry (line name : string) (p : Z) :
  Backfill.load_line line = Some (Some (name, p))
  <-> exists pos, Py.split Backfill.pipe (Py.strip line) = [name; pos]
                  /\ Py.int 10 pos = Some p.
Proof.
  unfold Backfill.load_line. split.
  - destruct (Py.split Backfill.pipe (Py.strip line)) as [|a [|b [|c l]]];
      try discriminate.
    destruct (Py.int 10 b) as [q|] eqn:E; [|discriminate].
    intros [= -> ->]. eauto.
  - intros (pos & -> & ->). reflexivity.
Qed.

(** When every two-field line holds an integer, the lines give a mapping. *)
Lemma load_lines_valid (lines : list string) :
  (forall line name pos,
      In line lines ->
      Py.split Backfill.pipe (Py.strip line) = [name; pos] ->
      is_Some (Py.int 10 pos)) ->
  forall acc, is_Some (Backfill.load_lines lines acc).
Proof.
  induction lines as [|l ls IH]; intros Hok acc; simpl; [eauto|].
  assert (Hls : forall line name pos,
             In line ls ->
             Py.split Backfill.pipe (Py.strip line) = [name; pos] ->
             is_Some (Py.int 10 pos))
    by (intros line name pos Hin; apply Hok; right; exact Hin).
  destruct (Backfill.load_line l) as [[[name p]|]|] eqn:E; auto.
  exfalso. unfold Backfill.load_line in E.
  destruct (Py.split Backfill.pipe (Py.strip l)) as [|a [|b [|c l']]] eqn:Es;
    try discriminate.
  destruct (Hok l a b (or_introl eq_refl) Es) as [q Hq].
  rewrite Hq in E. discriminate.
Qed.

(** What is in the mapping comes from the start or from a line. *)
Lemma load_lines_sound (lines : list string) :
  forall acc m name p,
    Backfill.load_lines lines acc = Some m ->
    m !! name = Some p ->
    acc !! name = Some p
    \/ exists line, In line lines
                    /\ Backfill.load_line line = Some (Some (name, p)).
Proof.
  induction lines as [|l ls IH]; intros acc m name p; simpl.
  - intros [= <-] H. left. exact H.
  - destruct (Backfill.load_line l) as [[[n q]|]|] eqn:E; [| |discriminate].
    + intros Hm Hl. destruct (IH _ _ _ _ Hm Hl) as [H|(line & Hin & H)].
      * destruct (decide (n = name)) as [->|Hne].
        -- rewrite lookup_insert_eq in H. injection H as ->.
           right. exists l. auto.
        -- rewrite lookup_insert_ne in H by exact Hne. left. exact H.
      * right. exists line. auto.
    + intros Hm Hl. destruct (IH _ _ _ _ Hm Hl) as [H|(line & Hin & H)];
        [left; exact H|right; exists line; auto].
Qed.

(** An entry that no line changes is in the mapping. *)
Lemma load_lines_keeps (lines : list string) (name : string) :
  (forall line q, In line lines ->
                  Backfill.load_line line <> Some (Some (name, q))) ->
  forall acc m p,
    Backfill.load_lines lines acc = Some m ->
    acc !! name = Some p -> m !! name = Some p.
Proof.
  induction lines as [|l ls IH]; intros Hno acc m p; simpl.
  - intros [= <-] H. exact H.
  - assert (Hls : forall line q, In line ls ->
                    Backfill.load_line line <> Some (Some (name, q)))
      by (intros line q Hin; apply Hno; right; exact Hin).
    destruct (Backfill.load_line l) as [[[n q]|]|] eqn:E; [| |discriminate].
    + intros Hm Hacc. apply (IH Hls _ _ _ Hm).
      destruct (decide (n = name)) as [->|Hne].
      * exfalso. apply (Hno l q (or_introl eq_refl)). exact E.
      * rewrite lookup_insert_ne by exact Hne. exact Hacc.
    + intros Hm Hacc. apply (IH Hls _ _ _ Hm Hacc).
Qed.

(** C10: [ProgressTracker.load] is all-or-nothing on a malformed position.
    If some line of the progress file splits into exactly two fields and the
    second is not an integer literal, [load] returns the empty mapping,
    whatever the other lines hold; and a line that does not split into
    exactly two fields is skipped: [load] returns the same mapping on the
    file without that line. When the file can be opened and every line of
    two fields holds an integer literal, [load] returns the entries: the
    mapping holds, for every name, the position of the last line of two
    fields with that name, and nothing else. *)
Theorem load_all_or_nothing (w : Sys.World) (content : string) :
  Sys.progress w = Some content ->
  (forall line name pos,
      In line (Parser.readlines content) ->
      Py.split Backfill.pipe (Py.strip line) = [name; pos] ->
      Py.int 10 pos = None ->
      (Backfill.load w).2 = Returned ∅)
  /\ (forall w' content' l1 l2 line,
        Sys.progress w' = Some content' ->
        Sys.faults w' = Sys.faults w ->
        Parser.readlines content = (l1 ++ line :: l2)%list ->
        Parser.readlines content' = (l1 ++ l2)%list ->
        length (Py.split Backfill.pipe (Py.strip line)) <> 2%nat ->
        (Backfill.load w').2 = (Backfill.load w).2)
  /\ (hd false (Sys.faults w) = false ->
      (forall line name pos,
          In line (Parser.readlines content) ->
          Py.split Backfill.pipe (Py.strip line) = [name; pos] ->
          is_Some (Py.int 10 pos)) ->
      exists m,
        (Backfill.load w).2 = Returned m
        /\ (forall l1 line l2 name pos p,
              Parser.readlines content = (l1 ++ line :: l2)%list ->
              Py.split Backfill.pipe (Py.strip line) = [name; pos] ->
              Py.int 10 pos = Some p ->
              (forall line' pos',
                  In line' l2 ->
                  Py.split Backfill.pipe (Py.strip line') <> [name; pos']) ->
              m !! name = Some p)
        /\ (forall name p,
              m !! name = Some p ->
              exists line pos,
                In line (Parser.readlines content)
                /\ Py.split Backfill.pipe (Py.strip line) = [name; pos]
                /\ Py.int 10 pos = Some p)).
Proof.
  intros Hc. split; [|split].
  - intros line name pos Hin Hsplit Hint.
    rewrite (load_result w content Hc). unfold Backfill.load_content.
    rewrite (load_lines_invalid _ line); eauto using load_line_invalid.
    destruct (Sys.faults w) as [|[] fs]; reflexivity.
  - intros w' content' l1 l2 line Hc' Hf Hlines Hlines' Hlen.
    rewrite (load_result w content Hc), (load_result w' content' Hc'), Hf.
    unfold Backfill.load_content.
    rewrite Hlines, Hlines', load_lines_skip; auto using load_line_fields.
  - intros Hf Hok.
    destruct (load_lines_valid _ Hok ∅) as [m Hm].
    exists m. split; [|split].
    + rewrite (load_result w content Hc). unfold Backfill.load_content.
      rewrite Hm. destruct (Sys.faults w) as [|[] fs];
        [reflexivity|discriminate Hf|reflexivity].
    + intros l1 line l2 name pos p Hlines Hsplit Hint Hlast.
      rewrite Hlines, load_lines_app in Hm.
      destruct (Backfill.load_lines l1 ∅) as [m1|] eqn:E1; [|discriminate Hm].
      simpl in Hm.
      rewrite (proj2 (load_line_entry line name p)) in Hm by eauto.
      apply (load_lines_keeps l2 name) with (acc := <[name := p]> m1);
        [|exact Hm|apply lookup_insert_eq].
      intros line' q Hin H. apply load_line_entry in H.
      destruct H as (pos' & H & _). exact (Hlast line' pos' Hin H).
    + intros name p Hl.
      destruct (load_lines_sound _ _ _ _ _ Hm Hl) as [H|(line & Hin & H)];
        [rewrite lookup_empty in H; discriminate H|].
      apply load_line_entry in H. destruct H as (pos & Hs & Hi).
      exists line, pos. auto.
Qed.

Lemma load_all_or_nothing_witness :
  let bad := ("a|10" ++ Samples.nl ++ "b|ten" ++ Samples.nl)%string in
  let noisy := ("a|10" ++ Samples.nl ++ "note" ++ Samples.nl
                ++ "b|2|3" ++ Samples.nl ++ "a|20" ++ Samples.nl)%string in
  let clean := ("a|10" ++ Samples.nl ++ "b|2|3" ++ Samples.nl
                ++ "a|20" ++ Samples.nl)%string in
  (Backfill.load (Samples.world EmptyString (Some bad) [])).2 = Returned ∅
  /\ (Backfill.load (Samples.world EmptyString (Some clean) [])).2
     = (Backfill.load (Samples.world EmptyString (Some noisy) [])).2
  /\ exists m,
       (Backfill.load (Samples.world EmptyString (Some noisy) [])).2 = Returned m
       /\ m !! "a" = Some 20.
Proof.
  intros bad noisy clean. split; [|split].
  - apply (proj1 (load_all_or_nothing
                    (Samples.world EmptyString (Some bad) []) bad eq_refl)
             ("b|ten" ++ Samples.nl)%string "b" "ten").
    + vm_compute. right. left. reflexivity.
    + vm_compute. reflexivity.
    + vm_compute. reflexivity.
  - apply (proj1 (proj2 (load_all_or_nothing
                    (Samples.world EmptyString (Some noisy) []) noisy eq_refl))
             (Samples.world EmptyString (Some clean) []) clean
             [("a|10" ++ Samples.nl)%string]
             [("b|2|3" ++ Samples.nl)%string; ("a|20" ++ Samples.nl)%string]
             ("note" ++ Samples.nl)%string).
    + reflexivity.
    + reflexivity.
    + vm_compute. reflexivity.
    + vm_compute. reflexivity.
    + vm_compute. lia.
  - destruct (proj2 (proj2 (load_all_or_nothing
                    (Samples.world EmptyString (Some noisy) []) noisy eq_refl)))
      as (m & Hm & Hin & _).
    + reflexivity.
    + intros line name pos Hin Hs.
      vm_compute in Hin.
      destruct Hin as [<-|[<-|[<-|[<-|[]]]]]; vm_compute in Hs;
        try discriminate Hs; injection Hs as <- <-; vm_compute; eauto.
    + exists m. split; [exact Hm|].
      apply (Hin [("a|10" ++ Samples.nl)%string; ("note" ++ Samples.nl)%string;
                  ("b|2|3" ++ Samples.nl)%string]
               ("a|20" ++ Samples.nl)%string [] "a" "20" 20).
      * vm_compute. reflexivity.
      * vm_compute. reflexivity.
      * vm_compute. reflexivity.
      * intros line' pos' [].
Defined.

(** ** Building records *)

(** C8, as the specification states it, fails: on an entry that
    [build_record] rejects, the loop of [process_log_file] does not count
    the entry as processed. *)
Lemma rejected_entry_not_counted :
  ~ (forall env log_file st n lines w st',
        Backfill.build_record env (Sys.clock w) (Parser.parse_entry lines) = None ->
        (Backfill.loop_body env log_file st n lines w).2 = Returned st' ->
        Backfill.processed st' = Backfill.processed st + 1
        /\ Backfill.inserted st' = Backfill.inserted st).
Proof.
  intros H.
  specialize (H Samples.env Samples.path (Backfill.mkLoopState [] 0 0) 0
                Samples.rejected_lines
                (Samples.world EmptyString None [])
                (Backfill.mkLoopState [] 0 0)).
  destruct H as [H _]; [vm_compute; reflexivity | vm_compute; reflexivity |].
  discriminate H.
Qed.

(** C8 (amended): when the subscriber id, the location code or the raw
    timestamp of an entry is empty after trimming, [build_record] returns
    [None]; and for every entry that [build_record] rejects the loop of
    [process_log_file] leaves the batch and both counters, "processed" and
    "inserted", as they were. *)
Theorem rejected_entry_changes_nothing (env : Backfill.Env) :
  (forall now entry,
      Py.strip (Backfill.get_str entry "Calling-Station-Id") = EmptyString
      \/ Py.strip (Backfill.get_str entry "3GPP-User-Location-Info") = EmptyString
      \/ Py.strip (Backfill.get_str entry "Event-Timestamp") = EmptyString ->
      Backfill.build_record env now entry = None)
  /\ (forall log_file st n lines w,
        Backfill.build_record env (Sys.clock w) (Parser.parse_entry lines) = None ->
        Backfill.loop_body env log_file st n lines w = (w, Returned st)).
Proof.
  split.
  - intros now entry H. unfold Backfill.build_record.
    destruct H as [-> | [-> | ->]]; simpl;
      rewrite ?orb_true_r; reflexivity.
  - intros log_file st n lines w H.
    unfold Backfill.loop_body, Sys.bind, Sys.get. rewrite H. reflexivity.
Qed.

Lemma rejected_entry_changes_nothing_witness :
  Backfill.build_record Samples.env Samples.now
    (Parser.parse_entry Samples.rejected_lines) = None
  /\ Backfill.loop_body Samples.env Samples.path (Backfill.mkLoopState [] 0 0)
       0 Samples.rejected_lines (Samples.world EmptyString None [])
     = (Samples.world EmptyString None [], Returned (Backfill.mkLoopState [] 0 0)).
Proof.
  split.
  - apply (proj1 (rejected_entry_changes_nothing Samples.env)).
    right. left. vm_compute. reflexivity.
  - apply (proj2 (rejected_entry_changes_nothing Samples.env)).
    vm_compute. reflexivity.
Defined.

(** ** The latest-state upsert *)

(** C3, as the specification states it, fails for radius_watcher: an
    incoming record older than the stored one changes nothing, and the tag
    'backfill' of the stored row stays. *)
Lemma watcher_upsert_keeps_newer_row :
  let t : gmap string Store.LatestRow := {[ "5926001234" := Samples.stored_row ]} in
  Store.upsert_watcher 300 "5926001234" "738010000000002" "4018" "13" 100 t
    !! "5926001234" = Some Samples.stored_row
  /\ Store.l_source Samples.stored_row = Some "backfill"
  /\ Store.l_enodeb_id Samples.stored_row <> Some "4018".
Proof.
  cbv zeta. unfold Store.upsert_watcher.
  rewrite lookup_singleton_eq. simpl.
  rewrite lookup_singleton_eq. repeat split. discriminate.
Qed.

(** C3 (amended): on a stored row, the six upserts of the source do this.
    That of backfill's [bulk_insert_records] replaces the row by the
    incoming values, with [source] 'backfill' and [updated_at] refreshed,
    whatever row was stored and whichever of the two event times is older;
    that of [parse_radius_logs_debug.insert_record] does the same with
    [source] 'debug'. Those of [trace_incremental.bulk_insert_records] and
    of [cell_mapper.insert_record] replace every column but
    [device_model], which is kept, with [source] 'incremental' and 'watcher'
    and [updated_at] refreshed. That of
    [radius_parser.upsert_latest_traces] replaces [imsi], [enodeb_id],
    [cell_id] and [timestamp], sets [source] to 'radius' and refreshes
    [updated_at], keeping [tower_name], [lat], [lon] and [device_model].
    These five are unconditional. The upsert of radius_watcher's
    [insert_records] replaces [imsi], [enodeb_id], [cell_id], [timestamp]
    and sets [source] to 'radius' only when the stored timestamp is
    strictly older than the incoming one, keeping the other columns and
    [updated_at]; otherwise it leaves the table as it is. None of them
    touches the row of another subscriber. *)
Theorem latest_upsert_policies (now : Z) (m imsi enodeb cell : string)
    (ts : Z) (t : gmap string Store.LatestRow) :
  (forall env r d d',
      Backfill.latest_stmt env now r d = Some d' ->
      exists ts',
        Backfill.timestamptz_in env (Backfill.timestamp r) = Some ts'
        /\ Store.latest_traces d' !! Backfill.msisdn r
           = Some (Store.mkLatestRow (Some (Backfill.imsi r))
                     (Some (Backfill.enodeb_id r)) (Some (Backfill.cell_id r))
                     (Some (Backfill.tower_name r)) (Some (Backfill.lat r))
                     (Some (Backfill.lon r)) (Some ts') (Some "backfill")
                     (Some (Backfill.device_model r)) now))
  /\ (forall old stored,
        t !! m = Some old -> Store.l_timestamp old = Some stored ->
        (stored < ts ->
         Store.upsert_watcher now m imsi enodeb cell ts t !! m
         = Some (Store.mkLatestRow (Some imsi) (Some enodeb) (Some cell)
                   (Store.l_tower_name old) (Store.l_lat old) (Store.l_lon old)
                   (Some ts) (Some "radius") (Store.l_device_model old)
                   (Store.l_updated_at old)))
        /\ (ts <= stored ->
            Store.upsert_watcher now m imsi enodeb cell ts t = t))
  /\ (forall tower lat lon model,
        Store.upsert_debug now m imsi enodeb cell tower lat lon ts model t !! m
        = Some (Store.mkLatestRow (Some imsi) (Some enodeb) (Some cell)
                  (Some tower) (Some lat) (Some lon) (Some ts) (Some "debug")
                  (Some model) now))
  /\ (forall tower lat lon old,
        t !! m = Some old ->
        Store.upsert_incremental now m imsi enodeb cell tower lat lon ts t !! m
        = Some (Store.mkLatestRow (Some imsi) (Some enodeb) (Some cell)
                  (Some tower) (Some lat) (Some lon) (Some ts)
                  (Some "incremental") (Store.l_device_model old) now)
        /\ Store.upsert_cell_mapper now m imsi enodeb cell tower lat lon ts t !! m
           = Some (Store.mkLatestRow (Some imsi) (Some enodeb) (Some cell)
                     (Some tower) (Some lat) (Some lon) (Some ts)
                     (Some "watcher") (Store.l_device_model old) now))
  /\ (forall old,
        t !! m = Some old ->
        Store.upsert_parser now m imsi enodeb cell ts t !! m
        = Some (Store.mkLatestRow (Some imsi) (Some enodeb) (Some cell)
                  (Store.l_tower_name old) (Store.l_lat old) (Store.l_lon old)
                  (Some ts) (Some "radius") (Store.l_device_model old) now))
  /\ (forall k tower lat lon model,
        k <> m ->
        Store.upsert_backfill now m imsi enodeb cell tower lat lon ts model t !! k
        = t !! k
        /\ Store.upsert_debug now m imsi enodeb cell tower lat lon ts model t !! k
           = t !! k
        /\ Store.upsert_incremental now m imsi enodeb cell tower lat lon ts t !! k
           = t !! k
        /\ Store.upsert_cell_mapper now m imsi enodeb cell tower lat lon ts t !! k
           = t !! k
        /\ Store.upsert_parser now m imsi enodeb cell ts t !! k = t !! k
        /\ Store.upsert_watcher now m imsi enodeb cell ts t !! k = t !! k).
Proof.
  split; [|split; [|split; [|split; [|split]]]].
  - intros env r d d' H. unfold Backfill.latest_stmt in H.
    destruct (Backfill.timestamptz_in env (Backfill.timestamp r)) as [ts'|];
      [|discriminate H].
    simpl in H.
    destruct (_ && _) in H; [|discriminate H].
    injection H as <-. exists ts'. split; [reflexivity|].
    unfold Store.set_latest_traces, Store.upsert_backfill. simpl.
    apply lookup_insert_eq.
  - intros old stored Hold Hts. unfold Store.upsert_watcher.
    rewrite Hold, Hts. split; intros Hcmp.
    + destruct (Z.ltb_spec stored ts); [|lia]. apply lookup_insert_eq.
    + destruct (Z.ltb_spec stored ts); [lia|]. reflexivity.
  - intros tower lat lon model. apply lookup_insert_eq.
  - intros tower lat lon old Hold.
    unfold Store.upsert_incremental, Store.upsert_cell_mapper,
      Store.upsert_tagged.
    rewrite !lookup_insert_eq, Hold. split; reflexivity.
  - intros old Hold. unfold Store.upsert_parser. rewrite Hold.
    apply lookup_insert_eq.
  - intros k tower lat lon model Hk.
    assert (Hmk : m <> k) by congruence.
    unfold Store.upsert_backfill, Store.upsert_debug, Store.upsert_incremental,
      Store.upsert_cell_mapper, Store.upsert_tagged, Store.upsert_parser,
      Store.upsert_watcher.
    repeat split; try (apply lookup_insert_ne; exact Hmk).
    + destruct (t !! m); apply lookup_insert_ne; exact Hmk.
    + destruct (t !! m) as [old|]; [|apply lookup_insert_ne; exact Hmk].
      destruct (Store.l_timestamp old) as [stored|]; [|reflexivity].
      destruct (stored <? ts); [apply lookup_insert_ne; exact Hmk|reflexivity].
Qed.

Lemma latest_upsert_policies_witness :
  let t : gmap string Store.LatestRow := {[ "5926001234" := Samples.stored_row ]} in
  Store.upsert_watcher 300 "5926001234" "738010000000002" "4018" "13" 100 t = t
  /\ (exists ts',
        Store.latest_traces
          (Store.set_latest_traces
             (Store.upsert_backfill 300 "5926001234" "738010000000002" "4018"
                "13" "Tower" 0%float 0%float 1793793600 "Unknown" t)
             Store.empty_db) !! "5926001234"
        = Some (Store.mkLatestRow (Some "738010000000002") (Some "4018")
                  (Some "13") (Some "Tower") (Some 0%float) (Some 0%float)
                  (Some ts') (Some "backfill") (Some "Unknown") 300))
  /\ Store.upsert_incremental 300 "5926001234" "738010000000002" "4018" "13"
       "Mast" 1%float 2%float 100 t !! "5926001234"
     = Some (Store.mkLatestRow (Some "738010000000002") (Some "4018")
               (Some "13") (Some "Mast") (Some 1%float) (Some 2%float)
               (Some 100) (Some "incremental")
               (Store.l_device_model Samples.stored_row) 300)
  /\ Store.upsert_parser 300 "5926001234" "738010000000002" "4018" "13" 100 t
       !! "5926001234"
     = Some (Store.mkLatestRow (Some "738010000000002") (Some "4018")
               (Some "13") (Store.l_tower_name Samples.stored_row)
               (Store.l_lat Samples.stored_row) (Store.l_lon Samples.stored_row)
               (Some 100) (Some "radius")
               (Store.l_device_model Samples.stored_row) 300).
Proof.
  intros t.
  pose proof (latest_upsert_policies 300 "5926001234" "738010000000002"
                "4018" "13" 100 t) as (Hb & Hw & _ & Hi & Hp & _).
  split; [|split; [|split]].
  - apply (Hw Samples.stored_row 200).
    + apply lookup_singleton_eq.
    + reflexivity.
    + lia.
  - destruct (Hb Samples.env
                (Backfill.mkRadiusRecord "5926001234" "738010000000002" "4018"
                   "13" "Tower" 0%float 0%float "Nov 04 2026 08:00:00 GMT-04"
                   "Unknown")
                (Store.set_latest_traces t Store.empty_db)
                (Store.set_latest_traces
                   (Store.upsert_backfill 300 "5926001234" "738010000000002"
                      "4018" "13" "Tower" 0%float 0%float 1793793600 "Unknown" t)
                   Store.empty_db) eq_refl) as [ts' [_ H]].
    exists ts'. exact H.
  - apply (Hi "Mast" 1%float 2%float Samples.stored_row).
    apply lookup_singleton_eq.
  - apply (Hp Samples.stored_row). apply lookup_singleton_eq.
Defined.

(** ** Frame properties: what a computation leaves alone *)

Section Combinators.
Context {X : Type} (f : Sys.World -> X).

Lemma preserves_ret {A} (a : A) : preserves f (Sys.ret a).
Proof. intros w. reflexivity. Qed.

Lemma preserves_raise {A} (e : string) : preserves f (@Sys.raise A e).
Proof. intros w. reflexivity. Qed.

Lemma preserves_get {Y} (g : Sys.World -> Y) : preserves f (Sys.get g).
Proof. intros w. reflexivity. Qed.

Lemma preserves_modify (g : Sys.World -> Sys.World) :
  (forall w, f (g w) = f w) -> preserves f (Sys.modify g).
Proof. intros H w. apply H. Qed.

Lemma preserves_bind {A B} (m : Sys.M A) (k : A -> Sys.M B) :
  preserves f m -> (forall a, preserves f (k a)) -> preserves f (Sys.bind m k).
Proof.
  intros Hm Hk w. unfold Sys.bind. specialize (Hm w).
  destruct (m w) as [w' [a|e]]; simpl in *; [|exact Hm].
  rewrite (Hk a w'). exact Hm.
Qed.

Lemma preserves_try_except {A} (m : Sys.M A) (h : string -> Sys.M A) :
  preserves f m -> (forall e, preserves f (h e)) ->
  preserves f (Sys.try_except m h).
Proof.
  intros Hm Hh w. unfold Sys.try_except. specialize (Hm w).
  destruct (m w) as [w' [a|e]]; simpl in *; [exact Hm|].
  rewrite (Hh e w'). exact Hm.
Qed.

End Combinators.

Ltac frame_step :=
  lazymatch goal with
  | |- preserves _ (Sys.bind _ _) => apply preserves_bind; [|intros ?]
  | |- preserves _ (Sys.try_except _ _) => apply preserves_try_except; [|intros ?]
  | |- preserves _ (Sys.ret _) => apply preserves_ret
  | |- preserves _ (Sys.raise _) => apply preserves_raise
  | |- preserves _ (Sys.get _) => apply preserves_get
  | |- preserves _ (Sys.modify _) => apply preserves_modify; intros ?
  | |- preserves _ (match ?x with _ => _ end) => destruct x
  end.

Create HintDb frame.

Ltac frame := cbv zeta; repeat (first [frame_step | solve [eauto with frame]]).

Section Frame.
Context {X : Type} (f : Sys.World -> X).
Hypothesis Hfaults : forall x w, f (Sys.set_faults x w) = f w.
Hypothesis Htx : forall x w, f (Sys.set_tx x w) = f w.
Hypothesis Hemit : forall e w, f (Sys.emit e w) = f w.

Lemma preserves_fallible what : preserves f (IO.fallible what).
Proof.
  intros w. unfold IO.fallible.
  destruct (Sys.faults w) as [|b fs]; [reflexivity|apply Hfaults].
Qed.
Hint Resolve preserves_fallible : frame.

Lemma preserves_execute stmt : preserves f (IO.execute stmt).
Proof.
  unfold IO.execute. frame. intros w.
  destruct (stmt _); [apply Htx|reflexivity].
Qed.
Hint Resolve preserves_execute : frame.

Lemma preserves_executemany {A} (stmt : A -> _) rows :
  preserves f (IO.executemany stmt rows).
Proof. induction rows; simpl; frame. Qed.
Hint Resolve preserves_executemany : frame.

Lemma preserves_rollback : preserves f IO.rollback.
Proof. unfold IO.rollback. frame. Qed.
Hint Resolve preserves_rollback : frame.

Lemma preserves_connect_retry n : preserves f (Backfill.connect_retry n).
Proof. induction n as [|k IH]; simpl; frame. Qed.

Lemma preserves_get_db_connection : preserves f Backfill.get_db_connection.
Proof. apply preserves_connect_retry. Qed.
Hint Resolve preserves_get_db_connection : frame.

Lemma preserves_load : preserves f Backfill.load.
Proof. unfold Backfill.load. frame. Qed.
Hint Resolve preserves_load : frame.

Lemma preserves_open_log path : preserves f (Backfill.open_log path).
Proof. unfold Backfill.open_log. frame. Qed.
Hint Resolve preserves_open_log : frame.

Hypothesis Hdb : forall x w, f (Sys.set_db x w) = f w.

Lemma preserves_commit : preserves f IO.commit.
Proof. unfold IO.commit. frame. rewrite Htx. apply Hdb. Qed.
Hint Resolve preserves_commit : frame.

Lemma preserves_with_conn {A} connect (body : Sys.M A) :
  preserves f connect -> preserves f body ->
  preserves f (IO.with_conn connect body).
Proof.
  intros Hc Hb. unfold IO.with_conn. frame.
  intros w. specialize (Hb w).
  destruct (body w) as [w' [r|e]]; simpl in *.
  - assert (H : preserves f (Sys.bind IO.commit (fun _ => Sys.ret r))) by frame.
    rewrite (H w'). exact Hb.
  - rewrite Htx. exact Hb.
Qed.

Lemma preserves_bulk_insert_records env records :
  preserves f (Backfill.bulk_insert_records env records).
Proof.
  unfold Backfill.bulk_insert_records. destruct records; [frame|].
  frame. apply preserves_with_conn; frame.
Qed.
Hint Resolve preserves_bulk_insert_records : frame.

Lemma preserves_record_completion log_file st runtime :
  preserves f (Backfill.record_completion log_file st runtime).
Proof.
  unfold Backfill.record_completion. apply preserves_with_conn; frame.
Qed.
Hint Resolve preserves_record_completion : frame.

Lemma preserves_perform_maintenance : preserves f Backfill.perform_maintenance.
Proof.
  unfold Backfill.perform_maintenance. frame.
  apply preserves_with_conn; frame.
Qed.
Hint Resolve preserves_perform_maintenance : frame.

Lemma preserves_create_tables :
  preserves f (IO.with_conn Backfill.get_db_connection
                 Backfill.create_tables_if_not_exists).
Proof.
  apply preserves_with_conn; [frame|].
  unfold Backfill.create_tables_if_not_exists. frame.
Qed.
Hint Resolve preserves_create_tables : frame.

Hypothesis Hprogress : forall x w, f (Sys.set_progress x w) = f w.

Lemma preserves_save filename position :
  preserves f (Backfill.save filename position).
Proof. unfold Backfill.save. frame. rewrite Hemit. apply Hprogress. Qed.
Hint Resolve preserves_save : frame.

Lemma preserves_clear : preserves f Backfill.clear.
Proof. unfold Backfill.clear. frame. Qed.

Lemma preserves_loop_body env log_file st n lines :
  preserves f (Backfill.loop_body env log_file st n lines).
Proof. unfold Backfill.loop_body. frame. Qed.
Hint Resolve preserves_loop_body : frame.

Lemma preserves_loop env log_file entries n st :
  preserves f (Backfill.loop env log_file entries n st).
Proof.
  revert n st. induction entries as [|e es IH]; intros n st; simpl; frame.
Qed.
Hint Resolve preserves_loop : frame.

Lemma preserves_ingest env log_file resume_pos :
  preserves f (Backfill.ingest env log_file resume_pos).
Proof. unfold Backfill.ingest. frame. Qed.
Hint Resolve preserves_ingest : frame.

Lemma preserves_get_all_log_files env :
  preserves f (Backfill.get_all_log_files env).
Proof. unfold Backfill.get_all_log_files. frame. Qed.
Hint Resolve preserves_get_all_log_files : frame.

Hypothesis Hradacct : forall x w, f (Sys.set_radacct x w) = f w.

Lemma preserves_unlink_log path : preserves f (Backfill.unlink_log path).
Proof. unfold Backfill.unlink_log. frame. rewrite Hemit. apply Hradacct. Qed.
Hint Resolve preserves_unlink_log : frame.

Lemma preserves_process_log_file env log_file :
  preserves f (Backfill.process_log_file env log_file).
Proof. unfold Backfill.process_log_file. frame. Qed.
Hint Resolve preserves_process_log_file : frame.

Lemma preserves_process_files env files totals :
  preserves f (Backfill.process_files env files totals).
Proof.
  revert totals. induction files as [|x xs IH]; intros totals; simpl; frame.
Qed.
Hint Resolve preserves_process_files : frame.

Lemma preserves_process_sources env all_logs totals :
  preserves f (Backfill.process_sources env all_logs totals).
Proof.
  revert totals.
  induction all_logs as [|[ip files] xs IH]; intros totals; simpl; frame.
Qed.
Hint Resolve preserves_process_sources : frame.

Lemma preserves_backfill_body env : preserves f (Backfill.backfill_body env).
Proof. unfold Backfill.backfill_body. frame. Qed.
End Frame.

(** ** Audit before deletion *)

Lemma insert_audit_lookup (filename : string) (row : Store.AuditRow)
    (t : gmap string Store.AuditRow) :
  is_Some (Store.insert_audit filename row t !! filename).
Proof.
  unfold Store.insert_audit.
  destruct (t !! filename) as [old|] eqn:E.
  - rewrite E. eauto.
  - rewrite lookup_insert_eq. eauto.
Qed.

(** When the audit block returns, its transaction has been committed: the
    table holds a row for the file and the commit is the last event. *)
Lemma record_completion_returned log_file st runtime w w' :
  Backfill.record_completion log_file st runtime w = (w', Returned tt) ->
  is_Some (Store.backfill_audit (Sys.db w') !! log_file)
  /\ Sys.trace w' = Sys.EvAudit log_file :: Sys.trace w.
Proof.
  unfold Backfill.record_completion, IO.with_conn, Sys.bind.
  pose proof (preserves_get_db_connection Sys.trace
                (fun _ _ => eq_refl) w) as Htr.
  destruct (Backfill.get_db_connection w) as [w1 [[]|e]]; [|discriminate].
  simpl in Htr. rewrite <- Htr. clear Htr.
  destruct w1 as [d t ra pr lk ck fs tr].
  unfold Sys.modify, Sys.get, IO.execute, IO.commit, IO.fallible, Sys.bind,
    Sys.ret, Backfill.audit_stmt; simpl.
  destruct fs as [|[] [|[] [|[] fs]]]; simpl; intros H;
    try discriminate H; injection H as <-; simpl;
    (split; [apply insert_audit_lookup | reflexivity]).
Qed.

Lemma process_log_file_cases env log_file w w' r :
  Backfill.process_log_file env log_file w = (w', r) ->
  Sys.radacct w' = Sys.radacct w
  \/ (exists counts rest,
        r = Returned counts
        /\ Sys.trace w' = Sys.EvUnlink log_file :: Sys.EvAudit log_file :: rest
        /\ is_Some (Store.backfill_audit (Sys.db w') !! log_file)
        /\ Sys.radacct w'
           = IO.remove_path Backfill.Config.LOG_DIR log_file (Sys.radacct w)).
Proof.
  unfold Backfill.process_log_file, Sys.bind at 1.
  pose proof (preserves_load Sys.radacct (fun _ _ => eq_refl) w) as H1.
  destruct (Backfill.load w) as [w1 [pm|e1]]; simpl in H1;
    [|intros [= <- <-]; left; exact H1].
  unfold Sys.bind at 1, Sys.get at 1, Sys.try_except, Sys.bind at 1.
  pose proof (preserves_ingest Sys.radacct (fun _ _ => eq_refl)
                (fun _ _ => eq_refl) (fun _ _ => eq_refl)
                (fun _ _ => eq_refl) (fun _ _ => eq_refl)
                env log_file (default 0 (pm !! log_file)) w1) as H2.
  destruct (Backfill.ingest env log_file _ w1) as [w2 [st|e2]];
    simpl in H2; [|intros [= <- <-]; left; congruence].
  unfold Sys.bind at 1, Sys.get at 1, Sys.bind at 1.
  pose proof (preserves_record_completion Sys.radacct (fun _ _ => eq_refl)
                (fun _ _ => eq_refl) (fun _ _ => eq_refl)
                (fun _ _ => eq_refl)
                log_file st (Sys.clock w2 - Sys.clock w1) w2) as H3.
  destruct (Backfill.record_completion log_file st _ w2) as [w3 [[]|e3]] eqn:E3;
    simpl in H3; [|intros [= <- <-]; left; congruence].
  apply record_completion_returned in E3. destruct E3 as [Haudit Htrace].
  destruct w3 as [d t ra pr lk ck fs tr]. simpl in *.
  unfold Backfill.unlink_log, IO.fallible, Sys.bind, Sys.get, Sys.modify,
    Sys.ret, Sys.raise; simpl.
  destruct fs as [|[] fs]; simpl;
    try (intros [= <- <-]; left; simpl; congruence);
    (destruct (IO.lookup_path Backfill.Config.LOG_DIR log_file ra);
     simpl; intros [= <- <-]; [right | left; simpl; congruence]);
    (eexists; eexists; repeat split; simpl;
     [rewrite Htrace; reflexivity | exact Haudit | congruence]).
Qed.

(** The second case of [process_log_file_cases] does occur: a run without
    failures flushes, commits the audit row and then removes the file. *)
Example process_log_file_deletes_after_audit :
  let run := Backfill.process_log_file Samples.env Samples.path
               (Samples.world (Samples.block (Samples.entry_lines "5926001234"))
                  None []) in
  run.2 = Returned (1, 1)
  /\ Sys.trace run.1
     = [Sys.EvUnlink Samples.path; Sys.EvAudit Samples.path;
        Sys.EvFlush ["5926001234"]]
  /\ IO.lookup_path Backfill.Config.LOG_DIR Samples.path (Sys.radacct run.1)
     = None.
Proof.
  cbv zeta. split; [vm_compute; reflexivity|].
  split; vm_compute; reflexivity.
Qed.

(** C7: in every execution of [process_log_file] -- whatever the file holds
    and whichever external calls fail -- either the source directories are
    left as they were, or the call returned normally, the audit row of the
    file is in the committed table, and the removal of the file is the last
    event, directly preceded by the commit of the audit insert. In
    particular the file is retained whenever the call raises. *)
Theorem unlink_only_after_audit (env : Backfill.Env) (log_file : string)
    (w : Sys.World) :
  let w' := (Backfill.process_log_file env log_file w).1 in
  let r := (Backfill.process_log_file env log_file w).2 in
  (Sys.radacct w' = Sys.radacct w
   \/ (exists counts rest,
         r = Returned counts
         /\ Sys.trace w' = Sys.EvUnlink log_file :: Sys.EvAudit log_file :: rest
         /\ is_Some (Store.backfill_audit (Sys.db w') !! log_file)
         /\ Sys.radacct w'
            = IO.remove_path Backfill.Config.LOG_DIR log_file (Sys.radacct w)))
  /\ (forall e, r = Raised e -> Sys.radacct w' = Sys.radacct w).
Proof.
  cbv zeta.
  destruct (Backfill.process_log_file env log_file w) as [w' r] eqn:E.
  simpl. pose proof (process_log_file_cases _ _ _ _ _ E) as Hmain.
  split; [exact Hmain|].
  intros e He. destruct Hmain as [H|(counts & rest & Hr & _)]; [exact H|].
  rewrite Hr in He. discriminate He.
Qed.

(** ** Clearing the checkpoints *)

Lemma backfill_body_keeps_lock env w :
  Sys.lock (Sys.try_except (Backfill.backfill_body env)
              (fun _ => Sys.ret tt) w).1 = Sys.lock w.
Proof.
  assert (H : preserves Sys.lock
                (Sys.try_except (Backfill.backfill_body env)
                   (fun _ => Sys.ret tt))).
  { apply preserves_try_except; [|intros e; apply preserves_ret].
    apply preserves_backfill_body; intros; reflexivity. }
  apply H.
Qed.

(** The [finally] clause on a world that holds the lock: either the removal
    of the lock file raises and nothing else happens, or the lock is
    removed and [clear] is called. *)
Lemma cleanup_cases w :
  Sys.lock w = true ->
  (Sys.lock (Backfill.cleanup w).1 = true
   /\ Sys.trace (Backfill.cleanup w).1 = Sys.trace w
   /\ Sys.progress (Backfill.cleanup w).1 = Sys.progress w)
  \/ (Sys.lock (Backfill.cleanup w).1 = false
      /\ Sys.trace (Backfill.cleanup w).1 = Sys.EvClear :: Sys.trace w).
Proof.
  intros Hlock. destruct w as [d t ra pr lk ck fs tr]. simpl in Hlock. subst lk.
  unfold Backfill.cleanup, Backfill.unlink_lock, Backfill.clear, Sys.try_except,
    Sys.bind, IO.fallible, Sys.get, Sys.modify, Sys.ret, Sys.raise; simpl.
  destruct fs as [|[] fs]; simpl; auto;
    destruct pr as [c|]; simpl; auto;
    destruct fs as [|[] fs]; simpl; auto.
Qed.

Lemma backfill_locked_cases env w w' r :
  Sys.lock w = false -> hd false (Sys.faults w) = false ->
  Backfill.backfill env w = (w', r) ->
  Sys.lock w' = true
  \/ exists rest, Sys.trace w' = Sys.EvClear :: rest.
Proof.
  intros Hl Hf.
  unfold Backfill.backfill, Sys.bind at 1, Sys.get at 1. rewrite Hl.
  unfold Sys.bind at 1, Sys.try_except at 1, Sys.bind at 1, IO.fallible.
  set (w1 := match Sys.faults w with
             | [] => w
             | _ :: fs => Sys.set_faults fs w
             end).
  assert (E : match Sys.faults w with
              | [] => (w, Returned tt)
              | b :: fs => (Sys.set_faults fs w,
                            if b then Raised "OSError" else Returned tt)
              end = (w1, Returned tt)).
  { unfold w1. destruct (Sys.faults w) as [|[] fs]; simpl in *;
      [reflexivity|discriminate Hf|reflexivity]. }
  rewrite E. unfold Sys.bind, Sys.modify, Sys.ret, Sys.finally.
  pose proof (backfill_body_keeps_lock env (Sys.set_lock true w1)) as Hb.
  destruct (Sys.try_except (Backfill.backfill_body env) _ (Sys.set_lock true w1))
    as [w2 r2]. simpl in Hb.
  destruct (cleanup_cases w2 Hb) as [(Hk & _ & _)|(Hk & Ht)];
    destruct (Backfill.cleanup w2) as [w3 [[]|e]]; simpl in *;
    intros [= <- <-]; eauto.
Qed.

(** Once [backfill] holds the lock, its [finally] clause calls
    [ProgressTracker.clear] on every path on which it removes the lock
    again -- whether the files were processed, a file failed, the run
    raised or no file was found; and [backfill] returns without touching
    anything when the lock file exists or cannot be created. *)
Theorem clear_runs_in_finally (env : Backfill.Env) (w : Sys.World) :
  (Sys.lock w = true -> Backfill.backfill env w = (w, Returned tt))
  /\ (forall fs, Sys.lock w = false -> Sys.faults w = true :: fs ->
        Backfill.backfill env w = (Sys.set_faults fs w, Returned tt))
  /\ (Sys.lock w = false -> hd false (Sys.faults w) = false ->
      Sys.lock (Backfill.backfill env w).1 = false ->
      exists rest, Sys.trace (Backfill.backfill env w).1 = Sys.EvClear :: rest).
Proof.
  split; [|split].
  - intros Hl. unfold Backfill.backfill, Sys.bind, Sys.get. rewrite Hl.
    reflexivity.
  - intros fs Hl Hf. unfold Backfill.backfill, Sys.bind, Sys.get,
      Sys.try_except, IO.fallible. rewrite Hl, Hf. reflexivity.
  - intros Hl Hf Hl'.
    destruct (Backfill.backfill env w) as [w' r] eqn:E. simpl in *.
    destruct (backfill_locked_cases _ _ _ _ Hl Hf E) as [H|H];
      [congruence|exact H].
Qed.

Lemma clear_runs_in_finally_witness :
  let w := Samples.world (Samples.block (Samples.entry_lines "5926001234"))
             (Some ("other-file|1000" ++ Samples.nl)%string)
             (repeat false 10 ++ [true; true; true]) in
  exists rest,
    Sys.trace (Backfill.backfill Samples.env w).1 = Sys.EvClear :: rest.
Proof.
  intros w.
  apply (proj2 (proj2 (clear_runs_in_finally Samples.env w))).
  - reflexivity.
  - reflexivity.
  - vm_compute. reflexivity.
Defined.

(** C6: [backfill] clears the checkpoints in its [finally] clause, also
    after a run that failed. On a detail file of 1001 entries the first
    batch of 1000 is committed and the checkpoint 1000 is saved; then the
    database cannot be reached for the last entry and the file fails.
    [backfill] returns normally; the file is still in place and has no
    audit row, and the last thing the run did was to call [clear]: the
    progress file is gone, and [load] gives the next run no position for
    the file. *)
Theorem failed_run_clears_checkpoints :
  let run := Samples.failed_backfill in
  run.2 = Returned tt
  /\ Samples.flush_sizes (Sys.trace run.1) = [1000%nat]
  /\ Samples.marks (Sys.trace run.1)
     = [Sys.EvClear; Sys.EvCheckpoint Samples.path 1000]
  /\ match IO.lookup_path Backfill.Config.LOG_DIR Samples.path
             (Sys.radacct run.1) with
     | Some content => String.eqb content Samples.long_file
     | None => false
     end = true
  /\ Store.backfill_audit (Sys.db run.1) !! Samples.path = None
  /\ Sys.progress run.1 = None
  /\ (Backfill.load (Sys.set_faults [] run.1)).2 = Returned ∅.
Proof.
  cbv zeta.
  split; [vm_compute; reflexivity|].
  split; [vm_compute; reflexivity|].
  split; [vm_compute; reflexivity|].
  split; [vm_compute; reflexivity|].
  split; [vm_compute; reflexivity|].
  split; vm_compute; reflexivity.
Qed.

(** ** Transactions *)

Lemma executemany_spec {A} (stmt : A -> Store.DB -> option Store.DB) rows :
  forall w w' r,
    IO.executemany stmt rows w = (w', r) ->
    Sys.db w' = Sys.db w /\ Sys.clock w' = Sys.clock w
    /\ Sys.trace w' = Sys.trace w
    /\ (r = Returned tt -> Some (view w') = run stmt rows (view w)).
Proof.
  induction rows as [|x xs IH]; intros w w' r; simpl.
  - intros [= <- <-]. auto.
  - unfold Sys.bind at 1, IO.execute, Sys.bind at 1, IO.fallible.
    destruct w as [d t ra pr lk ck fs tr]. unfold view. simpl.
    destruct fs as [|[] fs]; simpl;
      try (intros [= <- <-]; repeat split; simpl; auto; discriminate);
      (destruct (stmt x (default d t)) as [d'|] eqn:Es; simpl;
       [ intros H; apply IH in H; unfold view in H; simpl in H; exact H
       | intros [= <- <-]; repeat split; simpl; auto; discriminate ]).
Qed.

Lemma execute_cases stmt w w' r :
  IO.execute stmt w = (w', r) ->
  Sys.db w' = Sys.db w
  /\ match r with
     | Returned _ => Sys.tx w' = stmt (view w) /\ is_Some (Sys.tx w')
     | Raised _ => True
     end.
Proof.
  unfold IO.execute, Sys.bind, IO.fallible, view.
  destruct w as [d t ra pr lk ck fs tr]. simpl.
  destruct fs as [|[] fs]; simpl;
    try (intros [= <- <-]; simpl; auto);
    (destruct (stmt (default d t)) as [d'|]; intros [= <- <-]; simpl; eauto).
Qed.

Lemma commit_cases w w' r :
  IO.commit w = (w', r) ->
  match r with
  | Returned _ => Sys.db w' = view w /\ Sys.tx w' = None
  | Raised _ => Sys.db w' = Sys.db w
  end.
Proof.
  unfold IO.commit, Sys.bind, IO.fallible, Sys.modify, view.
  destruct w as [d t ra pr lk ck fs tr]. simpl.
  destruct fs as [|[] fs]; simpl; intros [= <- <-]; simpl; auto.
Qed.

(** A [with] block on a fresh connection that executes one statement,
    commits and then does something that leaves the database alone: the
    committed database afterwards is the one before, or the one the
    statement gives. *)
Lemma get_db_connection_spec w w' r :
  Backfill.get_db_connection w = (w', r) ->
  Sys.db w' = Sys.db w /\ Sys.clock w' = Sys.clock w.
Proof.
  intros E. split.
  - pose proof (preserves_get_db_connection Sys.db (fun _ _ => eq_refl) w) as H.
    rewrite E in H. exact H.
  - pose proof (preserves_get_db_connection Sys.clock (fun _ _ => eq_refl) w) as H.
    rewrite E in H. exact H.
Qed.

(** The body of the [with] block of [bulk_insert_records], entered without
    an open transaction: when it returns both statements have been applied
    to the committed database, when it raises the committed database is as
    before. *)
Lemma bulk_body_spec env records w w' r :
  Sys.tx w = None ->
  (now <- Sys.get Sys.clock ;;
   IO.executemany (Backfill.history_stmt env) records >>
   IO.executemany (Backfill.latest_stmt env now) records >>
   IO.commit >>
   Sys.modify (Sys.emit (Sys.EvFlush (map Backfill.msisdn records))) >>
   Sys.ret (Z.of_nat (length records)))%sys w = (w', r) ->
  match r with
  | Returned n =>
      Some (Sys.db w') = both_applied env (Sys.clock w) records (Sys.db w)
      /\ Sys.tx w' = None
  | Raised _ => Sys.db w' = Sys.db w
  end.
Proof.
  intros Htx. unfold Sys.bind at 1, Sys.get at 1, Sys.bind at 1.
  destruct (IO.executemany (Backfill.history_stmt env) records w)
    as [w1 r1] eqn:E1.
  apply executemany_spec in E1. destruct E1 as (Hd1 & Hc1 & _ & Hv1).
  destruct r1 as [[]|e1]; [|intros [= <- <-]; exact Hd1].
  specialize (Hv1 eq_refl). unfold Sys.bind at 1.
  destruct (IO.executemany (Backfill.latest_stmt env (Sys.clock w)) records w1)
    as [w2 r2] eqn:E2.
  apply executemany_spec in E2. destruct E2 as (Hd2 & Hc2 & _ & Hv2).
  destruct r2 as [[]|e2]; [|intros [= <- <-]; congruence].
  specialize (Hv2 eq_refl).
  assert (Hboth : Some (view w2)
                  = both_applied env (Sys.clock w) records (Sys.db w)).
  { unfold both_applied. replace (Sys.db w) with (view w)
      by (unfold view; rewrite Htx; reflexivity).
    rewrite <- Hv1. simpl. exact Hv2. }
  unfold view in Hboth.
  destruct w2 as [d t ra pr lk ck fs tr]. simpl in *.
  unfold IO.commit, IO.fallible, Sys.bind, Sys.modify, Sys.ret; simpl.
  destruct fs as [|[] fs]; simpl; intros [= <- <-]; simpl; auto; congruence.
Qed.



Lemma run_keeps {A X} (g : Store.DB -> X)
    (stmt : A -> Store.DB -> option Store.DB) rows :
  (forall r d d', stmt r d = Some d' -> g d' = g d) ->
  forall d d', run stmt rows d = Some d' -> g d' = g d.
Proof.
  intros Hs. induction rows as [|x xs IH]; intros d d'; simpl.
  - intros [= <-]. reflexivity.
  - destruct (stmt x d) as [d1|] eqn:E; simpl; [|discriminate].
    intros H. rewrite (IH _ _ H). eauto.
Qed.

Lemma latest_page_keeps now client_now page d d' :
  RadiusParser.latest_page now client_now page d = Some d' ->
  Store.radius_matches d' = Store.radius_matches d.
Proof.
  unfold RadiusParser.latest_page. destruct (bool_decide _); [|discriminate].
  destruct (foldl _ _ page); simpl; [|discriminate].
  intros [= <-]. reflexivity.
Qed.

Lemma history_page_keeps client_now page d d' :
  RadiusParser.history_page client_now page d = Some d' ->
  Store.latest_traces d' = Store.latest_traces d.
Proof.
  unfold RadiusParser.history_page.
  destruct (foldl _ _ page); simpl; [|discriminate].
  intros [= <-]. reflexivity.
Qed.

(** [conn.rollback()] discards the open transaction and leaves the
    committed database alone, whether it returns or raises. *)
Lemma rollback_cases w w' r :
  IO.rollback w = (w', r) ->
  Sys.db w' = Sys.db w /\ Sys.tx w' = None
  /\ (Sys.faults w = [] -> r = Returned tt /\ Sys.faults w' = []).
Proof.
  unfold IO.rollback, Sys.bind, Sys.modify, IO.fallible.
  destruct w as [d t ra pr lk ck fs tr]. simpl.
  destruct fs as [|[] fs]; simpl; intros [= <- <-]; simpl;
    repeat split; auto; discriminate.
Qed.

(** [upsert_latest_traces], entered without an open transaction, commits
    or rolls back on its own: it leaves no transaction open, does not touch
    the history, and when it raises -- the rollback failed -- has committed
    nothing. *)
Lemma upsert_latest_traces_spec records w w' r :
  Sys.tx w = None ->
  RadiusParser.upsert_latest_traces records w = (w', r) ->
  Store.radius_matches (Sys.db w') = Store.radius_matches (Sys.db w)
  /\ Sys.tx w' = None
  /\ (forall e, r = Raised e -> Sys.db w' = Sys.db w).
Proof.
  intros Htx. unfold RadiusParser.upsert_latest_traces.
  destruct records as [|r0 rs];
    [intros [= <- <-]; repeat split; auto; discriminate|].
  set (records := r0 :: rs).
  unfold Sys.try_except, Sys.bind at 1, Sys.get at 1, Sys.bind at 1,
    RadiusParser.execute_values.
  destruct (IO.executemany _ _ w) as [w1 r1] eqn:E1.
  apply executemany_spec in E1. destruct E1 as (Hd1 & _ & _ & Hv1).
  destruct r1 as [[]|e1].
  - specialize (Hv1 eq_refl). symmetry in Hv1.
    apply (run_keeps Store.radius_matches) in Hv1;
      [|intros; eapply latest_page_keeps; eauto].
    unfold view in Hv1. rewrite Htx in Hv1. simpl in Hv1.
    unfold Sys.bind at 1.
    destruct (IO.commit w1) as [w2 r2] eqn:E2. apply commit_cases in E2.
    destruct r2 as [[]|e2].
    + destruct E2 as [Hd2 Ht2]. unfold Sys.ret. intros [= <- <-].
      split; [rewrite Hd2; exact Hv1|]. split; [exact Ht2|discriminate].
    + unfold Sys.bind at 1.
      destruct (IO.rollback w2) as [w3 r3] eqn:E3. apply rollback_cases in E3.
      destruct E3 as (Hd3 & Ht3 & _).
      assert (Hd : Sys.db w3 = Sys.db w) by congruence.
      destruct r3 as [[]|e3]; unfold Sys.ret; intros [= <- <-];
        rewrite Hd; auto.
  - unfold Sys.bind at 1.
    destruct (IO.rollback w1) as [w3 r3] eqn:E3. apply rollback_cases in E3.
    destruct E3 as (Hd3 & Ht3 & _).
    assert (Hd : Sys.db w3 = Sys.db w) by congruence.
    destruct r3 as [[]|e3]; unfold Sys.ret; intros [= <- <-];
      rewrite Hd; auto.
Qed.

(** [insert_radius_history], likewise, does not touch the latest-state
    table. *)
Lemma insert_radius_history_spec records w w' r :
  Sys.tx w = None ->
  RadiusParser.insert_radius_history records w = (w', r) ->
  Store.latest_traces (Sys.db w') = Store.latest_traces (Sys.db w)
  /\ Sys.tx w' = None
  /\ (forall e, r = Raised e -> Sys.db w' = Sys.db w).
Proof.
  intros Htx. unfold RadiusParser.insert_radius_history.
  destruct records as [|r0 rs];
    [intros [= <- <-]; repeat split; auto; discriminate|].
  set (records := r0 :: rs).
  unfold Sys.try_except, Sys.bind at 1, Sys.get at 1, Sys.bind at 1,
    Sys.get at 1, Sys.bind at 1, RadiusParser.execute_values.
  destruct (IO.executemany _ _ w) as [w1 r1] eqn:E1.
  apply executemany_spec in E1. destruct E1 as (Hd1 & _ & _ & Hv1).
  destruct r1 as [[]|e1].
  - specialize (Hv1 eq_refl). symmetry in Hv1.
    apply (run_keeps Store.latest_traces) in Hv1;
      [|intros; eapply history_page_keeps; eauto].
    unfold view in Hv1. rewrite Htx in Hv1. simpl in Hv1.
    unfold Sys.bind at 1, Sys.get at 1, Sys.bind at 1.
    destruct (IO.commit w1) as [w2 r2] eqn:E2. apply commit_cases in E2.
    destruct r2 as [[]|e2].
    + destruct E2 as [Hd2 Ht2]. unfold Sys.ret. intros [= <- <-].
      split; [rewrite Hd2; exact Hv1|]. split; [exact Ht2|discriminate].
    + unfold Sys.bind at 1.
      destruct (IO.rollback w2) as [w3 r3] eqn:E3. apply rollback_cases in E3.
      destruct E3 as (Hd3 & Ht3 & _).
      assert (Hd : Sys.db w3 = Sys.db w) by congruence.
      destruct r3 as [[]|e3]; unfold Sys.ret; intros [= <- <-];
        rewrite Hd; auto.
  - unfold Sys.bind at 1.
    destruct (IO.rollback w1) as [w3 r3] eqn:E3. apply rollback_cases in E3.
    destruct E3 as (Hd3 & Ht3 & _).
    assert (Hd : Sys.db w3 = Sys.db w) by congruence.
    destruct r3 as [[]|e3]; unfold Sys.ret; intros [= <- <-];
      rewrite Hd; auto.
Qed.

Lemma executemany_quiet {A} (stmt : A -> Store.DB -> option Store.DB) rows :
  forall w, Sys.faults w = [] -> Sys.faults (IO.executemany stmt rows w).1 = [].
Proof.
  induction rows as [|x xs IH]; intros w Hf; simpl; [exact Hf|].
  unfold Sys.bind at 1, IO.execute, Sys.bind at 1, IO.fallible. rewrite Hf.
  destruct (stmt x (default (Sys.db w) (Sys.tx w))) as [d|]; simpl;
    [apply IH; exact Hf|exact Hf].
Qed.

Lemma commit_quiet w :
  Sys.faults w = [] ->
  exists w', IO.commit w = (w', Returned tt) /\ Sys.faults w' = [].
Proof.
  intros Hf. unfold IO.commit, Sys.bind, IO.fallible, Sys.modify. rewrite Hf.
  eexists. split; [reflexivity|exact Hf].
Qed.

Lemma upsert_latest_traces_quiet records w :
  Sys.faults w = [] ->
  exists w' n,
    RadiusParser.upsert_latest_traces records w = (w', Returned n)
    /\ Sys.faults w' = [].
Proof.
  intros Hf. unfold RadiusParser.upsert_latest_traces.
  destruct records as [|r0 rs]; [exists w, 0; auto|].
  set (records := r0 :: rs).
  unfold Sys.try_except, Sys.bind at 1, Sys.get at 1, Sys.bind at 1,
    RadiusParser.execute_values.
  pose proof (executemany_quiet
                (RadiusParser.latest_page (Sys.clock w) (Sys.clock w))
                (RadiusParser.pages (length records) records) w Hf) as Hq.
  destruct (IO.executemany _ _ w) as [w1 [[]|e1]]; simpl in Hq.
  - destruct (commit_quiet w1 Hq) as (w2 & E2 & Hf2).
    unfold Sys.bind, Sys.ret. rewrite E2. eauto.
  - unfold Sys.bind, Sys.ret.
    destruct (IO.rollback w1) as [w3 r3] eqn:E3. apply rollback_cases in E3.
    destruct E3 as (_ & _ & H3). destruct (H3 Hq) as [-> Hf3]. eauto.
Qed.

Lemma insert_radius_history_quiet records w :
  Sys.faults w = [] ->
  exists w' n,
    RadiusParser.insert_radius_history records w = (w', Returned n)
    /\ Sys.faults w' = [].
Proof.
  intros Hf. unfold RadiusParser.insert_radius_history.
  destruct records as [|r0 rs]; [exists w, 0; auto|].
  set (records := r0 :: rs).
  unfold Sys.try_except, Sys.bind at 1, Sys.get at 1, Sys.bind at 1,
    Sys.get at 1, Sys.bind at 1, RadiusParser.execute_values.
  pose proof (executemany_quiet
                (RadiusParser.history_page (Sys.clock w))
                (RadiusParser.pages (length records) records) w Hf) as Hq.
  destruct (IO.executemany _ _ w) as [w1 [[]|e1]]; simpl in Hq.
  - destruct (commit_quiet w1 Hq) as (w2 & E2 & Hf2).
    unfold Sys.bind, Sys.get, Sys.ret. rewrite E2. eauto.
  - unfold Sys.bind, Sys.ret.
    destruct (IO.rollback w1) as [w3 r3] eqn:E3. apply rollback_cases in E3.
    destruct E3 as (_ & _ & H3). destruct (H3 Hq) as [-> Hf3]. eauto.
Qed.



(** ** Resuming *)

(** The resume position has no part in what [process_log_file] reads. *)
Lemma ingest_ignores_resume_pos env log_file (p q : Z) :
  Backfill.ingest env log_file p = Backfill.ingest env log_file q.
Proof. reflexivity. Qed.

(** C1: [process_log_file] loads the checkpoint and does not use it. After
    a run that flushed and checkpointed the first 1000 of 1001 entries and
    then failed, the checkpoint 1000 is on file; the next run starts again
    at entry 0: it flushes the first 1000 entries a second time, then the
    last one, and reports 1001 processed, where resuming would flush and
    report 1. *)
Theorem restart_reprocesses_flushed_entries :
  let w1 := Samples.interrupted in
  let run2 := Backfill.process_log_file Samples.env Samples.path
                (Sys.set_faults [] w1) in
  Samples.first_run.2 = Raised "OperationalError"
  /\ Samples.flush_sizes (Sys.trace w1) = [1000%nat]
  /\ match (Backfill.load (Sys.set_faults [] w1)).2 with
     | Returned positions => positions !! Samples.path
     | Raised _ => None
     end = Some 1000
  /\ run2.2 = Returned (1001, 1001)
  /\ Samples.flush_sizes (Sys.trace run2.1) = [1000%nat; 1000%nat; 1%nat].
Proof.
  cbv zeta.
  split; [vm_compute; reflexivity|].
  split; [vm_compute; reflexivity|].
  split; [vm_compute; reflexivity|].
  split; vm_compute; reflexivity.
Qed.

(** ** Tailing *)

(** radius_watcher_old keeps the unfinished block: reading a file in two
    slices gives what reading it in one gives. *)
Lemma old_scan_lines_app (l1 l2 : list string) :
  forall buffer records,
    WatcherOld.scan_lines (l1 ++ l2) buffer records
    = WatcherOld.scan_lines l2 (WatcherOld.scan_lines l1 buffer records).1
        (WatcherOld.scan_lines l1 buffer records).2.
Proof.
  induction l1 as [|l ls IH]; intros buffer records; simpl; [reflexivity|].
  destruct (Parser.is_header l); [|apply IH].
  destruct buffer; [apply IH|].
  destruct (Parser.parse_radius_record _); apply IH.
Qed.

(** [RadiusWatcher.process_file] never hands out the block that is open
    when the lines of a poll run out. *)
Lemma watcher_drops_open_block (lines current records : list _) (line : string) :
  Parser.is_header line = false ->
  Watcher.scan_lines (lines ++ [line]) current records
  = Watcher.scan_lines lines current records.
Proof.
  intros Hl. revert current records.
  induction lines as [|l ls IH]; intros current records; simpl.
  - rewrite Hl. reflexivity.
  - destruct (Parser.is_header l); [|apply IH].
    destruct current; [apply IH|].
    destruct (Parser.parse_radius_record _) as [parsed|]; [|apply IH].
    destruct (_ && _); apply IH.
Qed.

(** C5: [RadiusWatcher.process_file] drops the trailing block of every
    poll. A first record is written to the file and polled, then a second
    one is written and polled: both polls return no record and the position
    moves to the end of the file, so the first record is lost, although the
    file holds two records for [parse_radius_file]; the handler of
    radius_watcher_old, polled on the same two states of the file, hands
    out the first record at the second poll. *)
Theorem watcher_loses_trailing_block :
  let c1 := Samples.tail_block "Wed Nov  4 12:00:00 2026" "5926001234" in
  let c2 := Samples.tail_block "Wed Nov  4 12:00:05 2026" "5926001235" in
  let poll1 := Watcher.process_file ∅ Samples.path (Samples.world c1 None []) in
  let positions1 := match poll1.2 with
                    | Returned (positions, _) => positions
                    | Raised _ => ∅
                    end in
  let poll2 := Watcher.process_file positions1 Samples.path
                 (Samples.world (c1 ++ c2) None []) in
  let positions2 := match poll2.2 with
                    | Returned (positions, _) => positions
                    | Raised _ => ∅
                    end in
  let records (r : PyResult (gmap string nat * list Parser.RadiusDict)) :=
    match r with
    | Returned (_, l) => Some l
    | Raised _ => None
    end in
  let old1 := WatcherOld.read_new_lines (WatcherOld.mkHandler ∅ ∅)
                Samples.path c1 in
  let old2 := WatcherOld.read_new_lines old1.1 Samples.path (c1 ++ c2)%string in
  records poll1.2 = Some []
  /\ positions1 !! Samples.path = Some (String.length c1)
  /\ records poll2.2 = Some []
  /\ positions2 !! Samples.path = Some (String.length (c1 ++ c2))
  /\ RadiusParser.parse_lines (Parser.readlines (c1 ++ c2)) []
     = [Samples.tail_record "5926001234"; Samples.tail_record "5926001235"]
  /\ old1.2 = []
  /\ old2.2 = [Samples.tail_record "5926001234"].
Proof.
  cbv zeta. do 6 (split; [vm_compute; reflexivity|]). vm_compute. reflexivity.
Qed.

(* ================================================================== *)
(** * Further properties of the code *)
(* ================================================================== *)

(** ** Decoders *)

Lemma split_eci (eci : Z) :
  eci = 256 * Z.shiftr eci 8 + Z.land eci 255 /\ 0 <= Z.land eci 255 < 256.
Proof.
  rewrite Z.shiftr_div_pow2 by lia.
  change 255 with (Z.ones 8). rewrite Z.land_ones by lia.
  change (2 ^ 8) with 256.
  split; [apply Z.div_mod; lia | apply Z.mod_pos_bound; lia].
Qed.

(** Whatever [decode_enodeb_cellid] returns splits the integer it read
    from the last 8 characters without loss: the sector is in 0..255 and
    eci = 256 * station + sector, also for a signed literal. *)
Theorem decode_enodeb_cellid_recombines (uli_hex : string) (e c : Z) :
  Decoder.decode_enodeb_cellid uli_hex = Returned (e, c) ->
  0 <= c < 256
  /\ Py.int 16 (Py.last_n 8 (if Py.startswith "0x" uli_hex
                             then Py.drop 2 uli_hex else uli_hex))
     = Some (256 * e + c).
Proof.
  unfold Decoder.decode_enodeb_cellid.
  destruct (Py.int 16 _) as [eci|]; [|discriminate].
  intros [= <- <-]. destruct (split_eci eci) as [H1 H2].
  split; [exact H2|]. f_equal. exact H1.
Qed.

Lemma decode_enodeb_cellid_recombines_witness :
  0 <= 14 < 256
  /\ Py.int 16 (Py.last_n 8 (if Py.startswith "0x" Samples.scenario_code
                             then Py.drop 2 Samples.scenario_code
                             else Samples.scenario_code))
     = Some (256 * 4039 + 14).
Proof.
  apply (decode_enodeb_cellid_recombines Samples.scenario_code 4039 14).
  vm_compute. reflexivity.
Defined.

(** What [decode_eci] returns is in range: the station has 20 bits and the
    sector 8, whatever the 8 characters were (a signed literal included);
    the station keeps bits 8..27 of eci, so eci is rebuilt from the two
    exactly when it has no higher bit. *)
Theorem decode_eci_in_range (location_hex : string) (info : Decoder.EciInfo) :
  Decoder.decode_eci location_hex = Some info ->
  0 <= Decoder.enodeb_id info < 1048576
  /\ 0 <= Decoder.cell_id info < 256
  /\ Decoder.enodeb_id info = (Decoder.eci info / 256) mod 1048576
  /\ (0 <= Decoder.eci info < 268435456 ->
      Decoder.eci info = 256 * Decoder.enodeb_id info + Decoder.cell_id info).
Proof.
  unfold Decoder.decode_eci. destruct (_ <? 8); [discriminate|].
  destruct (Py.int 16 _) as [eci|]; [|discriminate].
  intros [= <-]. simpl.
  assert (He : Z.land (Z.shiftr eci 8) 1048575 = (eci / 256) mod 1048576).
  { change 1048575 with (Z.ones 20). rewrite Z.land_ones by lia.
    rewrite Z.shiftr_div_pow2 by lia. reflexivity. }
  assert (Hc : Z.land eci 255 = eci mod 256).
  { change 255 with (Z.ones 8). rewrite Z.land_ones by lia. reflexivity. }
  rewrite He, Hc. repeat split; try (apply Z.mod_pos_bound; lia).
  intros Hr. rewrite Z.mod_small.
  - apply Z.div_mod. lia.
  - split; [apply Z.div_pos; lia|]. apply Z.div_lt_upper_bound; lia.
Qed.

Lemma decode_eci_in_range_witness :
  0 <= 4039 < 1048576 /\ 0 <= 14 < 256
  /\ 4039 = (1033998 / 256) mod 1048576
  /\ (0 <= 1033998 < 268435456 -> 1033998 = 256 * 4039 + 14).
Proof.
  apply (decode_eci_in_range Samples.scenario_code
           (Decoder.mkEciInfo 4039 14 1033998)).
  vm_compute. reflexivity.
Defined.

(** ** Blocks of a detail file *)

(** [read_log_entries] loses and reorders nothing: the entries, put end to
    end after the lines already buffered, are the stripped non-blank lines
    of the file in order; and no entry it yields is empty. *)
Theorem read_entries_flatten (lines buffer : list string) :
  concat (Parser.read_entries lines buffer)
  = (buffer ++ List.filter (fun l => negb (String.eqb l ""))
                 (map Py.strip lines))%list
  /\ Forall (fun entry => entry <> []) (Parser.read_entries lines buffer).
Proof.
  revert buffer. induction lines as [|l ls IH]; intros buffer; simpl.
  - destruct buffer as [|b bs]; simpl.
    + split; [reflexivity|constructor].
    + rewrite !app_nil_r. split; [reflexivity|].
      constructor; [discriminate|constructor].
  - destruct (String.eqb (Py.strip l) "") eqn:E; simpl.
    + destruct buffer as [|b bs]; simpl.
      * apply IH.
      * destruct (IH []) as [H1 H2]. simpl in H1. rewrite H1. split.
        -- reflexivity.
        -- constructor; [discriminate|exact H2].
    + destruct (IH (buffer ++ [Py.strip l])%list) as [H1 H2].
      rewrite H1, <- app_assoc. split; [reflexivity|exact H2].
Qed.

(** ** The history table *)

Lemma same_key_refl (a : Store.HistoryRow) : Store.same_key a a = true.
Proof.
  unfold Store.same_key. rewrite !String.eqb_refl, Z.eqb_refl. reflexivity.
Qed.

Lemma same_key_sym (a b : Store.HistoryRow) :
  Store.same_key a b = Store.same_key b a.
Proof.
  unfold Store.same_key.
  rewrite (String.eqb_sym (Store.h_msisdn a)),
    (String.eqb_sym (Store.h_enodeb_id a)),
    (String.eqb_sym (Store.h_cell_id a)), (Z.eqb_sym (Store.h_timestamp a)).
  reflexivity.
Qed.

Lemma insert_history_conflict row t :
  existsb (Store.same_key row) (Store.insert_history row t) = true.
Proof.
  unfold Store.insert_history.
  destruct (existsb (Store.same_key row) t) eqn:E; [exact E|].
  rewrite existsb_app. simpl. rewrite same_key_refl, orb_true_r.
  reflexivity.
Qed.

(** The history insert is idempotent, never changes or removes a stored
    row, and keeps the unique constraint: a table without two rows of the
    same key has none after the insert either. *)
Theorem insert_history_keeps_constraint (row : Store.HistoryRow)
    (t : list Store.HistoryRow) :
  Store.insert_history row (Store.insert_history row t)
  = Store.insert_history row t
  /\ (exists added, Store.insert_history row t = (t ++ added)%list)
  /\ (unique_keys t -> unique_keys (Store.insert_history row t)).
Proof.
  split; [|split].
  - unfold Store.insert_history at 1.
    rewrite insert_history_conflict. reflexivity.
  - unfold Store.insert_history.
    destruct (existsb _ t); [exists []; rewrite app_nil_r|exists [row]];
      reflexivity.
  - intros Hu. unfold Store.insert_history.
    destruct (existsb (Store.same_key row) t) eqn:E; [exact Hu|].
    assert (Hno : forall i a, t !! i = Some a -> Store.same_key row a = false).
    { intros i a Hi. destruct (Store.same_key row a) eqn:Ek; [|reflexivity].
      assert (Hex : existsb (Store.same_key row) t = true).
      { apply existsb_exists. exists a. split; [|exact Ek].
        apply list_elem_of_In. eapply list_elem_of_lookup_2. exact Hi. }
      congruence. }
    intros i j a b Hi Hj Hk.
    destruct (lt_dec i (length t)) as [Li|Li];
      destruct (lt_dec j (length t)) as [Lj|Lj].
    + rewrite lookup_app_l in Hi, Hj by assumption. eauto.
    + rewrite lookup_app_l in Hi by assumption.
      rewrite lookup_app_r in Hj by lia.
      destruct (j - length t)%nat; simpl in Hj; [|discriminate].
      injection Hj as <-. rewrite same_key_sym, (Hno i a Hi) in Hk.
      discriminate.
    + rewrite lookup_app_l in Hj by assumption.
      rewrite lookup_app_r in Hi by lia.
      destruct (i - length t)%nat; simpl in Hi; [|discriminate].
      injection Hi as <-. rewrite (Hno j b Hj) in Hk. discriminate.
    + rewrite lookup_app_r in Hi, Hj by lia.
      destruct (i - length t)%nat eqn:Ei; simpl in Hi; [|discriminate].
      destruct (j - length t)%nat eqn:Ej; simpl in Hj; [|discriminate].
      lia.
Qed.

Lemma insert_history_keeps_constraint_witness :
  let stored := Store.mkHistoryRow "5926001234" "738010000000001" None "4039"
                  "14" "Tower" 0%float 0%float 1793793600 in
  let other := Store.mkHistoryRow "5926001235" "738010000000002" None "4039"
                 "14" "Tower" 0%float 0%float 1793793600 in
  let again := Store.mkHistoryRow "5926001234" "738010000000009" None "4039"
                 "14" "Mast" 1%float 2%float 1793793600 in
  let later := Store.mkHistoryRow "5926001234" "738010000000001" None "4039"
                 "14" "Tower" 0%float 0%float 1793793605 in
  let t := [stored; other] in
  (Store.insert_history again t = t
   /\ unique_keys (Store.insert_history again t))
  /\ (Store.insert_history later t = [stored; other; later]
      /\ unique_keys (Store.insert_history later t)).
Proof.
  intros stored other again later t.
  assert (Ht : unique_keys t).
  { intros i j a b Hi Hj Hk.
    destruct i as [|[|i]]; destruct j as [|[|j]]; simpl in Hi, Hj;
      try discriminate Hi; try discriminate Hj; try reflexivity;
      injection Hi as <-; injection Hj as <-; vm_compute in Hk;
      discriminate Hk. }
  split; (split; [vm_compute; reflexivity|]).
  - apply (proj2 (proj2 (insert_history_keeps_constraint again t))).
    exact Ht.
  - apply (proj2 (proj2 (insert_history_keeps_constraint later t))).
    exact Ht.
Defined.

(** ** Connecting *)

(** [get_db_connection] tries at most [Config.MAX_RETRIES] = 3 times: it
    raises exactly when the first three attempts fail, returns otherwise,
    and in both cases has made between 0 and 3 attempts and changed nothing
    else. *)
Theorem get_db_connection_bounded_retry (w : Sys.World) :
  (forall fs, Sys.faults w = true :: true :: true :: fs ->
     Backfill.get_db_connection w
     = (Sys.set_faults fs w, Raised "OperationalError"))
  /\ ((forall fs, Sys.faults w <> true :: true :: true :: fs) ->
      (Backfill.get_db_connection w).2 = Returned tt)
  /\ exists attempts,
       (attempts <= 3)%nat
       /\ ((Backfill.get_db_connection w).1 = w
           \/ (Backfill.get_db_connection w).1
              = Sys.set_faults (skipn attempts (Sys.faults w)) w).
Proof.
  destruct w as [d t ra pr lk ck fs tr].
  unfold Backfill.get_db_connection, Backfill.Config.MAX_RETRIES. simpl.
  unfold Sys.try_except, IO.fallible, Sys.raise. simpl.
  split; [|split].
  - intros fs' ->. reflexivity.
  - intros Hn. destruct fs as [|[] [|[] [|[] fs]]]; simpl; try reflexivity.
    exfalso. eapply Hn. reflexivity.
  - destruct fs as [|[] [|[] [|[] fs]]]; simpl;
      first [ exists 0%nat; split; [lia|left; reflexivity]
            | exists 1%nat; split; [lia|right; reflexivity]
            | exists 2%nat; split; [lia|right; reflexivity]
            | exists 3%nat; split; [lia|right; reflexivity] ].
Qed.

Lemma get_db_connection_bounded_retry_witness :
  Backfill.get_db_connection
    (Samples.world EmptyString None [true; true; true; false])
  = (Samples.world EmptyString None [false], Raised "OperationalError")
  /\ (Backfill.get_db_connection
        (Samples.world EmptyString None [true; true; false])).2 = Returned tt.
Proof.
  split.
  - apply (proj1 (get_db_connection_bounded_retry
                    (Samples.world EmptyString None [true; true; true; false]))
             [false]).
    reflexivity.
  - apply (proj1 (proj2 (get_db_connection_bounded_retry
                           (Samples.world EmptyString None [true; true; false])))).
    intros fs H. discriminate H.
Defined.

(** ** Failure isolation *)

Lemma process_files_returns env files :
  forall totals w, exists t, (Backfill.process_files env files totals w).2 = Returned t.
Proof.
  induction files as [|f fs IH]; intros totals w; simpl; [eauto|].
  unfold Sys.bind at 1, Sys.try_except, Sys.bind, Sys.ret.
  destruct (Backfill.process_log_file env f w) as [w1 [r|e]]; apply IH.
Qed.

Lemma process_sources_returns env all_logs :
  forall totals w,
    exists t, (Backfill.process_sources env all_logs totals w).2 = Returned t.
Proof.
  induction all_logs as [|[ip files] rest IH]; intros totals w; simpl; [eauto|].
  unfold Sys.bind at 1.
  destruct (process_files_returns env files totals w) as [t Ht].
  destruct (Backfill.process_files env files totals w) as [w1 r].
  simpl in Ht. subst r. apply IH.
Qed.

(** A file that fails does not stop the run: processing the files of a
    source never raises, whichever files fail and however, and [backfill]
    itself never raises -- every failure ends in its log. *)
Theorem failures_are_isolated (env : Backfill.Env) (w : Sys.World) :
  (forall files totals,
      exists t, (Backfill.process_files env files totals w).2 = Returned t)
  /\ (Backfill.backfill env w).2 = Returned tt.
Proof.
  split; [intros; apply process_files_returns|].
  unfold Backfill.backfill, Sys.bind at 1, Sys.get at 1.
  destruct (Sys.lock w); [reflexivity|].
  unfold Sys.bind at 1, Sys.try_except at 1.
  destruct ((IO.fallible "OSError" >> Sys.modify (Sys.set_lock true)
             >> Sys.ret true)%sys w) as [w1 [[]|e]] eqn:E1; simpl;
    try reflexivity.
  unfold Sys.finally, Sys.try_except.
  destruct (Backfill.backfill_body env w1) as [w2 [[]|e2]];
    unfold Backfill.cleanup, Sys.try_except, Sys.ret;
    destruct ((Backfill.unlink_lock >> Backfill.clear)%sys w2)
      as [w3 [[]|e3]]; reflexivity.
Qed.

(** ** Single-statement transactions of the backfill *)

Lemma with_conn_stmt_cases (stmt : Z -> Store.DB -> option Store.DB)
    (tail : Sys.M unit) w w' r :
  preserves Sys.db tail -> preserves Sys.tx tail ->
  IO.with_conn Backfill.get_db_connection
    (now <- Sys.get Sys.clock ;;
     IO.execute (stmt now) >> IO.commit >> tail)%sys w = (w', r) ->
  Sys.db w' = Sys.db w \/ Some (Sys.db w') = stmt (Sys.clock w) (Sys.db w).
Proof.
  intros Hdb Htx. unfold IO.with_conn, Sys.bind at 1.
  destruct (Backfill.get_db_connection w) as [w1 [[]|e1]] eqn:E1;
    apply get_db_connection_spec in E1; destruct E1 as [Hd1 Hc1];
    [|intros [= <- <-]; left; exact Hd1].
  unfold Sys.bind at 1, Sys.modify at 1.
  unfold Sys.bind at 1, Sys.get at 1, Sys.bind at 1.
  destruct (IO.execute _ (Sys.set_tx None w1)) as [w2 r2] eqn:E2.
  apply execute_cases in E2. destruct E2 as [Hd2 Hx2]. simpl in Hd2.
  destruct r2 as [[]|e2];
    [|intros [= <- <-]; left; simpl; congruence].
  destruct Hx2 as [Hx2 [d' Hd']]. unfold view in Hx2. simpl in Hx2.
  unfold Sys.bind at 1.
  destruct (IO.commit w2) as [w3 r3] eqn:E3.
  apply commit_cases in E3.
  destruct r3 as [[]|e3];
    [|intros [= <- <-]; left; simpl; congruence].
  destruct E3 as [Hd3 Hx3]. unfold view in Hd3. rewrite Hd' in Hd3.
  simpl in Hd3.
  assert (Hgoal : Some (Sys.db w3) = stmt (Sys.clock w) (Sys.db w)).
  { rewrite Hd3, <- Hd', Hx2, Hd1. simpl. rewrite Hc1. reflexivity. }
  pose proof (Hdb w3) as H4. pose proof (Htx w3) as H5.
  destruct (tail w3) as [w4 [[]|e4]]; simpl in H4, H5.
  - unfold Sys.bind at 1.
    destruct (IO.commit w4) as [w5 r5] eqn:E5. apply commit_cases in E5.
    unfold view in E5. rewrite H5, Hx3 in E5. simpl in E5.
    destruct r5 as [[]|e5]; intros [= <- <-]; right.
    + destruct E5 as [E5 _]. congruence.
    + congruence.
  - intros [= <- <-]. right. simpl. congruence.
Qed.

(** Auditing a file a second time is a no-op: when the audit table already
    holds a row for the file, [record_completion] leaves the committed
    database as it is, whether it returns or raises. *)
Theorem second_audit_changes_nothing (log_file : string)
    (st : Backfill.LoopState) (runtime : Z) (w : Sys.World) :
  is_Some (Store.backfill_audit (Sys.db w) !! log_file) ->
  Sys.db (Backfill.record_completion log_file st runtime w).1 = Sys.db w.
Proof.
  intros [row Hrow].
  destruct (Backfill.record_completion log_file st runtime w) as [w' r] eqn:E.
  simpl. unfold Backfill.record_completion in E.
  apply (with_conn_stmt_cases
           (fun now => Backfill.audit_stmt log_file st runtime now)) in E.
  - destruct E as [E|E]; [exact E|].
    unfold Backfill.audit_stmt, Store.insert_audit in E. rewrite Hrow in E.
    injection E as ->. destruct (Sys.db w). reflexivity.
  - intros x. reflexivity.
  - intros x. reflexivity.
Qed.

Lemma second_audit_changes_nothing_witness :
  let w := (Backfill.record_completion Samples.path
              (Backfill.mkLoopState [] 5 5) 1
              (Samples.world EmptyString None [])).1 in
  Sys.db (Backfill.record_completion Samples.path
            (Backfill.mkLoopState [] 7 7) 2 w).1 = Sys.db w.
Proof.
  intros w. apply second_audit_changes_nothing.
  vm_compute. eauto.
Defined.

(** [perform_maintenance] never raises, touches neither the history nor
    the latest-state table, adds no audit row, and keeps every audit row
    that is not older than [Config.PURGE_AGE_DAYS] days. *)
Theorem maintenance_keeps_recent_audits (w : Sys.World) :
  let w' := (Backfill.perform_maintenance w).1 in
  (Backfill.perform_maintenance w).2 = Returned tt
  /\ Store.radius_matches (Sys.db w') = Store.radius_matches (Sys.db w)
  /\ Store.latest_traces (Sys.db w') = Store.latest_traces (Sys.db w)
  /\ (forall file row,
        Store.backfill_audit (Sys.db w') !! file = Some row ->
        Store.backfill_audit (Sys.db w) !! file = Some row)
  /\ (forall file row,
        Store.backfill_audit (Sys.db w) !! file = Some row ->
        Sys.clock w - 30 * 86400 <= Store.a_backfill_time row ->
        Store.backfill_audit (Sys.db w') !! file = Some row).
Proof.
  cbv zeta. unfold Backfill.perform_maintenance. simpl.
  unfold Sys.try_except.
  destruct (IO.with_conn _ _ w) as [w' r] eqn:E.
  assert (Hr : (let (w'0, p) := (w', r) in
                match p with
                | Returned a => (w'0, Returned a)
                | Raised e => Sys.ret tt w'0
                end) = (w', Returned tt)).
  { destruct r as [[]|e]; reflexivity. }
  rewrite Hr. simpl.
  apply (with_conn_stmt_cases Backfill.purge_stmt) in E;
    [|apply preserves_fallible; intros; reflexivity
     |apply preserves_fallible; intros; reflexivity].
  split; [reflexivity|].
  destruct E as [->|E]; [repeat split; auto|].
  unfold Backfill.purge_stmt in E. injection E as ->. simpl.
  repeat split.
  - intros file row H. apply map_lookup_filter_Some in H. tauto.
  - intros file row H Hage. apply map_lookup_filter_Some. split; [exact H|].
    simpl. unfold Backfill.Config.PURGE_AGE_DAYS. lia.
Qed.

Lemma maintenance_keeps_recent_audits_witness :
  let w := (Backfill.record_completion Samples.path
              (Backfill.mkLoopState [] 5 5) 1
              (Samples.world EmptyString None [])).1 in
  Store.backfill_audit (Sys.db (Backfill.perform_maintenance w).1)
    !! Samples.path
  = Some (Store.mkAuditRow 5 5 0 1 Samples.now).
Proof.
  intros w.
  apply (proj2 (proj2 (proj2 (proj2 (maintenance_keeps_recent_audits w))))).
  - vm_compute. reflexivity.
  - vm_compute. discriminate.
Defined.

(** ** Flushing a batch *)

Lemma commit_keeps_trace w : Sys.trace (IO.commit w).1 = Sys.trace w.
Proof.
  apply (preserves_commit Sys.trace); intros; reflexivity.
Qed.

Lemma bulk_body_returned env records w w' n :
  (now <- Sys.get Sys.clock ;;
   IO.executemany (Backfill.history_stmt env) records >>
   IO.executemany (Backfill.latest_stmt env now) records >>
   IO.commit >>
   Sys.modify (Sys.emit (Sys.EvFlush (map Backfill.msisdn records))) >>
   Sys.ret (Z.of_nat (length records)))%sys w = (w', Returned n) ->
  n = Z.of_nat (length records)
  /\ Sys.trace w'
     = Sys.EvFlush (map Backfill.msisdn records) :: Sys.trace w.
Proof.
  unfold Sys.bind at 1, Sys.get at 1, Sys.bind at 1.
  destruct (IO.executemany (Backfill.history_stmt env) records w)
    as [w1 r1] eqn:E1.
  apply executemany_spec in E1. destruct E1 as (_ & _ & Ht1 & _).
  destruct r1 as [[]|e1]; [|discriminate].
  unfold Sys.bind at 1.
  destruct (IO.executemany (Backfill.latest_stmt env (Sys.clock w)) records w1)
    as [w2 r2] eqn:E2.
  apply executemany_spec in E2. destruct E2 as (_ & _ & Ht2 & _).
  destruct r2 as [[]|e2]; [|discriminate].
  unfold Sys.bind at 1.
  pose proof (commit_keeps_trace w2) as Ht3.
  destruct (IO.commit w2) as [w3 [[]|e3]]; [|discriminate].
  simpl in Ht3. unfold Sys.bind, Sys.modify, Sys.ret. simpl.
  intros [= <- <-]. split; [reflexivity|]. simpl. congruence.
Qed.

Lemma bulk_insert_records_count env records w w' n :
  Backfill.bulk_insert_records env records w = (w', Returned n) ->
  n = Z.of_nat (length records).
Proof.
  unfold Backfill.bulk_insert_records.
  destruct records as [|r0 rs]; [intros [= <- <-]; reflexivity|].
  set (records := r0 :: rs).
  unfold Sys.try_except, IO.with_conn, Sys.bind at 1.
  destruct (Backfill.get_db_connection w) as [w1 [[]|e1]]; [|discriminate].
  unfold Sys.bind at 1, Sys.modify at 1.
  match goal with
  | |- context [let (_, _) := ?body (Sys.set_tx None w1) in _] =>
      destruct (body (Sys.set_tx None w1)) as [w2 r2] eqn:E2
  end.
  destruct r2 as [m|e2]; [|discriminate].
  apply bulk_body_returned in E2. destruct E2 as [-> _].
  unfold Sys.bind at 1.
  destruct (IO.commit w2) as [w3 [[]|e3]]; [|discriminate].
  unfold Sys.ret. intros [= <- <-]. reflexivity.
Qed.

(** What a returning [bulk_insert_records] has done: an empty batch is
    answered with 0 without a connection being opened; for any other batch
    the count returned is the number of records handed in (the row count of
    the upsert, not of the history insert), both statements are committed
    and the commit is the only event. *)
Theorem bulk_insert_records_returned (env : Backfill.Env)
    (records : list Backfill.RadiusRecord) (w w' : Sys.World) (n : Z) :
  Backfill.bulk_insert_records env records w = (w', Returned n) ->
  n = Z.of_nat (length records)
  /\ (records = [] -> w' = w)
  /\ (records <> [] ->
      Some (Sys.db w') = both_applied env (Sys.clock w) records (Sys.db w)
      /\ Sys.trace w'
         = Sys.EvFlush (map Backfill.msisdn records) :: Sys.trace w).
Proof.
  unfold Backfill.bulk_insert_records.
  destruct records as [|r0 rs].
  { intros [= <- <-].
    split; [reflexivity|split; [intros _; reflexivity|intros Hne; congruence]]. }
  set (records := r0 :: rs).
  unfold Sys.try_except, IO.with_conn, Sys.bind at 1.
  pose proof (preserves_get_db_connection Sys.trace (fun _ _ => eq_refl) w)
    as Ht1.
  destruct (Backfill.get_db_connection w) as [w1 [[]|e1]] eqn:E1;
    [|discriminate].
  apply get_db_connection_spec in E1. destruct E1 as [Hd1 Hc1]. simpl in Ht1.
  unfold Sys.bind at 1, Sys.modify at 1.
  match goal with
  | |- context [let (_, _) := ?body (Sys.set_tx None w1) in _] =>
      destruct (body (Sys.set_tx None w1)) as [w2 r2] eqn:E2
  end.
  destruct r2 as [m|e2]; [|discriminate].
  pose proof (bulk_body_spec env records (Sys.set_tx None w1) w2
                (Returned m) eq_refl E2) as [Hboth Htx2].
  apply bulk_body_returned in E2. destruct E2 as [-> Ht2].
  simpl in Hboth, Ht2. rewrite Hd1, Hc1 in Hboth. rewrite Ht1 in Ht2.
  unfold Sys.bind at 1.
  pose proof (commit_keeps_trace w2) as Ht3.
  destruct (IO.commit w2) as [w3 r3] eqn:E3. apply commit_cases in E3.
  destruct r3 as [[]|e3]; [|discriminate].
  unfold view in E3. rewrite Htx2 in E3. simpl in E3, Ht3.
  destruct E3 as [Hd3 _].
  unfold Sys.ret. intros [= <- <-].
  split; [reflexivity|]. split; [discriminate|].
  intros _. split; [rewrite Hd3; exact Hboth|rewrite Ht3; exact Ht2].
Qed.

Lemma bulk_insert_records_returned_witness :
  let record := Backfill.mkRadiusRecord "5926001234" "738010000000001" "4039"
                  "14" "Tower" 0%float 0%float "Nov 04 2026 08:00:00 GMT-04"
                  "Unknown" in
  let w := Samples.world EmptyString None [] in
  let w' := (Backfill.bulk_insert_records Samples.env [record] w).1 in
  1 = Z.of_nat (length [record])
  /\ Sys.trace w' = [Sys.EvFlush ["5926001234"]].
Proof.
  intros record w w'.
  destruct (bulk_insert_records_returned Samples.env [record] w w' 1)
    as (H1 & _ & H2).
  - vm_compute. reflexivity.
  - split; [exact H1|]. apply H2. discriminate.
Defined.

(** ** The counters of a file *)

Lemma loop_body_counts env log_file st n lines w w' st' :
  Backfill.loop_body env log_file st n lines w = (w', Returned st') ->
  Backfill.processed st
  = Backfill.inserted st + Z.of_nat (length (Backfill.batch st))
  /\ 0 <= Backfill.inserted st ->
  Backfill.processed st'
  = Backfill.inserted st' + Z.of_nat (length (Backfill.batch st'))
  /\ 0 <= Backfill.inserted st'.
Proof.
  unfold Backfill.loop_body, Sys.bind at 1, Sys.get at 1.
  destruct (Backfill.build_record env (Sys.clock w) _) as [record|];
    [|intros [= <- <-]; auto].
  destruct (_ <=? _)%nat.
  - unfold Sys.bind at 1.
    destruct (Backfill.bulk_insert_records env _ w) as [w1 [m|e]] eqn:E1;
      [|discriminate].
    apply bulk_insert_records_count in E1. subst m.
    unfold Sys.bind, Sys.ret.
    destruct (Backfill.save log_file (n + 1) w1) as [w2 [[]|e]];
      [|discriminate].
    intros [= <- <-] H. simpl. rewrite length_app in *. simpl. lia.
  - intros [= <- <-] H. simpl. rewrite length_app. simpl. lia.
Qed.

Lemma loop_counts env log_file entries :
  forall n st w w' st',
    Backfill.loop env log_file entries n st w = (w', Returned st') ->
    Backfill.processed st
    = Backfill.inserted st + Z.of_nat (length (Backfill.batch st))
    /\ 0 <= Backfill.inserted st ->
    Backfill.processed st'
    = Backfill.inserted st' + Z.of_nat (length (Backfill.batch st'))
    /\ 0 <= Backfill.inserted st'.
Proof.
  induction entries as [|e es IH]; intros n st w w' st'; simpl.
  - unfold Sys.bind, Sys.ret.
    destruct (IO.fallible "OSError" w) as [w1 [[]|x]]; [|discriminate].
    intros [= <- <-]. auto.
  - unfold Sys.bind at 1.
    destruct (IO.fallible "OSError" w) as [w1 [[]|x]]; [|discriminate].
    unfold Sys.bind at 1.
    destruct (Backfill.loop_body env log_file st n e w1) as [w2 [st2|x]] eqn:E2;
      [|discriminate].
    intros H Hst. eapply IH; [exact H|].
    eapply loop_body_counts; eauto.
Qed.

(** Whenever [process_log_file] returns, its two counters are equal and
    not negative: every flushed batch adds its own length to "inserted", so
    the audit row of a file always records 0 deduplicated entries. *)
Theorem process_log_file_counters (env : Backfill.Env) (log_file : string)
    (w w' : Sys.World) (processed inserted : Z) :
  Backfill.process_log_file env log_file w = (w', Returned (processed, inserted)) ->
  inserted = processed /\ 0 <= processed.
Proof.
  unfold Backfill.process_log_file, Sys.bind at 1.
  destruct (Backfill.load w) as [w1 [pm|e1]]; [|discriminate].
  unfold Sys.bind at 1, Sys.get at 1, Sys.try_except, Sys.bind at 1.
  destruct (Backfill.ingest env log_file _ w1) as [w2 [st|e2]] eqn:E2;
    [|discriminate].
  assert (Hst : Backfill.inserted st = Backfill.processed st
                /\ 0 <= Backfill.processed st).
  { revert E2. unfold Backfill.ingest, Sys.bind at 1.
    destruct (Backfill.open_log log_file w1) as [w3 [content|e3]];
      [|discriminate].
    unfold Sys.bind at 1.
    destruct (Backfill.loop env log_file _ 0 _ w3) as [w4 [st4|e4]] eqn:E4;
      [|discriminate].
    apply loop_counts in E4; [|simpl; lia].
    destruct (Backfill.batch st4) as [|b bs] eqn:Eb.
    - intros [= <- <-]. simpl in E4. lia.
    - unfold Sys.bind, Sys.ret.
      destruct (Backfill.bulk_insert_records env (b :: bs) w4)
        as [w5 [m|e5]] eqn:E5; [|discriminate].
      apply bulk_insert_records_count in E5. subst m.
      intros [= <- <-]. simpl in *. lia. }
  unfold Sys.bind at 1, Sys.get at 1, Sys.bind at 1.
  destruct (Backfill.record_completion log_file st _ w2) as [w3 [[]|e3]];
    [|discriminate].
  unfold Sys.bind, Sys.ret.
  destruct (Backfill.unlink_log log_file w3) as [w4 [[]|e4]];
    intros [= <- <- <-]; exact Hst.
Qed.

Lemma process_log_file_counters_witness : (2 : Z) = 2 /\ (0 <= 2).
Proof.
  apply (process_log_file_counters Samples.env Samples.path
           (Samples.world
              (Samples.block (Samples.entry_lines "5926001234")
               ++ Samples.block Samples.rejected_lines
               ++ Samples.block (Samples.entry_lines "5926001235"))
              None [])
           (Backfill.process_log_file Samples.env Samples.path
              (Samples.world
                 (Samples.block (Samples.entry_lines "5926001234")
                  ++ Samples.block Samples.rejected_lines
                  ++ Samples.block (Samples.entry_lines "5926001235"))
                 None [])).1 2 2).
  vm_compute. reflexivity.
Defined.

(** ** Replaying a batch *)

Lemma run_app {A} (stmt : A -> Store.DB -> option Store.DB) l1 l2 d :
  run stmt (l1 ++ l2) d = run stmt l1 d ≫= run stmt l2.
Proof.
  revert d. induction l1 as [|x xs IH]; intros d; simpl; [reflexivity|].
  destruct (stmt x d) as [d1|]; simpl; [apply IH|reflexivity].
Qed.

(** The row a record leaves in [latest_traces]. *)
Lemma latest_stmt_inv env now r d d' :
  Backfill.latest_stmt env now r d = Some d' ->
  exists ts,
    Backfill.timestamptz_in env (Backfill.timestamp r) = Some ts
    /\ d' = Store.set_latest_traces
              (<[Backfill.msisdn r :=
                   Store.mkLatestRow (Some (Backfill.imsi r))
                     (Some (Backfill.enodeb_id r)) (Some (Backfill.cell_id r))
                     (Some (Backfill.tower_name r)) (Some (Backfill.lat r))
                     (Some (Backfill.lon r)) (Some ts) (Some "backfill")
                     (Some (Backfill.device_model r)) now]>
                 (Store.latest_traces d)) d.
Proof.
  unfold Backfill.latest_stmt.
  destruct (Backfill.timestamptz_in env (Backfill.timestamp r)) as [ts|];
    [|discriminate].
  simpl. destruct (_ && _); [|discriminate].
  intros [= <-]. exists ts. split; reflexivity.
Qed.

Lemma latest_run_other env now records :
  forall d d' k,
    run (Backfill.latest_stmt env now) records d = Some d' ->
    k ∉ map Backfill.msisdn records ->
    Store.latest_traces d' !! k = Store.latest_traces d !! k.
Proof.
  induction records as [|r rs IH]; intros d d' k; simpl.
  - intros [= <-] _. reflexivity.
  - destruct (Backfill.latest_stmt env now r d) as [d1|] eqn:E1; [|discriminate].
    simpl. intros H Hk. apply not_elem_of_cons in Hk. destruct Hk as [Hne Hk].
    rewrite (IH _ _ _ H Hk).
    apply latest_stmt_inv in E1. destruct E1 as (ts & _ & ->). simpl.
    apply lookup_insert_ne. congruence.
Qed.

Lemma latest_run_keeps env now records d d' :
  run (Backfill.latest_stmt env now) records d = Some d' ->
  Store.radius_matches d' = Store.radius_matches d
  /\ Store.backfill_audit d' = Store.backfill_audit d.
Proof.
  intros H. split.
  - apply (run_keeps Store.radius_matches) in H; [exact H|].
    intros r0 d0 d0' H0. apply latest_stmt_inv in H0.
    destruct H0 as (ts & _ & ->). reflexivity.
  - apply (run_keeps Store.backfill_audit) in H; [exact H|].
    intros r0 d0 d0' H0. apply latest_stmt_inv in H0.
    destruct H0 as (ts & _ & ->). reflexivity.
Qed.

(** Within a batch of the backfill the last record of a subscriber wins:
    after both statements, the latest-state row of a subscriber is built
    from the last record of the batch that names it, with no regard to the
    event times of the earlier ones. *)
Theorem last_record_of_batch_wins (env : Backfill.Env) (now : Z)
    (before after : list Backfill.RadiusRecord) (r : Backfill.RadiusRecord)
    (d d' : Store.DB) :
  both_applied env now (before ++ r :: after) d = Some d' ->
  Backfill.msisdn r ∉ map Backfill.msisdn after ->
  exists ts,
    Backfill.timestamptz_in env (Backfill.timestamp r) = Some ts
    /\ Store.latest_traces d' !! Backfill.msisdn r
       = Some (Store.mkLatestRow (Some (Backfill.imsi r))
                 (Some (Backfill.enodeb_id r)) (Some (Backfill.cell_id r))
                 (Some (Backfill.tower_name r)) (Some (Backfill.lat r))
                 (Some (Backfill.lon r)) (Some ts) (Some "backfill")
                 (Some (Backfill.device_model r)) now).
Proof.
  unfold both_applied.
  destruct (run (Backfill.history_stmt env) _ d) as [dh|]; [|discriminate].
  simpl. rewrite run_app.
  destruct (run (Backfill.latest_stmt env now) before dh) as [d1|];
    [|discriminate].
  simpl.
  destruct (Backfill.latest_stmt env now r d1) as [d2|] eqn:E2; [|discriminate].
  simpl. intros H Hk.
  rewrite (latest_run_other _ _ _ _ _ _ H Hk).
  apply latest_stmt_inv in E2. destruct E2 as (ts & Hts & ->).
  exists ts. split; [exact Hts|]. simpl. apply lookup_insert_eq.
Qed.

Lemma last_record_of_batch_wins_witness :
  let older := Backfill.mkRadiusRecord "5926001234" "738010000000001" "4039"
                 "14" "Tower" 0%float 0%float "Nov 04 2026 08:00:00 GMT-04"
                 "Unknown" in
  let last := Backfill.mkRadiusRecord "5926001234" "738010000000001" "4018"
                "13" "Other" 0%float 0%float "Nov 04 2026 08:00:00 GMT-04"
                "Unknown" in
  exists d' ts,
    both_applied Samples.env 5 [older; last] Store.empty_db = Some d'
    /\ Store.latest_traces d' !! "5926001234"
       = Some (Store.mkLatestRow (Some "738010000000001") (Some "4018")
                 (Some "13") (Some "Other") (Some 0%float) (Some 0%float)
                 (Some ts) (Some "backfill") (Some "Unknown") 5).
Proof.
  intros older last.
  assert (E : is_Some (both_applied Samples.env 5 [older; last] Store.empty_db))
    by (vm_compute; eauto).
  destruct E as [d' E].
  destruct (last_record_of_batch_wins Samples.env 5 [older] [] last
              Store.empty_db d' E) as (ts & _ & H).
  - apply not_elem_of_nil.
  - exists d', ts. split; [exact E|exact H].
Defined.

Lemma history_stmt_inv env r d d1 :
  Backfill.history_stmt env r d = Some d1 ->
  exists row,
    Backfill.history_row env r = Some row
    /\ d1 = Store.set_radius_matches
              (Store.insert_history row (Store.radius_matches d)) d.
Proof.
  unfold Backfill.history_stmt.
  destruct (Backfill.history_row env r) as [row|]; [|discriminate].
  simpl. intros [= <-]. eauto.
Qed.

(** Rows of the history that were there, or are put there, stay. *)
Lemma history_present_stays env records :
  forall d d' row,
    run (Backfill.history_stmt env) records d = Some d' ->
    existsb (Store.same_key row) (Store.radius_matches d) = true ->
    existsb (Store.same_key row) (Store.radius_matches d') = true.
Proof.
  induction records as [|r rs IH]; intros d d' row; simpl.
  - intros [= <-]. auto.
  - destruct (Backfill.history_stmt env r d) as [d1|] eqn:E1; [|discriminate].
    apply history_stmt_inv in E1. destruct E1 as (row0 & _ & ->).
    simpl. intros H Hex. eapply IH; [exact H|]. simpl.
    unfold Store.insert_history.
    destruct (existsb (Store.same_key row0) _); [exact Hex|].
    rewrite existsb_app, Hex. reflexivity.
Qed.

Lemma history_run_present env records :
  forall d d',
    run (Backfill.history_stmt env) records d = Some d' ->
    Forall (fun r => exists row,
                Backfill.history_row env r = Some row
                /\ existsb (Store.same_key row) (Store.radius_matches d') = true)
           records.
Proof.
  induction records as [|r rs IH]; intros d d'; simpl; [constructor|].
  destruct (Backfill.history_stmt env r d) as [d1|] eqn:E1; [|discriminate].
  apply history_stmt_inv in E1. destruct E1 as (row0 & E0 & ->).
  simpl. intros H. constructor; [|eapply IH; exact H].
  exists row0. split; [exact E0|].
  eapply history_present_stays; [exact H|]. simpl.
  apply insert_history_conflict.
Qed.

Lemma history_replay_fixed env records :
  forall d,
    Forall (fun r => exists row,
                Backfill.history_row env r = Some row
                /\ existsb (Store.same_key row) (Store.radius_matches d) = true)
           records ->
    run (Backfill.history_stmt env) records d = Some d.
Proof.
  induction records as [|r rs IH]; intros d HF; simpl; [reflexivity|].
  inversion HF as [|? ? (row & Hrow & Hex) HF']; subst.
  assert (E : Backfill.history_stmt env r d = Some d).
  { unfold Backfill.history_stmt. rewrite Hrow. simpl.
    unfold Store.insert_history. rewrite Hex. destruct d. reflexivity. }
  rewrite E. simpl. apply IH. exact HF'.
Qed.

(** Two databases that differ only in rows of [latest_traces] that the
    batch overwrites end up equal. *)
Lemma latest_run_converges env now records :
  forall d1 d2 d1' d2',
    Store.radius_matches d1 = Store.radius_matches d2 ->
    Store.backfill_audit d1 = Store.backfill_audit d2 ->
    (forall k, k ∉ map Backfill.msisdn records ->
               Store.latest_traces d1 !! k = Store.latest_traces d2 !! k) ->
    run (Backfill.latest_stmt env now) records d1 = Some d1' ->
    run (Backfill.latest_stmt env now) records d2 = Some d2' ->
    d1' = d2'.
Proof.
  induction records as [|r rs IH]; intros d1 d2 d1' d2' Hm Ha Hl; simpl.
  - intros [= <-] [= <-]. destruct d1, d2; simpl in *. subst. f_equal.
    apply map_eq. intros k. apply Hl. apply not_elem_of_nil.
  - destruct (Backfill.latest_stmt env now r d1) as [e1|] eqn:E1; [|discriminate].
    destruct (Backfill.latest_stmt env now r d2) as [e2|] eqn:E2; [|discriminate].
    simpl. apply latest_stmt_inv in E1. apply latest_stmt_inv in E2.
    destruct E1 as (ts1 & Ht1 & ->). destruct E2 as (ts2 & Ht2 & ->).
    assert (ts1 = ts2) by congruence. subst ts2.
    apply IH; simpl; auto.
    intros k Hk.
    destruct (decide (k = Backfill.msisdn r)) as [->|Hne].
    + rewrite !lookup_insert_eq. reflexivity.
    + rewrite !lookup_insert_ne by congruence. apply Hl.
      apply not_elem_of_cons. auto.
Qed.

Lemma latest_run_defined env now now' records :
  forall d d' d0,
    run (Backfill.latest_stmt env now) records d = Some d' ->
    is_Some (run (Backfill.latest_stmt env now') records d0).
Proof.
  induction records as [|r rs IH]; intros d d' d0; simpl; [eauto|].
  destruct (Backfill.latest_stmt env now r d) as [e|] eqn:E; [|discriminate].
  simpl. intros H.
  assert (H0 : is_Some (Backfill.latest_stmt env now' r d0)).
  { revert E. unfold Backfill.latest_stmt.
    destruct (Backfill.timestamptz_in env _); [|discriminate]. simpl.
    destruct (_ && _); [eauto|discriminate]. }
  destruct H0 as [e0 ->]. simpl. eapply IH. exact H.
Qed.

(** Replaying a batch is idempotent: once both statements of
    [bulk_insert_records] have been applied, applying them again to the
    result adds no history row, and with the same NOW() leaves the whole
    database as it is. *)
Theorem batch_replay_is_idempotent (env : Backfill.Env) (now now' : Z)
    (records : list Backfill.RadiusRecord) (d d1 : Store.DB) :
  both_applied env now records d = Some d1 ->
  (exists d2, both_applied env now' records d1 = Some d2
              /\ Store.radius_matches d2 = Store.radius_matches d1)
  /\ both_applied env now records d1 = Some d1.
Proof.
  unfold both_applied.
  destruct (run (Backfill.history_stmt env) records d) as [dh|] eqn:Eh;
    [|discriminate].
  simpl. intros El.
  destruct (latest_run_keeps _ _ _ _ _ El) as [Hm Ha].
  assert (Hfix : run (Backfill.history_stmt env) records d1 = Some d1).
  { apply history_replay_fixed.
    eapply Forall_impl; [eapply history_run_present; exact Eh|].
    intros r (row & Hrow & Hex). exists row. split; [exact Hrow|].
    rewrite Hm. exact Hex. }
  rewrite Hfix. simpl. split.
  - destruct (latest_run_defined env now now' records dh d1 d1 El) as [d2 H2].
    exists d2. split; [exact H2|].
    apply latest_run_keeps in H2. tauto.
  - destruct (latest_run_defined env now now records dh d1 d1 El) as [d2 H2].
    rewrite H2. f_equal.
    eapply (latest_run_converges env now records d1 dh); eauto.
    intros k Hk. eapply latest_run_other; eauto.
Qed.

Lemma batch_replay_is_idempotent_witness :
  let record := Backfill.mkRadiusRecord "5926001234" "738010000000001" "4039"
                  "14" "Tower" 0%float 0%float "Nov 04 2026 08:00:00 GMT-04"
                  "Unknown" in
  exists d1,
    both_applied Samples.env 5 [record; record] Store.empty_db = Some d1
    /\ both_applied Samples.env 5 [record; record] d1 = Some d1.
Proof.
  intros record.
  assert (E : is_Some (both_applied Samples.env 5 [record; record]
                         Store.empty_db)) by (vm_compute; eauto).
  destruct E as [d1 E].
  exists d1. split; [exact E|].
  exact (proj2 (batch_replay_is_idempotent Samples.env 5 5 [record; record]
                  Store.empty_db d1 E)).
Defined.

(** ** The guarded upsert of radius_watcher *)

Lemma upsert_watcher_step now m imsi e c ts t k old s :
  t !! k = Some old -> Store.l_timestamp old = Some s ->
  exists new s',
    Store.upsert_watcher now m imsi e c ts t !! k = Some new
    /\ Store.l_timestamp new = Some s' /\ s <= s'
    /\ Store.l_updated_at new = Store.l_updated_at old.
Proof.
  intros Hk Hs. unfold Store.upsert_watcher.
  destruct (decide (m = k)) as [->|Hne].
  - rewrite Hk, Hs. destruct (Z.ltb_spec s ts).
    + rewrite lookup_insert_eq. eexists _, ts. simpl.
      repeat split; try reflexivity; lia.
    + exists old, s. repeat split; auto. lia.
  - destruct (t !! m) as [om|].
    + destruct (Store.l_timestamp om) as [sm|];
        [destruct (sm <? ts)|]; rewrite ?lookup_insert_ne by exact Hne;
        exists old, s; repeat split; auto; lia.
    + rewrite lookup_insert_ne by exact Hne.
      exists old, s. repeat split; auto. lia.
Qed.

(** Under the upserts of [RadiusWatcher.insert_records] the stored event
    time of a subscriber never goes back: over a whole batch, a row that
    had a timestamp still has one, not older, and its [updated_at] is the
    one it had. *)
Theorem watcher_timestamps_never_decrease (now client_now : Z)
    (records : list Parser.RadiusDict) (d d' : Store.DB)
    (k : string) (old : Store.LatestRow) (s : Z) :
  run (Watcher.latest_stmt now client_now) records d = Some d' ->
  Store.latest_traces d !! k = Some old ->
  Store.l_timestamp old = Some s ->
  exists new s',
    Store.latest_traces d' !! k = Some new
    /\ Store.l_timestamp new = Some s' /\ s <= s'
    /\ Store.l_updated_at new = Store.l_updated_at old.
Proof.
  revert d old s. induction records as [|r rs IH]; intros d old s; simpl.
  - intros [= <-] Hk Hs. exists old, s. repeat split; auto. lia.
  - destruct (Watcher.latest_stmt now client_now r d) as [d1|] eqn:E1;
      [|discriminate].
    simpl. intros H Hk Hs.
    unfold Watcher.latest_stmt in E1.
    destruct (Parser.msisdn r) as [m|]; [|discriminate]. simpl in E1.
    destruct (_ && _); [|discriminate]. injection E1 as <-.
    destruct (upsert_watcher_step now m (default EmptyString (Parser.imsi r))
                (RadiusParser.str_or_empty (Parser.enodeb_id r))
                (RadiusParser.str_or_empty (Parser.cell_id r))
                (default client_now (Parser.timestamp r))
                (Store.latest_traces d) k old s Hk Hs)
      as (mid & s1 & Hk1 & Hs1 & Hle1 & Hu1).
    destruct (IH _ mid s1 H Hk1 Hs1) as (new & s' & Hk' & Hs' & Hle' & Hu').
    exists new, s'. repeat split; auto; [lia|congruence].
Qed.

Lemma watcher_timestamps_never_decrease_witness :
  let d := Store.set_latest_traces {[ "5926001234" := Samples.stored_row ]}
             Store.empty_db in
  let older := Parser.mkRadiusDict (Some "5926001234") None None None
                 (Some 4018) (Some 13) (Some 100) None in
  exists d' new s',
    run (Watcher.latest_stmt 300 300) [older] d = Some d'
    /\ Store.latest_traces d' !! "5926001234" = Some new
    /\ Store.l_timestamp new = Some s' /\ 200 <= s'.
Proof.
  intros d older.
  assert (E : is_Some (run (Watcher.latest_stmt 300 300) [older] d))
    by (vm_compute; eauto).
  destruct E as [d' E].
  destruct (watcher_timestamps_never_decrease 300 300 [older] d d'
              "5926001234" Samples.stored_row 200 E)
    as (new & s' & H1 & H2 & H3 & _).
  - apply lookup_singleton_eq.
  - reflexivity.
  - exists d', new, s'. auto.
Defined.

(** ** Records of the tail readers *)

Lemma decode_eci_bounds location_hex info :
  Decoder.decode_eci location_hex = Some info ->
  0 <= Decoder.enodeb_id info < 1048576 /\ 0 <= Decoder.cell_id info < 256.
Proof.
  unfold Decoder.decode_eci. destruct (_ <? 8); [discriminate|].
  destruct (Py.int 16 _) as [eci|]; [|discriminate].
  intros [= <-]. simpl.
  change 1048575 with (Z.ones 20). change 255 with (Z.ones 8).
  rewrite !Z.land_ones by lia.
  split; apply Z.mod_pos_bound; lia.
Qed.

Lemma record_line_ids record line :
  ids_in_range record -> ids_in_range (Parser.record_line record line).
Proof.
  intros H. unfold Parser.record_line.
  repeat case_match; try exact H.
  unfold ids_in_range. simpl.
  eapply decode_eci_bounds. eassumption.
Qed.

Lemma fold_record_line_ids lines :
  forall record,
    ids_in_range record -> ids_in_range (fold_left Parser.record_line lines record).
Proof.
  induction lines as [|l ls IH]; intros record H; simpl; [exact H|].
  apply IH. apply record_line_ids. exact H.
Qed.

(** Every record [parse_radius_record] hands out has a subscriber id that
    is not empty, a station id between 1 and 2^20 - 1 -- station 0 makes
    the record void -- and a sector id between 0 and 255. *)
Theorem parse_radius_record_ids (lines : list string)
    (record : Parser.RadiusDict) :
  Parser.parse_radius_record lines = Some record ->
  exists m e c,
    Parser.msisdn record = Some m /\ m <> EmptyString
    /\ Parser.enodeb_id record = Some e /\ 1 <= e < 1048576
    /\ Parser.cell_id record = Some c /\ 0 <= c < 256.
Proof.
  unfold Parser.parse_radius_record.
  pose proof (fold_record_line_ids lines Parser.empty_dict I) as Hids.
  destruct (fold_left Parser.record_line lines Parser.empty_dict)
    as [m ip im ie e c ts stt].
  unfold ids_in_range in Hids. simpl in *.
  destruct m as [m|]; simpl; [|discriminate].
  destruct e as [e|]; simpl; [|rewrite andb_false_r; discriminate].
  destruct c as [c|]; [|contradiction].
  destruct (String.eqb_spec m ""); simpl; [discriminate|].
  destruct (Z.eqb_spec e 0); simpl; [discriminate|].
  intros [= <-]. exists m, e, c. simpl. repeat split; auto; lia.
Qed.

Lemma parse_radius_record_ids_witness :
  exists m e c,
    Parser.msisdn (Samples.tail_record "5926001234") = Some m
    /\ m <> EmptyString
    /\ Parser.enodeb_id (Samples.tail_record "5926001234") = Some e
    /\ 1 <= e < 1048576
    /\ Parser.cell_id (Samples.tail_record "5926001234") = Some c
    /\ 0 <= c < 256.
Proof.
  apply (parse_radius_record_ids
           (Parser.readlines
              (Samples.tail_block "Wed Nov  4 12:00:00 2026" "5926001234"))).
  vm_compute. reflexivity.
Defined.

Lemma old_scan_lines_acc lines :
  forall buffer records,
    WatcherOld.scan_lines lines buffer records
    = ((WatcherOld.scan_lines lines buffer []).1,
       (records ++ (WatcherOld.scan_lines lines buffer []).2)%list).
Proof.
  induction lines as [|l ls IH]; intros buffer records; simpl.
  - rewrite app_nil_r. reflexivity.
  - destruct (Parser.is_header l); [|apply IH].
    destruct buffer as [|b bs]; [apply IH|].
    destruct (Parser.parse_radius_record (b :: bs)) as [parsed|]; [|apply IH].
    rewrite IH, (IH _ [parsed]). simpl. rewrite <- app_assoc. reflexivity.
Qed.

Lemma parse_radius_record_truthy lines parsed :
  Parser.parse_radius_record lines = Some parsed ->
  Parser.truthy_str (Parser.msisdn parsed)
  && Parser.truthy_int (Parser.enodeb_id parsed) = true.
Proof.
  unfold Parser.parse_radius_record.
  destruct (_ && _) eqn:E; [|discriminate]. intros [= <-]. exact E.
Qed.

(** The three readers of detail files agree on the records: on any lines
    and any open block, [RadiusWatcher.process_file] collects exactly the
    records that the handler of radius_watcher_old collects (its second
    test of msisdn and enodeb_id never rejects anything), and
    [parse_radius_file] yields those records followed by what the block
    left open at the end parses to. *)
Theorem tail_readers_agree (lines current records : list _) :
  Watcher.scan_lines lines current records
  = (WatcherOld.scan_lines lines current records).2
  /\ RadiusParser.parse_lines lines current
     = ((WatcherOld.scan_lines lines current []).2
        ++ RadiusParser.parse_lines [] (WatcherOld.scan_lines lines current []).1)%list.
Proof.
  split.
  - revert current records.
    induction lines as [|l ls IH]; intros current records; simpl;
      [reflexivity|].
    destruct (Parser.is_header l); [|apply IH].
    destruct current as [|b bs]; [apply IH|].
    destruct (Parser.parse_radius_record (b :: bs)) as [parsed|] eqn:E;
      [|apply IH].
    rewrite (parse_radius_record_truthy _ _ E). apply IH.
  - revert current.
    induction lines as [|l ls IH]; intros current; simpl; [reflexivity|].
    destruct (Parser.is_header l); [|apply IH].
    destruct current as [|b bs]; [apply IH|].
    destruct (Parser.parse_radius_record (b :: bs)) as [parsed|]; [|apply IH].
    rewrite (old_scan_lines_acc ls [] [parsed]). simpl. f_equal. apply IH.
Qed.

(** ** Records of the backfill *)

(** A record that [build_record] returns satisfies the invariant of the
    model: its subscriber id is the trimmed Calling-Station-Id and has at
    least 10 characters, its IMSI is the trimmed 3GPP-IMSI or else
    User-Name, station and sector are the decimal texts of a location that
    [process_location] decoded with a tower name and coordinates, its
    timestamp is what [process_timestamp] made of the trimmed
    Event-Timestamp and parses in the local format, and the device model is
    "Unknown" exactly as long as there is no IMEISV to look up. *)
Theorem build_record_invariant (env : Backfill.Env) (now : Z)
    (entry : gmap string string) (r : Backfill.RadiusRecord) :
  Backfill.build_record env now entry = Some r ->
  Backfill.msisdn r = Py.strip (Backfill.get_str entry "Calling-Station-Id")
  /\ 10 <= Py.len (Backfill.msisdn r)
  /\ Backfill.imsi r = Py.strip (Backfill.get_or entry "3GPP-IMSI" "User-Name")
  /\ (exists location,
        Backfill.process_location env
          (Py.strip (Backfill.get_str entry "3GPP-User-Location-Info"))
        = Some location
        /\ Backfill.enodeb_id r = pretty (Backfill.loc_enodeb location)
        /\ Backfill.cell_id r = pretty (Backfill.loc_cell location)
        /\ Backfill.loc_tower location = Some (Backfill.tower_name r)
        /\ Backfill.loc_lat location = Some (Backfill.lat r)
        /\ Backfill.loc_lon location = Some (Backfill.lon r))
  /\ Backfill.process_timestamp env now
       (Py.strip (Backfill.get_str entry "Event-Timestamp"))
     = Some (Backfill.timestamp r)
  /\ is_Some (Backfill.strptime env Backfill.FMT_LOCAL (Backfill.timestamp r))
  /\ Backfill.device_model r
     = (if String.eqb (Py.strip (Backfill.get_str entry "3GPP-IMEISV")) ""
        then "Unknown"
        else Backfill.lookup_device_model env
               (Py.take 8 (Py.strip (Backfill.get_str entry "3GPP-IMEISV")))).
Proof.
  unfold Backfill.build_record.
  destruct (_ || _); [discriminate|].
  destruct (Backfill.process_timestamp env now _) as [timestamp|] eqn:Ets;
    [|discriminate].
  destruct (String.eqb timestamp ""); [discriminate|].
  destruct (Backfill.process_location env _) as [location|] eqn:Eloc;
    [|discriminate].
  unfold Backfill.validate_msisdn, Backfill.validate_timestamp.
  destruct (String.eqb_spec (Py.strip (Backfill.get_str entry "Calling-Station-Id")) "");
    simpl; [discriminate|].
  destruct (Z.ltb_spec (Py.len (Py.strip (Backfill.get_str entry "Calling-Station-Id"))) 10);
    simpl; [discriminate|].
  destruct (Backfill.loc_tower location) as [tower|] eqn:Etw; simpl;
    [|discriminate].
  destruct (Backfill.loc_lat location) as [lat|] eqn:Elat; simpl;
    [|discriminate].
  destruct (Backfill.loc_lon location) as [lon|] eqn:Elon; simpl;
    [|discriminate].
  destruct (Backfill.strptime env Backfill.FMT_LOCAL timestamp) as [t|] eqn:Ev;
    simpl; [|discriminate].
  intros [= <-]. simpl.
  repeat split; eauto 10.
Qed.

Lemma build_record_invariant_witness :
  10 <= Py.len "5926001234"
  /\ is_Some (Backfill.strptime Samples.env Backfill.FMT_LOCAL
                "Nov 04 2026 08:00:00 GMT-04").
Proof.
  destruct (build_record_invariant Samples.env Samples.now
              (Parser.parse_entry (Samples.entry_lines "5926001234"))
              (Backfill.mkRadiusRecord "5926001234" "738010000000001" "4039"
                 "14" "Tower" 0%float 0%float "Nov 04 2026 08:00:00 GMT-04"
                 "Unknown"))
    as (_ & H1 & _ & _ & _ & H2 & _).
  - vm_compute. reflexivity.
  - split; [exact H1|exact H2].
Defined.

(** ** Counting in radius_parser *)

Lemma write_batch_spec batch w w' r :
  Sys.tx w = None ->
  RadiusParser.write_batch batch w = (w', r) ->
  Sys.tx w' = None.
Proof.
  intros Htx. unfold RadiusParser.write_batch, Sys.bind.
  destruct (RadiusParser.upsert_latest_traces batch w) as [w1 r1] eqn:E1.
  destruct (upsert_latest_traces_spec _ _ _ _ Htx E1) as (_ & Htx1 & _).
  destruct r1 as [n1|e1]; [|intros [= <- <-]; exact Htx1].
  destruct (RadiusParser.insert_radius_history batch w1) as [w2 r2] eqn:E2.
  destruct (insert_radius_history_spec _ _ _ _ Htx1 E2) as (_ & Htx2 & _).
  destruct r2 as [n2|e2]; intros [= <- <-]; exact Htx2.
Qed.

Lemma write_batch_quiet batch w :
  Sys.faults w = [] ->
  exists w' inserted,
    RadiusParser.write_batch batch w = (w', Returned inserted)
    /\ Sys.faults w' = [].
Proof.
  intros Hf. unfold RadiusParser.write_batch, Sys.bind.
  destruct (upsert_latest_traces_quiet batch w Hf) as (w1 & n1 & -> & Hf1).
  destruct (insert_radius_history_quiet batch w1 Hf1) as (w2 & n2 & -> & Hf2).
  unfold Sys.ret. eauto.
Qed.

(** The batch loop of [radius_parser.process_file], started without an
    open transaction, counts every record as processed, also those of a
    batch whose write failed and was rolled back: whenever it returns, the
    first total has grown by the number of records buffered and still to
    come, and no transaction is open. It can raise, the rollbacks of the two
    writes being unguarded; but as long as no call to the server fails for
    the connection it returns, whatever statements the server rejects. *)
Theorem parser_counts_every_record (batch_size : nat)
    (records batch : list Parser.RadiusDict) (totals : Z * Z) (w : Sys.World) :
  Sys.tx w = None ->
  (forall w' t,
      RadiusParser.process_records batch_size records batch totals w
      = (w', Returned t) ->
      t.1 = totals.1 + Z.of_nat (length batch) + Z.of_nat (length records)
      /\ Sys.tx w' = None)
  /\ (Sys.faults w = [] ->
      exists w' t,
        RadiusParser.process_records batch_size records batch totals w
        = (w', Returned t)
        /\ Sys.faults w' = []).
Proof.
  revert batch totals w.
  induction records as [|r rs IH]; intros batch totals w Htx; simpl.
  - destruct batch as [|b bs].
    + split.
      * unfold Sys.ret. intros w' t [= <- <-]. split; [simpl; lia|exact Htx].
      * intros Hf. exists w, totals. auto.
    + split.
      * intros w' t. unfold Sys.bind.
        destruct (RadiusParser.write_batch (b :: bs) w) as [w1 [ins|e]] eqn:E;
          [|discriminate].
        unfold Sys.ret. intros [= <- <-]. simpl. split; [lia|].
        eapply write_batch_spec; eauto.
      * intros Hf. unfold Sys.bind.
        destruct (write_batch_quiet (b :: bs) w Hf) as (w1 & ins & -> & Hf1).
        unfold Sys.ret. eauto.
  - destruct (batch_size <=? length (batch ++ [r]))%nat.
    + split.
      * intros w' t. unfold Sys.bind.
        destruct (RadiusParser.write_batch (batch ++ [r]) w)
          as [w1 [ins|e]] eqn:E; [|discriminate].
        intros E'.
        apply (IH [] _ w1 (write_batch_spec _ _ _ _ Htx E)) in E'.
        destruct E' as [-> Htx']. split; [|exact Htx'].
        simpl. rewrite length_app. simpl. lia.
      * intros Hf. unfold Sys.bind.
        destruct (write_batch_quiet (batch ++ [r])%list w Hf)
          as (w1 & ins & E & Hf1).
        rewrite E.
        apply (IH [] _ w1 (write_batch_spec _ _ _ _ Htx E)). exact Hf1.
    + split.
      * intros w' t E'. apply (IH _ _ w Htx) in E'.
        destruct E' as [-> Htx']. split; [|exact Htx'].
        rewrite length_app. simpl. lia.
      * intros Hf. apply (IH _ _ w Htx). exact Hf.
Qed.

Lemma parser_counts_every_record_witness :
  let records := [Samples.tail_record "5926001234";
                  Samples.tail_record "5926001235"] in
  let w := Samples.world EmptyString None [true] in
  (RadiusParser.process_records 1 records [] (0, 0) w).2 = Returned (2, 1)
  /\ 2 = 0 + Z.of_nat 0 + Z.of_nat (length records).
Proof.
  intros records w. split; [vm_compute; reflexivity|].
  apply (proj1 (parser_counts_every_record 1 records [] (0, 0) w eq_refl)
           (RadiusParser.process_records 1 records [] (0, 0) w).1 (2, 1)).
  vm_compute. reflexivity.
Defined.

(** ** Discovering the files *)

Lemma insert_sorted_In x y l : In y (Backfill.insert_sorted x l) <-> y = x \/ In y l.
Proof.
  induction l as [|z l IH]; simpl; [intuition|].
  destruct (String.leb x z); simpl; [intuition|].
  rewrite IH. intuition.
Qed.

Lemma sorted_In y l : In y (Backfill.sorted l) <-> In y l.
Proof.
  unfold Backfill.sorted. induction l as [|x l IH]; simpl; [reflexivity|].
  rewrite insert_sorted_In, IH. intuition.
Qed.

Lemma insert_sorted_Sorted x l :
  Sorted (fun a b => String.leb a b = true) l ->
  Sorted (fun a b => String.leb a b = true) (Backfill.insert_sorted x l).
Proof.
  induction l as [|z l IH]; intros Hs; simpl.
  - repeat constructor.
  - destruct (String.leb x z) eqn:E.
    + constructor; [exact Hs|constructor; exact E].
    + inversion Hs as [|? ? Hs' Hd]; subst.
      constructor; [apply IH; exact Hs'|].
      assert (Hzx : String.leb z x = true).
      { destruct (String.leb_total x z); congruence. }
      destruct l as [|u l]; simpl.
      * constructor. exact Hzx.
      * destruct (String.leb x u); constructor; [exact Hzx|].
        inversion Hd; assumption.
Qed.

Lemma sorted_Sorted l :
  Sorted (fun a b => String.leb a b = true) (Backfill.sorted l).
Proof.
  unfold Backfill.sorted. induction l as [|x l IH]; simpl; [constructor|].
  apply insert_sorted_Sorted. exact IH.
Qed.

Lemma lookup_child_found ip name content children :
  In (name, Sys.RegularFile content) children ->
  is_Some (IO.lookup_child Backfill.Config.LOG_DIR ip
             (IO.join Backfill.Config.LOG_DIR ip name) children).
Proof.
  induction children as [|[n c] cs IH]; intros Hin; [destruct Hin|].
  simpl. destruct Hin as [[= -> ->]|Hin].
  - rewrite String.eqb_refl. eauto.
  - destruct c; [|auto]. destruct (String.eqb _ _); eauto.
Qed.

Lemma lookup_path_found ip name content children tree :
  In (ip, Sys.Directory children) tree ->
  In (name, Sys.RegularFile content) children ->
  is_Some (IO.lookup_path Backfill.Config.LOG_DIR
             (IO.join Backfill.Config.LOG_DIR ip name) tree).
Proof.
  intros Hd Hc. induction tree as [|[i e] rest IH]; [destruct Hd|].
  simpl. destruct Hd as [[= -> ->]|Hd].
  - destruct (lookup_child_found ip name content children Hc) as [s ->].
    eauto.
  - destruct e as [cs|]; [|auto].
    destruct (IO.lookup_child _ _ _ cs); eauto.
Qed.

Lemma matched_files_In today ip children p :
  In p (Backfill.matched_files today ip children) ->
  exists name content,
    In (name, Sys.RegularFile content) children
    /\ p = IO.join Backfill.Config.LOG_DIR ip name
    /\ Py.startswith (Backfill.Config.DETAIL_PREFIX ++ today) name = true.
Proof.
  unfold Backfill.matched_files. rewrite in_flat_map.
  intros ([name c] & Hin & Hp). destruct c as [content|]; [|destruct Hp].
  destruct (Py.startswith _ name) eqn:E; [|destruct Hp].
  destruct Hp as [<-|[]]. eauto.
Qed.

(** What the scan of [get_all_log_files] lists: for every source it names,
    a list of paths that is not empty and is in ascending order; and every
    path listed is that of a regular file of that source's directory whose
    name starts with "detail-" and today's date stamp, so that it can be
    opened. *)
Theorem scan_lists_todays_files (today : string)
    (tree : list (string * Sys.Entry)) (ip : string) (files : list string) :
  In (ip, files) (Backfill.scan today tree) ->
  files <> []
  /\ Sorted (fun a b => String.leb a b = true) files
  /\ (forall p, In p files ->
        exists name,
          p = IO.join Backfill.Config.LOG_DIR ip name
          /\ Py.startswith (Backfill.Config.DETAIL_PREFIX ++ today) name = true
          /\ is_Some (IO.lookup_path Backfill.Config.LOG_DIR p tree)).
Proof.
  induction tree as [|[i e] rest IH]; simpl; [intros []|].
  assert (Hrest : In (ip, files) (Backfill.scan today rest) ->
                  files <> []
                  /\ Sorted (fun a b => String.leb a b = true) files
                  /\ (forall p, In p files ->
                        exists name,
                          p = IO.join Backfill.Config.LOG_DIR ip name
                          /\ Py.startswith (Backfill.Config.DETAIL_PREFIX ++ today)
                               name = true
                          /\ is_Some (IO.lookup_path Backfill.Config.LOG_DIR p
                                        ((i, e) :: rest)))).
  { intros H. destruct (IH H) as (H1 & H2 & H3). repeat split; auto.
    intros p Hp. destruct (H3 p Hp) as (name & -> & Hs & Hl).
    exists name. repeat split; auto. simpl.
    destruct e as [cs|]; [|exact Hl].
    destruct (IO.lookup_child _ _ _ cs); eauto. }
  destruct e as [children|]; [|exact Hrest].
  destruct (Backfill.matched_files today i children) as [|m ms] eqn:Em;
    [exact Hrest|].
  intros [H|H]; [|exact (Hrest H)].
  injection H as <- Hf.
  change (Backfill.sorted (m :: ms) = files) in Hf. subst files.
  split; [|split].
  - intros Hnil.
    assert (Hin : In m (Backfill.sorted (m :: ms)))
      by (apply sorted_In; left; reflexivity).
    rewrite Hnil in Hin. destruct Hin.
  - apply sorted_Sorted.
  - intros p Hp. apply (proj1 (sorted_In _ _)) in Hp. rewrite <- Em in Hp.
    apply matched_files_In in Hp.
    destruct Hp as (name & content & Hin & -> & Hs).
    exists name. repeat split; auto.
    exact (lookup_path_found i name content children
             ((i, Sys.Directory children) :: rest) (or_introl eq_refl) Hin).
Qed.

Lemma scan_lists_todays_files_witness :
  [Samples.path] <> []
  /\ Sorted (fun a b => String.leb a b = true) [Samples.path].
Proof.
  destruct (scan_lists_todays_files "20261104"
              (Sys.radacct (Samples.world EmptyString None []))
              "10.20.50.67" [Samples.path]) as (H1 & H2 & _).
  - vm_compute. left. reflexivity.
  - split; [exact H1|exact H2].
Defined.

(** ** Text of the progress file and of the detail files *)

Lemma readlines_cons c s :
  Parser.readlines (String c s)
  = if Ascii.eqb c Parser.newline
    then String Parser.newline EmptyString :: Parser.readlines s
    else if Ascii.eqb c Parser.cr then
      match s with
      | String c' s'' =>
          if Ascii.eqb c' Parser.newline
          then String Parser.newline EmptyString :: Parser.readlines s''
          else String Parser.newline EmptyString :: Parser.readlines s
      | EmptyString => [String Parser.newline EmptyString]
      end
    else match Parser.readlines s with
         | [] => [String c EmptyString]
         | l :: ls => String c l :: ls
         end.
Proof. reflexivity. Qed.

Lemma readlines_nil s : Parser.readlines s = [] -> s = EmptyString.
Proof.
  destruct s as [|c s]; [reflexivity|]. rewrite readlines_cons.
  destruct (Ascii.eqb c Parser.newline); [discriminate|].
  destruct (Ascii.eqb c Parser.cr).
  - destruct s as [|c' s'']; [discriminate|].
    destruct (Ascii.eqb c' Parser.newline); discriminate.
  - destruct (Parser.readlines s); discriminate.
Qed.

Lemma complete_lines_cons c c' s :
  complete_lines (String c (String c' s)) = complete_lines (String c' s).
Proof. reflexivity. Qed.

Lemma readlines_app_bounded (n : nat) :
  forall a b,
    (String.length a <= n)%nat ->
    complete_lines a = true ->
    Parser.readlines (a ++ b) = (Parser.readlines a ++ Parser.readlines b)%list.
Proof.
  induction n as [|n IH]; intros a b Hn Ha.
  - destruct a; [reflexivity|simpl in Hn; lia].
  - destruct a as [|c a]; [reflexivity|].
    change (String c a ++ b) with (String c (a ++ b)).
    rewrite !readlines_cons.
    destruct a as [|c' a'].
    + simpl in Ha. rewrite Ha. reflexivity.
    + rewrite complete_lines_cons in Ha.
      assert (IHa : Parser.readlines (String c' a' ++ b)
                    = (Parser.readlines (String c' a') ++ Parser.readlines b)%list)
        by (apply IH; [simpl in *; lia|exact Ha]).
      destruct (Ascii.eqb c Parser.newline); [rewrite IHa; reflexivity|].
      destruct (Ascii.eqb c Parser.cr).
      * change (String c' a' ++ b) with (String c' (a' ++ b)). cbv iota.
        destruct (Ascii.eqb c' Parser.newline) eqn:Ec'.
        -- destruct a' as [|c'' a'']; [reflexivity|].
           rewrite complete_lines_cons in Ha.
           rewrite (IH (String c'' a'') b); [reflexivity|simpl in *; lia|exact Ha].
        -- change (String c' (a' ++ b)) with (String c' a' ++ b).
           rewrite IHa. reflexivity.
      * rewrite IHa.
        destruct (Parser.readlines (String c' a')) as [|l ls] eqn:E;
          [apply readlines_nil in E; discriminate|].
        reflexivity.
Qed.

Lemma readlines_app a b :
  complete_lines a = true ->
  Parser.readlines (a ++ b) = (Parser.readlines a ++ Parser.readlines b)%list.
Proof. apply (readlines_app_bounded (String.length a)). reflexivity. Qed.

Lemma string_forall_app p a b :
  string_forall p (a ++ b) = string_forall p a && string_forall p b.
Proof.
  induction a as [|c a IH]; simpl; [reflexivity|].
  rewrite IH, andb_assoc. reflexivity.
Qed.

Lemma string_forall_impl (p q : ascii -> bool) s :
  (forall c, p c = true -> q c = true) ->
  string_forall p s = true -> string_forall q s = true.
Proof.
  intros Hpq. induction s as [|c s IH]; simpl; [reflexivity|].
  intros [Hc Hs]%andb_true_iff. rewrite (Hpq c Hc), (IH Hs). reflexivity.
Qed.

Lemma complete_lines_app a b :
  complete_lines a = true -> complete_lines b = true ->
  complete_lines (a ++ b) = true.
Proof.
  intros Ha Hb. induction a as [|c a IH]; [exact Hb|].
  change (String c a ++ b) with (String c (a ++ b)).
  destruct a as [|c' a'].
  - simpl in *. destruct b; [exact Ha|exact Hb].
  - specialize (IH Ha). simpl in *. exact IH.
Qed.

Lemma complete_lines_line s :
  complete_lines (s ++ String Parser.newline EmptyString) = true.
Proof.
  induction s as [|c s IH]; [reflexivity|].
  change (String c s ++ ?b) with (String c (s ++ b)).
  destruct s; [reflexivity|]. exact IH.
Qed.

Lemma readlines_line s :
  string_forall (fun c => negb (Ascii.eqb c Parser.newline)
                          && negb (Ascii.eqb c Parser.cr)) s = true ->
  Parser.readlines (s ++ String Parser.newline EmptyString)
  = [s ++ String Parser.newline EmptyString].
Proof.
  induction s as [|c s IH]; [reflexivity|].
  intros Hs. simpl in Hs. apply andb_true_iff in Hs as [Hc Hs].
  apply andb_true_iff in Hc as [Hn Hr].
  apply negb_true_iff in Hn. apply negb_true_iff in Hr.
  change (String c s ++ ?r) with (String c (s ++ r)).
  rewrite readlines_cons, Hn, Hr, (IH Hs). reflexivity.
Qed.

Lemma rstrip_with_line p s c :
  string_forall (fun a => negb (p a)) s = true -> p c = true ->
  Py.rstrip_with p (s ++ String c EmptyString) = s.
Proof.
  intros Hs Hc. induction s as [|a s IH]; simpl.
  - rewrite Hc. reflexivity.
  - simpl in Hs. apply andb_true_iff in Hs as [Ha Hs].
    apply negb_true_iff in Ha. rewrite (IH Hs).
    destruct s; [rewrite Ha|]; reflexivity.
Qed.

Lemma rstrip_with_id p s :
  string_forall (fun a => negb (p a)) s = true -> Py.rstrip_with p s = s.
Proof.
  induction s as [|a s IH]; simpl; [reflexivity|].
  intros [Ha Hs]%andb_true_iff. apply negb_true_iff in Ha. rewrite (IH Hs).
  destruct s; [rewrite Ha|]; reflexivity.
Qed.

Lemma lstrip_with_id p s :
  string_forall (fun a => negb (p a)) s = true -> Py.lstrip_with p s = s.
Proof.
  destruct s as [|a s]; simpl; [reflexivity|].
  intros [Ha Hs]%andb_true_iff. apply negb_true_iff in Ha. rewrite Ha.
  reflexivity.
Qed.

Lemma split_plain sep s :
  string_forall (fun c => negb (Ascii.eqb c sep)) s = true ->
  Py.split sep s = [s].
Proof.
  induction s as [|c s IH]; simpl; [reflexivity|].
  intros [Hc Hs]%andb_true_iff. apply negb_true_iff in Hc.
  rewrite Hc, (IH Hs). reflexivity.
Qed.

Lemma split_app sep a b :
  string_forall (fun c => negb (Ascii.eqb c sep)) a = true ->
  Py.split sep (a ++ String sep b) = a :: Py.split sep b.
Proof.
  induction a as [|c a IH]; simpl.
  - rewrite Ascii.eqb_refl. reflexivity.
  - intros [Hc Hs]%andb_true_iff. apply negb_true_iff in Hc.
    rewrite Hc, (IH Hs). reflexivity.
Qed.

Lemma pretty_N_char_digit d :
  (d < 10)%N ->
  is_digit (pretty_N_char d) = true
  /\ Py.digit_value (pretty_N_char d) = Some (Z.of_N d).
Proof.
  intros Hd.
  assert (d = 0 \/ d = 1 \/ d = 2 \/ d = 3 \/ d = 4 \/ d = 5 \/ d = 6
          \/ d = 7 \/ d = 8 \/ d = 9)%N as H by lia.
  repeat (destruct H as [->|H]; [split; reflexivity|]).
  subst d. split; reflexivity.
Qed.

Lemma is_digit_plain c :
  is_digit c = true ->
  Py.isspace c = false /\ Ascii.eqb c Backfill.pipe = false
  /\ Ascii.eqb c Py.underscore = false
  /\ Ascii.eqb c Parser.newline = false.
Proof.
  destruct c as [[] [] [] [] [] [] [] []]; vm_compute; intros H;
    try discriminate H; repeat split.
Qed.

Lemma isspace_int_space c : Py.isspace c = false -> Py.int_space c = false.
Proof.
  destruct c as [[] [] [] [] [] [] [] []]; vm_compute; intros H;
    try discriminate H; reflexivity.
Qed.

Lemma isspace_cr c : Py.isspace c = false -> Ascii.eqb c Parser.cr = false.
Proof.
  destruct c as [[] [] [] [] [] [] [] []]; vm_compute; intros H;
    try discriminate H; reflexivity.
Qed.

Lemma digit_count_digits s :
  string_forall is_digit s = true -> Py.digit_count s = String.length s.
Proof.
  induction s as [|c s IH]; [reflexivity|].
  intros Hs. simpl in Hs. apply andb_true_iff in Hs as [Hc Hs].
  destruct (is_digit_plain c Hc) as (_ & _ & Hu & _).
  cbn [Py.digit_count String.length]. rewrite Hu, (IH Hs). reflexivity.
Qed.

Lemma pretty_N_go_length_le x :
  forall s n, (x < 10 ^ N.of_nat n)%N ->
              (String.length (pretty_N_go x s) <= n + String.length s)%nat.
Proof.
  induction (N.lt_wf_0 x) as [x _ IH]; intros s n Hx.
  assert (x = 0 \/ 0 < x)%N as [->|Hpos] by lia;
    [rewrite pretty_N_go_0; lia|].
  destruct n as [|n]; [simpl in Hx; lia|].
  rewrite pretty_N_go_step by exact Hpos.
  rewrite Nat2N.inj_succ, N.pow_succ_r' in Hx.
  etransitivity;
    [apply (IH (x `div` 10)%N); [apply N.div_lt; lia|
       apply N.Div0.div_lt_upper_bound; exact Hx]|].
  simpl. lia.
Qed.

Lemma pretty_N_go_digits x :
  forall s, string_forall is_digit s = true ->
            string_forall is_digit (pretty_N_go x s) = true.
Proof.
  induction (N.lt_wf_0 x) as [x _ IH]; intros s Hs.
  assert (x = 0 \/ 0 < x)%N as [->|Hx] by lia; [exact Hs|].
  rewrite pretty_N_go_step by exact Hx.
  apply IH; [apply N.div_lt; lia|]. simpl. rewrite Hs, andb_true_r.
  apply pretty_N_char_digit. apply N.mod_lt. discriminate.
Qed.

Lemma pretty_N_go_length x :
  forall s, (String.length s <= String.length (pretty_N_go x s))%nat.
Proof.
  induction (N.lt_wf_0 x) as [x _ IH]; intros s.
  assert (x = 0 \/ 0 < x)%N as [->|Hx] by lia; [reflexivity|].
  rewrite pretty_N_go_step by exact Hx.
  etransitivity; [|apply IH; apply N.div_lt; lia]. simpl. lia.
Qed.

Lemma pretty_N_go_value x :
  forall s, Py.int_digits 10 (pretty_N_go x s) 0 false
            = Py.int_digits 10 s (Z.of_N x) false.
Proof.
  induction (N.lt_wf_0 x) as [x _ IH]; intros s.
  assert (x = 0 \/ 0 < x)%N as [->|Hx] by lia; [reflexivity|].
  rewrite pretty_N_go_step by exact Hx.
  rewrite IH by (apply N.div_lt; lia).
  assert (Hm : (x mod 10 < 10)%N) by (apply N.mod_lt; discriminate).
  destruct (pretty_N_char_digit _ Hm) as [Hd Hv].
  destruct (is_digit_plain _ Hd) as (_ & _ & Hu & _).
  cbn [Py.int_digits]. rewrite Hu, Hv.
  replace (Z.of_N (x mod 10) <? 10) with true by (symmetry; apply Z.ltb_lt; lia).
  f_equal. rewrite (N.div_mod x 10) at 3 by discriminate. lia.
Qed.

Lemma int_digits_string s :
  string_forall is_digit s = true -> s <> EmptyString ->
  (String.length s <= Py.MAX_STR_DIGITS)%nat ->
  forall n, Py.int_digits 10 s 0 false = Some n -> Py.int 10 s = Some n.
Proof.
  intros Hs Hne Hlen n Hn. unfold Py.int, Py.strip_with.
  assert (Hsp : string_forall (fun a => negb (Py.int_space a)) s = true).
  { eapply string_forall_impl; [|exact Hs].
    intros c Hc. destruct (is_digit_plain c Hc) as [H _].
    rewrite (isspace_int_space c H). reflexivity. }
  rewrite (rstrip_with_id _ _ Hsp), (lstrip_with_id _ _ Hsp).
  assert (Hu : Py.int_unsigned 10 s = Some n).
  { unfold Py.int_unsigned, Py.int_magnitude. simpl (10 =? 16). simpl andb.
    cbv iota. rewrite (digit_count_digits s Hs).
    destruct s as [|c s]; [congruence|].
    pose proof Hs as Hs'. simpl in Hs'. apply andb_true_iff in Hs' as [Hc _].
    destruct (is_digit_plain c Hc) as (_ & _ & -> & _).
    replace (Py.MAX_STR_DIGITS <? String.length (String c s))%nat with false
      by (symmetry; apply Nat.ltb_ge; exact Hlen).
    exact Hn. }
  destruct s as [|c s]; [congruence|].
  simpl in Hs. apply andb_true_iff in Hs as [Hc _].
  destruct c as [[] [] [] [] [] [] [] []]; try discriminate Hc; exact Hu.
Qed.

Lemma pretty_pos_spec (x : positive) :
  Z.pos x < 10 ^ Z.of_nat Py.MAX_STR_DIGITS ->
  string_forall is_digit (pretty (N.pos x)) = true
  /\ Py.int 10 (pretty (N.pos x)) = Some (Z.pos x).
Proof.
  intros Hx. unfold pretty, pretty_N.
  destruct (decide (N.pos x = 0%N)); [discriminate|].
  assert (Hd : string_forall is_digit (pretty_N_go (N.pos x) EmptyString) = true)
    by (apply pretty_N_go_digits; reflexivity).
  split; [exact Hd|].
  apply int_digits_string; [exact Hd| | |].
  - rewrite pretty_N_go_step by reflexivity. intros H.
    pose proof (pretty_N_go_length (N.pos x `div` 10)
                  (String (pretty_N_char (N.pos x `mod` 10)) EmptyString)) as Hl.
    rewrite H in Hl. simpl in Hl. lia.
  - pose proof (pretty_N_go_length_le (N.pos x) EmptyString Py.MAX_STR_DIGITS)
      as Hl.
    rewrite Nat.add_0_r in Hl. apply Hl.
    apply N2Z.inj_lt. rewrite N2Z.inj_pow, nat_N_Z. exact Hx.
  - rewrite pretty_N_go_value. reflexivity.
Qed.

Lemma int_pretty (z : Z) :
  Z.abs z < 10 ^ Z.of_nat Py.MAX_STR_DIGITS ->
  Py.int 10 (pretty z) = Some z
  /\ string_forall (fun c => negb (Py.isspace c) && negb (Ascii.eqb c Backfill.pipe)
                             && negb (Ascii.eqb c Parser.newline))
       (pretty z) = true.
Proof.
  intros Hz.
  assert (Hplain : forall s, string_forall is_digit s = true ->
            string_forall (fun c => negb (Py.isspace c)
                                    && negb (Ascii.eqb c Backfill.pipe)
                                    && negb (Ascii.eqb c Parser.newline)) s = true).
  { intros s. apply string_forall_impl. intros c Hc.
    destruct (is_digit_plain c Hc) as (-> & -> & _ & ->). reflexivity. }
  destruct z as [|x|x].
  - split; reflexivity.
  - destruct (pretty_pos_spec x Hz) as [Hd Hi]. split; [exact Hi|].
    apply Hplain. exact Hd.
  - destruct (pretty_pos_spec x Hz) as [Hd Hi].
    change (pretty (Z.neg x)) with (String "-" (pretty (N.pos x))).
    split.
    + unfold Py.int, Py.strip_with.
      assert (Hsp' : string_forall (fun a => negb (Py.int_space a))
                       (pretty (N.pos x)) = true).
      { eapply string_forall_impl; [|exact Hd].
        intros c Hc. destruct (is_digit_plain c Hc) as [H _].
        rewrite (isspace_int_space c H). reflexivity. }
      assert (Hsp : string_forall (fun a => negb (Py.int_space a))
                      (String "-" (pretty (N.pos x))) = true).
      { simpl. exact Hsp'. }
      rewrite (rstrip_with_id _ _ Hsp), (lstrip_with_id _ _ Hsp).
      revert Hi. unfold Py.int, Py.strip_with.
      rewrite (rstrip_with_id _ _ Hsp'), (lstrip_with_id _ _ Hsp').
      destruct (pretty (N.pos x)) as [|c s] eqn:E; [discriminate|].
      simpl in Hd. apply andb_true_iff in Hd as [Hc _].
      destruct c as [[] [] [] [] [] [] [] []]; try discriminate Hc;
        intros ->; reflexivity.
    + simpl. apply Hplain. exact Hd.
Qed.

Lemma str_int_small (z : Z) :
  Z.abs z < 10 ^ Z.of_nat Py.MAX_STR_DIGITS ->
  Py.str_int z = Some (pretty z).
Proof.
  intros Hz. unfold Py.str_int.
  destruct (Z.leb_spec (10 ^ Z.of_nat Py.MAX_STR_DIGITS) (Z.abs z));
    [lia|reflexivity].
Qed.

Lemma string_app_assoc (a b c : string) : (a ++ b) ++ c = a ++ b ++ c.
Proof.
  induction a as [|x a IH]; [reflexivity|].
  change (String x ((a ++ b) ++ c) = String x (a ++ b ++ c)).
  f_equal. exact IH.
Qed.

Lemma load_line_saved filename position :
  Z.abs position < 10 ^ Z.of_nat Py.MAX_STR_DIGITS ->
  string_forall plain_char filename = true ->
  Backfill.load_line
    (filename ++ "|" ++ pretty position ++ String Parser.newline EmptyString)
  = Some (Some (filename, position)).
Proof.
  intros Hz Hf. destruct (int_pretty position Hz) as [Hint Hp].
  unfold Backfill.load_line, Py.strip, Py.strip_with.
  assert (Hbody : string_forall (fun a => negb (Py.isspace a))
                    (filename ++ "|" ++ pretty position) = true).
  { rewrite string_forall_app. apply andb_true_iff. split.
    - eapply string_forall_impl; [|exact Hf]. unfold plain_char.
      intros c [H _]%andb_true_iff. exact H.
    - simpl. eapply string_forall_impl; [|exact Hp].
      intros c [[H _]%andb_true_iff _]%andb_true_iff. exact H. }
  replace (filename ++ "|" ++ pretty position ++ String Parser.newline EmptyString)
    with ((filename ++ "|" ++ pretty position) ++ String Parser.newline EmptyString)
    by (rewrite !string_app_assoc; reflexivity).
  rewrite (rstrip_with_line Py.isspace _ Parser.newline Hbody eq_refl),
    (lstrip_with_id _ _ Hbody).
  change (filename ++ "|" ++ pretty position)
    with (filename ++ String Backfill.pipe (pretty position)).
  rewrite split_app, split_plain, Hint; [reflexivity| |].
  - eapply string_forall_impl; [|exact Hp].
    intros c [[_ H]%andb_true_iff _]%andb_true_iff. exact H.
  - eapply string_forall_impl; [|exact Hf]. unfold plain_char.
    intros c [_ H]%andb_true_iff. exact H.
Qed.

Lemma plain_no_newline s :
  string_forall (fun c => negb (Py.isspace c)) s = true ->
  string_forall (fun c => negb (Ascii.eqb c Parser.newline)
                          && negb (Ascii.eqb c Parser.cr)) s = true.
Proof.
  apply string_forall_impl. intros c H. apply negb_true_iff in H.
  rewrite (isspace_cr c H).
  destruct (Ascii.eqb c Parser.newline) eqn:E; [|reflexivity].
  apply Ascii.eqb_eq in E. subst c. discriminate H.
Qed.

Lemma drop_app a b : Py.drop (String.length a) (a ++ b) = b.
Proof. induction a; simpl; auto. Qed.

Lemma drop_drop_app n a b :
  (n <= String.length a)%nat ->
  Py.drop n (a ++ b) = Py.drop n a ++ b.
Proof.
  revert a. induction n as [|n IH]; intros a Hn; [reflexivity|].
  destruct a as [|c a]; simpl in *; [lia|]. apply IH. lia.
Qed.

Lemma string_length_app a b :
  String.length (a ++ b) = (String.length a + String.length b)%nat.
Proof. induction a; simpl; auto. Qed.

(** ** Checkpoints *)

(** A checkpoint that [ProgressTracker.save] writes is the one that
    [ProgressTracker.load] reads back: when no file operation fails, the
    file name holds neither white space nor a bar, the position has at most
    [Py.MAX_STR_DIGITS] digits (a longer one cannot be formatted and nothing
    is written), and the progress file is absent or made of complete lines
    that [load] accepts, giving the mapping [m], then after
    [save(filename, position)] [load] returns [m] with [filename] set to
    [position] (the last line written for a name wins), negative positions
    included; and the progress file is again made of complete lines that
    [load] accepts. *)
Theorem saved_checkpoint_is_loaded (filename : string) (position : Z)
    (w : Sys.World) (m : gmap string Z) :
  Sys.faults w = [] ->
  string_forall plain_char filename = true ->
  Z.abs position < 10 ^ Z.of_nat Py.MAX_STR_DIGITS ->
  complete_lines (default EmptyString (Sys.progress w)) = true ->
  Backfill.load_lines
    (Parser.readlines (default EmptyString (Sys.progress w))) ∅ = Some m ->
  let w' := (Backfill.save filename position w).1 in
  (Backfill.load w').2 = Returned (<[filename := position]> m)
  /\ Sys.faults w' = []
  /\ complete_lines (default EmptyString (Sys.progress w')) = true
  /\ Backfill.load_lines
       (Parser.readlines (default EmptyString (Sys.progress w'))) ∅
     = Some (<[filename := position]> m).
Proof.
  intros Hfaults Hf Hz Hc Hm. cbv zeta.
  unfold Backfill.save, Sys.try_except, Sys.bind, IO.fallible.
  rewrite Hfaults, (str_int_small position Hz). unfold Sys.modify.
  cbn [fst snd].
  set (c := default EmptyString (Sys.progress w)) in *.
  set (line := filename ++ "|" ++ pretty position
               ++ String Parser.newline EmptyString).
  assert (Hbody : string_forall (fun a => negb (Py.isspace a))
                    (filename ++ "|" ++ pretty position) = true).
  { rewrite string_forall_app. apply andb_true_iff. split.
    - eapply string_forall_impl; [|exact Hf]. unfold plain_char.
      intros a [H _]%andb_true_iff. exact H.
    - simpl. eapply string_forall_impl; [|exact (proj2 (int_pretty position Hz))].
      intros a [[H _]%andb_true_iff _]%andb_true_iff. exact H. }
  assert (Hload : Backfill.load_lines (Parser.readlines (c ++ line)) ∅
                  = Some (<[filename := position]> m)).
  { rewrite (readlines_app _ _ Hc), load_lines_app, Hm. simpl.
    unfold line.
    replace (filename ++ "|" ++ pretty position ++ String Parser.newline EmptyString)
      with ((filename ++ "|" ++ pretty position) ++ String Parser.newline EmptyString)
      by (rewrite !string_app_assoc; reflexivity).
    rewrite (readlines_line _ (plain_no_newline _ Hbody)).
    simpl.
    replace ((filename ++ "|" ++ pretty position) ++ String Parser.newline EmptyString)
      with (filename ++ "|" ++ pretty position ++ String Parser.newline EmptyString)
      by (rewrite !string_app_assoc; reflexivity).
    rewrite (load_line_saved _ _ Hz Hf). reflexivity. }
  assert (Hcomplete : complete_lines (c ++ line) = true).
  { apply complete_lines_app; [exact Hc|]. unfold line.
    replace (filename ++ "|" ++ pretty position ++ String Parser.newline EmptyString)
      with ((filename ++ "|" ++ pretty position) ++ String Parser.newline EmptyString)
      by (rewrite !string_app_assoc; reflexivity).
    apply complete_lines_line. }
  unfold Backfill.load, Sys.bind, Sys.get, Sys.try_except, IO.fallible, Sys.ret.
  cbn. rewrite Hfaults. cbn. unfold Backfill.load_content.
  fold c. fold line. rewrite Hload. auto.
Qed.

Lemma saved_checkpoint_is_loaded_witness :
  let w := Samples.world EmptyString (Some ("other-file|7" ++ Samples.nl)%string)
             [] in
  (Backfill.load (Backfill.save Samples.path 1000 w).1).2
  = Returned (<[Samples.path := 1000]> {["other-file" := 7]}).
Proof.
  intros w.
  destruct (saved_checkpoint_is_loaded Samples.path 1000 w
              {["other-file" := 7]}) as [H _].
  - reflexivity.
  - vm_compute. reflexivity.
  - vm_compute. reflexivity.
  - reflexivity.
  - vm_compute. reflexivity.
  - exact H.
Defined.

(** ** The handler of radius_watcher_old across polls *)

(** The handler of radius_watcher_old loses nothing between polls: when a
    file has grown from [c1] to [c1 ++ c2], the stored position lies within
    [c1] and what the first poll read ended at a line end, then polling at
    [c1] and again at [c1 ++ c2] leaves the same positions and buffers as
    one poll at [c1 ++ c2], and the records of the two polls, in order, are
    the records of the one. *)
Theorem old_handler_polls_compose (h : WatcherOld.Handler)
    (filepath c1 c2 : string) :
  let p := default 0%nat (WatcherOld.file_positions h !! filepath) in
  (p <= String.length c1)%nat ->
  complete_lines (Py.drop p c1) = true ->
  let poll1 := WatcherOld.read_new_lines h filepath c1 in
  let poll2 := WatcherOld.read_new_lines poll1.1 filepath (c1 ++ c2) in
  let once := WatcherOld.read_new_lines h filepath (c1 ++ c2) in
  poll2.1 = once.1 /\ (poll1.2 ++ poll2.2)%list = once.2.
Proof.
  intros p Hp Hc. cbv zeta. unfold WatcherOld.read_new_lines.
  fold p.
  assert (Hlt1 : (String.length c1 <? p)%nat = false)
    by (apply Nat.ltb_ge; exact Hp).
  assert (Hlt2 : (String.length (c1 ++ c2) <? p)%nat = false)
    by (apply Nat.ltb_ge; rewrite string_length_app; lia).
  rewrite Hlt1, Hlt2.
  destruct (WatcherOld.scan_lines (Parser.readlines (Py.drop p c1))
              (default [] (WatcherOld.buffer h !! filepath)) [])
    as [b1 r1] eqn:E1.
  simpl. rewrite !lookup_insert_eq. simpl.
  assert (Hlt3 : (String.length (c1 ++ c2) <? String.length c1)%nat = false)
    by (apply Nat.ltb_ge; rewrite string_length_app; lia).
  rewrite Hlt3, drop_app.
  rewrite (drop_drop_app p c1 c2 Hp), (readlines_app _ _ Hc).
  rewrite old_scan_lines_app, E1. simpl.
  rewrite (old_scan_lines_acc (Parser.readlines c2) b1 r1).
  destruct (WatcherOld.scan_lines (Parser.readlines c2) b1 []) as [b2 r2].
  simpl. rewrite !insert_insert_eq. split; reflexivity.
Qed.

Lemma old_handler_polls_compose_witness :
  let c1 := Samples.tail_block "Wed Nov  4 12:00:00 2026" "5926001234" in
  let c2 := Samples.tail_block "Wed Nov  4 12:00:05 2026" "5926001235" in
  let h := WatcherOld.mkHandler ∅ ∅ in
  let poll1 := WatcherOld.read_new_lines h Samples.path c1 in
  let poll2 := WatcherOld.read_new_lines poll1.1 Samples.path (c1 ++ c2) in
  let once := WatcherOld.read_new_lines h Samples.path (c1 ++ c2) in
  poll2.1 = once.1 /\ (poll1.2 ++ poll2.2)%list = once.2.
Proof.
  intros c1 c2 h.
  apply (old_handler_polls_compose h Samples.path c1 c2).
  - vm_compute. lia.
  - vm_compute. reflexivity.
Defined.

(** ** Well-formed location codes *)

Lemma is_hex_cases c :
  is_hex c = true ->
  Py.isspace c = false
  /\ Ascii.eqb c Py.underscore = false
  /\ c <> "x"%char /\ c <> "X"%char /\ c <> "-"%char /\ c <> "+"%char
  /\ exists d, Py.digit_value c = Some d /\ 0 <= d < 16.
Proof.
  destruct c as [[] [] [] [] [] [] [] []]; intros H;
    try (vm_compute in H; discriminate H); clear H;
    (split; [reflexivity|split; [reflexivity|
       split; [discriminate|split; [discriminate|split; [discriminate|
       split; [discriminate|
         eexists; split; [vm_compute; reflexivity|lia]]]]]]]).
Qed.

Lemma int_digits_hex s :
  string_forall is_hex s = true ->
  forall acc,
    exists v, Py.int_digits 16 s acc false
              = Some (acc * 16 ^ Z.of_nat (String.length s) + v)
              /\ 0 <= v < 16 ^ Z.of_nat (String.length s).
Proof.
  induction s as [|c s IH]; intros Hs acc.
  - exists 0. simpl. split; [f_equal; lia|lia].
  - simpl in Hs. apply andb_true_iff in Hs as [Hc Hs].
    destruct (is_hex_cases c Hc) as (_ & Hu & _ & _ & _ & _ & d & Hd & Hr).
    cbn [Py.int_digits]. rewrite Hu, Hd.
    replace (d <? 16) with true by (symmetry; apply Z.ltb_lt; lia).
    destruct (IH Hs (acc * 16 + d)) as (v & Hv & Hvr).
    exists (d * 16 ^ Z.of_nat (String.length s) + v).
    rewrite Hv. cbn [String.length]. rewrite Nat2Z.inj_succ, Z.pow_succ_r by lia.
    split; [f_equal; lia|nia].
Qed.

Lemma prefix_cons a s1 b s2 :
  String.prefix (String a s1) (String b s2)
  = if ascii_dec a b then String.prefix s1 s2 else false.
Proof. reflexivity. Qed.

Lemma prefix_x_hex (xc : ascii) (s : string) :
  (xc = "x"%char \/ xc = "X"%char) ->
  string_forall is_hex s = true ->
  String.prefix (String "0" (String xc EmptyString)) s = false.
Proof.
  intros Hx Hs. destruct s as [|c1 [|c2 s]]; [reflexivity| |].
  - rewrite prefix_cons. destruct (ascii_dec "0" c1); reflexivity.
  - simpl in Hs. apply andb_true_iff in Hs as [_ [H2 _]%andb_true_iff].
    destruct (is_hex_cases c2 H2) as (_ & _ & Hnx & HnX & _).
    rewrite !prefix_cons. destruct (ascii_dec "0" c1); [|reflexivity].
    destruct (ascii_dec xc c2) as [<-|]; [|reflexivity].
    destruct Hx; subst; congruence.
Qed.

Lemma int_hex s :
  string_forall is_hex s = true -> s <> EmptyString ->
  exists v, Py.int 16 s = Some v /\ 0 <= v < 16 ^ Z.of_nat (String.length s).
Proof.
  intros Hs Hne.
  assert (Hsp : string_forall (fun a => negb (Py.int_space a)) s = true).
  { eapply string_forall_impl; [|exact Hs].
    intros c Hc. destruct (is_hex_cases c Hc) as [H _].
    rewrite (isspace_int_space c H). reflexivity. }
  unfold Py.int, Py.strip_with.
  rewrite (rstrip_with_id _ _ Hsp), (lstrip_with_id _ _ Hsp).
  assert (Hu : exists v, Py.int_unsigned 16 s = Some v
                         /\ 0 <= v < 16 ^ Z.of_nat (String.length s)).
  { unfold Py.int_unsigned.
    rewrite (prefix_x_hex "x" s (or_introl eq_refl) Hs),
      (prefix_x_hex "X" s (or_intror eq_refl) Hs).
    simpl andb. cbv iota. unfold Py.int_magnitude.
    destruct s as [|c s]; [congruence|].
    pose proof Hs as Hs'. simpl in Hs'. apply andb_true_iff in Hs' as [Hc _].
    destruct (is_hex_cases c Hc) as (_ & -> & _).
    change (16 =? 10) with false. cbn [andb].
    destruct (int_digits_hex _ Hs 0) as (v & Hv & Hr).
    exists v. rewrite Hv. split; [f_equal; lia|exact Hr]. }
  destruct s as [|c s]; [congruence|].
  simpl in Hs. apply andb_true_iff in Hs as [Hc _].
  destruct (is_hex_cases c Hc) as (_ & _ & _ & _ & Hm & Hp & _).
  destruct c as [[] [] [] [] [] [] [] []]; try congruence; exact Hu.
Qed.

Lemma last_n_app q h :
  String.length h = 8%nat -> Py.last_n 8 (q ++ h) = h.
Proof.
  intros Hh. unfold Py.last_n. rewrite string_length_app, Hh.
  replace (String.length q + 8 - 8)%nat with (String.length q) by lia.
  apply drop_app.
Qed.

Lemma hex_not_x (xc : ascii) h :
  (xc = "x"%char \/ xc = "X"%char) ->
  string_forall is_hex h = true ->
  string_forall (fun c => negb (Ascii.eqb c xc)) h = true.
Proof.
  intros Hx. apply string_forall_impl. intros c Hc.
  destruct (is_hex_cases c Hc) as (_ & _ & Hnx & HnX & _).
  apply negb_true_iff, Ascii.eqb_neq. destruct Hx; subst; assumption.
Qed.

Lemma prefix_x_plain (xc c : ascii) h :
  string_forall (fun a => negb (Ascii.eqb a xc)) h = true ->
  String.prefix (String "0" (String xc EmptyString)) (String c h) = false.
Proof.
  intros Hh. rewrite prefix_cons. destruct (ascii_dec "0" c); [|reflexivity].
  destruct h as [|c' h]; [reflexivity|].
  rewrite prefix_cons. destruct (ascii_dec xc c') as [<-|]; [|reflexivity].
  simpl in Hh. rewrite Ascii.eqb_refl in Hh. discriminate Hh.
Qed.

Lemma prefix_empty s : String.prefix EmptyString s = true.
Proof. destruct s; reflexivity. Qed.

Lemma replace_aux_plain (xc : ascii) new h :
  string_forall (fun a => negb (Ascii.eqb a xc)) h = true ->
  Py.replace_aux (String "0" (String xc EmptyString)) new 0 h = h.
Proof.
  induction h as [|c h IH]; [reflexivity|].
  intros Hh. cbn [Py.replace_aux].
  pose proof Hh as Hh'. simpl in Hh'. apply andb_true_iff in Hh' as [_ Hh'].
  rewrite (prefix_x_plain xc c h Hh'), (IH Hh'). reflexivity.
Qed.

Lemma replace_aux_app (xc : ascii) h :
  string_forall (fun a => negb (Ascii.eqb a xc)) h = true ->
  forall p skip,
    (skip <= String.length p)%nat ->
    Py.replace_aux (String "0" (String xc EmptyString)) EmptyString skip (p ++ h)
    = Py.replace_aux (String "0" (String xc EmptyString)) EmptyString skip p ++ h.
Proof.
  intros Hh. induction p as [|c p IH]; intros skip Hskip.
  - simpl in Hskip. replace skip with 0%nat by lia.
    change (EmptyString ++ h) with h. rewrite (replace_aux_plain _ _ _ Hh).
    reflexivity.
  - change (String c p ++ h) with (String c (p ++ h)).
    destruct skip as [|k].
    + cbn [Py.replace_aux].
      destruct p as [|c' p'].
      * change (EmptyString ++ h) with h.
        rewrite (prefix_x_plain xc c h Hh), (replace_aux_plain _ _ _ Hh).
        rewrite prefix_cons. destruct (ascii_dec "0" c); reflexivity.
      * change (String c' p' ++ h) with (String c' (p' ++ h)).
        rewrite !prefix_cons.
        destruct (ascii_dec "0" c); [destruct (ascii_dec xc c')|].
        -- rewrite !prefix_empty.
           change (String c' (p' ++ h)) with (String c' p' ++ h).
           change (String.length (String "0" (String xc EmptyString)) - 1)%nat
             with 1%nat.
           change (EmptyString ++ ?x) with x.
           apply IH. simpl. lia.
        -- change (String c' (p' ++ h)) with (String c' p' ++ h).
           rewrite IH by (simpl; lia). reflexivity.
        -- change (String c' (p' ++ h)) with (String c' p' ++ h).
           rewrite IH by (simpl; lia). reflexivity.
    + cbn [Py.replace_aux]. apply IH. simpl in Hskip. lia.
Qed.

Lemma strip_0x_app p h :
  string_forall is_hex h = true ->
  exists q, (if Py.startswith "0x" (p ++ h) then Py.drop 2 (p ++ h) else p ++ h)
            = q ++ h.
Proof.
  intros Hh. unfold Py.startswith.
  destruct (String.prefix "0x" (p ++ h)) eqn:E; [|exists p; reflexivity].
  destruct p as [|c1 [|c2 p]].
  - change (EmptyString ++ h) with h in E.
    rewrite (prefix_x_hex "x" h (or_introl eq_refl) Hh) in E. discriminate E.
  - change (String c1 EmptyString ++ h) with (String c1 h) in E.
    rewrite (prefix_x_plain "x" c1 h (hex_not_x "x" h (or_introl eq_refl) Hh)) in E.
    discriminate E.
  - exists p. reflexivity.
Qed.

(** On a location code that ends in 8 hexadecimal digits neither decoder
    fails, whatever precedes the digits: both read the 32-bit number [eci]
    that the 8 digits spell; [decode_enodeb_cellid] returns the station
    [eci >> 8] and the sector [eci & 0xFF], [decode_eci] the same sector
    and the station cut to 20 bits, so the two agree on the station exactly
    when the top 4 bits of [eci] are not set. *)
Theorem decoders_accept_hex_codes (p h : string) :
  String.length h = 8%nat ->
  string_forall is_hex h = true ->
  exists eci,
    0 <= eci < 4294967296
    /\ Py.int 16 h = Some eci
    /\ Decoder.decode_enodeb_cellid (p ++ h)
       = Returned (Z.shiftr eci 8, Z.land eci 255)
    /\ Decoder.decode_eci (p ++ h)
       = Some (Decoder.mkEciInfo (Z.land (Z.shiftr eci 8) 1048575)
                 (Z.land eci 255) eci).
Proof.
  intros Hlen Hh.
  destruct (int_hex h Hh) as (eci & Hint & Hr).
  { intros ->. discriminate Hlen. }
  rewrite Hlen in Hr. exists eci.
  split; [exact Hr|]. split; [exact Hint|]. split.
  - unfold Decoder.decode_enodeb_cellid.
    destruct (strip_0x_app p h Hh) as [q ->].
    rewrite (last_n_app q h Hlen), Hint. reflexivity.
  - unfold Decoder.decode_eci, Py.replace.
    rewrite (replace_aux_app "x" h (hex_not_x "x" h (or_introl eq_refl) Hh) p 0)
      by lia.
    rewrite (replace_aux_app "X" h (hex_not_x "X" h (or_intror eq_refl) Hh) _ 0)
      by lia.
    unfold Py.len. rewrite string_length_app, Hlen.
    replace (Z.of_nat (_ + 8) <? 8) with false by (symmetry; apply Z.ltb_ge; lia).
    rewrite (last_n_app _ h Hlen), Hint. reflexivity.
Qed.

Lemma decoders_accept_hex_codes_witness :
  exists eci,
    0 <= eci < 4294967296
    /\ Py.int 16 "000fc70e" = Some eci
    /\ Decoder.decode_enodeb_cellid ("0x823708401b59370840" ++ "000fc70e")
       = Returned (Z.shiftr eci 8, Z.land eci 255)
    /\ Decoder.decode_eci ("0x823708401b59370840" ++ "000fc70e")
       = Some (Decoder.mkEciInfo (Z.land (Z.shiftr eci 8) 1048575)
                 (Z.land eci 255) eci).
Proof.
  apply (decoders_accept_hex_codes "0x823708401b59370840" "000fc70e");
    reflexivity.
Defined.

(** ** The transaction of radius_watcher *)



(** ** Polling an unchanged file *)

(** [RadiusWatcher.process_file] hands out no record twice: after a poll
    that returned records, another poll with the positions it left, while
    the file is as it was, returns no record and changes nothing. *)
Theorem watcher_reads_nothing_twice (file_positions positions : gmap string nat)
    (filepath : string) (records : list Parser.RadiusDict) (w w1 : Sys.World) :
  Watcher.process_file file_positions filepath w
  = (w1, Returned (positions, records)) ->
  records <> [] ->
  Watcher.process_file positions filepath w1 = (w1, Returned (positions, [])).
Proof.
  unfold Watcher.process_file, Sys.bind at 1, Sys.get at 1.
  destruct (IO.lookup_path Backfill.Config.LOG_DIR filepath (Sys.radacct w))
    as [content|] eqn:El; [|intros [= <- <- <-] Hne; congruence].
  unfold Sys.try_except.
  destruct ((String.length content
             <=? (if (String.length content
                      <? default 0%nat (file_positions !! filepath))%nat
                  then 0%nat
                  else default 0%nat (file_positions !! filepath)))%nat);
    [intros [= <- <- <-] Hne; congruence|].
  unfold Sys.bind, IO.fallible, Sys.ret.
  destruct w as [d t ra pr lk ck fs tr]. simpl in *.
  destruct fs as [|[] fs]; simpl;
    try (intros [= <- <- <-] Hne; congruence);
    (intros [= <- <- <-] _; unfold Sys.get; simpl; rewrite El;
     rewrite lookup_insert_eq; simpl;
     rewrite Nat.ltb_irrefl, Nat.leb_refl; reflexivity).
Qed.

Lemma watcher_reads_nothing_twice_witness :
  let content :=
    Samples.tail_block "Wed Nov  4 12:00:00 2026" "5926001234"
    ++ Samples.tail_block "Wed Nov  4 12:00:05 2026" "5926001235" in
  let w := Samples.world content None [] in
  Watcher.process_file (<[Samples.path := String.length content]> ∅)
    Samples.path w
  = (w, Returned (<[Samples.path := String.length content]> ∅, [])).
Proof.
  intros content w.
  apply (watcher_reads_nothing_twice ∅ _ Samples.path
           [Samples.tail_record "5926001234"] w w).
  - vm_compute. reflexivity.
  - discriminate.
Defined.

(** ** Attribute lines *)

Lemma nonspace_prefix_app key rest :
  string_forall (fun c => negb (Py.isspace c)) key = true ->
  Parser.nonspace_prefix (key ++ String " " rest) = key.
Proof.
  induction key as [|c key IH]; [reflexivity|].
  intros Hk. simpl in Hk. apply andb_true_iff in Hk as [Hc Hk].
  apply negb_true_iff in Hc.
  change (String c key ++ ?r) with (String c (key ++ r)).
  cbn [Parser.nonspace_prefix]. rewrite Hc, (IH Hk). reflexivity.
Qed.

Lemma drop_last_quote_app value :
  Parser.drop_last_quote (value ++ String Parser.quote EmptyString) = value.
Proof.
  induction value as [|c v IH]; [reflexivity|].
  change (String c v ++ ?r) with (String c (v ++ r)).
  destruct v as [|c' v'].
  - reflexivity.
  - change (String c' v' ++ ?r) with (String c' (v' ++ r)) in *.
    cbn [Parser.drop_last_quote]. cbn [Parser.drop_last_quote] in IH.
    rewrite IH. reflexivity.
Qed.

Lemma drop_last_newline_app value :
  Parser.drop_last_newline (value ++ String Parser.quote EmptyString)
  = value ++ String Parser.quote EmptyString.
Proof.
  induction value as [|c v IH]; [reflexivity|].
  change (String c v ++ ?r) with (String c (v ++ r)).
  destruct v as [|c' v'].
  - reflexivity.
  - change (String c' v' ++ ?r) with (String c' (v' ++ r)) in *.
    cbn [Parser.drop_last_newline]. cbn [Parser.drop_last_newline] in IH.
    rewrite IH. reflexivity.
Qed.

Lemma match_pair_attribute_line key value :
  key <> EmptyString ->
  string_forall (fun c => negb (Py.isspace c)) key = true ->
  Parser.match_pair (attribute_line key value)
  = if Parser.has_char Parser.newline value then None else Some (key, value).
Proof.
  intros Hne Hk. unfold Parser.match_pair, attribute_line.
  change (key ++ " = " ++ ?r) with (key ++ String " " (String "=" (String " " r))).
  rewrite (nonspace_prefix_app key _ Hk), drop_app.
  assert (He : String.eqb key EmptyString = false)
    by (apply String.eqb_neq; exact Hne).
  rewrite He. cbn [orb Py.lstrip_with].
  change (Py.isspace " ") with true. change (Py.isspace "=") with false.
  cbv iota. cbn [String.length].
  rewrite (proj2 (Nat.eqb_neq _ _)) by lia.
  cbn [Py.lstrip_with]. change (Py.isspace " ") with true.
  change (Py.isspace Parser.quote) with false. cbv iota.
  cbn [String.length].
  rewrite (proj2 (Nat.eqb_neq _ _)) by lia.
  change (Ascii.eqb Parser.quote Parser.quote) with true. cbv iota.
  unfold Parser.lazy_value.
  rewrite drop_last_newline_app, drop_last_quote_app.
  destruct (Parser.has_char Parser.newline value); reflexivity.
Qed.

(** [parse_entry] reads back what the detail file writes: for attribute
    lines [key = "value"] whose keys are not empty and hold no white space,
    the dictionary maps every key to the value of its last line whose value
    holds no newline, whatever else the values are (empty, with blanks or
    with double quotes inside); a line whose value holds a newline does not
    match the pattern and is passed over. *)
Theorem parse_entry_reads_attribute_lines (pairs : list (string * string)) :
  Forall (fun kv => kv.1 <> EmptyString
                    /\ string_forall (fun c => negb (Py.isspace c)) kv.1 = true)
    pairs ->
  Parser.parse_entry (map (fun kv => attribute_line kv.1 kv.2) pairs)
  = fold_left (fun entry kv => <[kv.1 := kv.2]> entry)
      (List.filter (fun kv => negb (Parser.has_char Parser.newline kv.2)) pairs)
      ∅.
Proof.
  unfold Parser.parse_entry. generalize (∅ : gmap string string).
  induction pairs as [|[k v] pairs IH]; intros acc Hp; [reflexivity|].
  inversion Hp as [|? ? [Hne Hk] Hrest]; subst. simpl in Hne, Hk.
  cbn [map fold_left List.filter fst snd].
  rewrite (match_pair_attribute_line k v Hne Hk).
  destruct (Parser.has_char Parser.newline v); cbn [negb fold_left fst snd];
    apply IH; exact Hrest.
Qed.

Lemma parse_entry_reads_attribute_lines_witness :
  Parser.parse_entry
    (map (fun kv => attribute_line kv.1 kv.2)
       [("Calling-Station-Id", "5926001234");
        ("Calling-Station-Id", "5926001235");
        ("Calling-Station-Id", "59260" ++ Samples.nl ++ "01236")])
  !! "Calling-Station-Id" = Some "5926001235".
Proof.
  rewrite (parse_entry_reads_attribute_lines
             [("Calling-Station-Id", "5926001234");
              ("Calling-Station-Id", "5926001235");
              ("Calling-Station-Id", "59260" ++ Samples.nl ++ "01236")]).
  - vm_compute. reflexivity.
  - repeat constructor; discriminate.
Defined.

(** ** A subscriber twice in a batch of radius_parser *)

(** [upsert_latest_traces] sends a batch of up to 100 records as one
    INSERT ... ON CONFLICT DO UPDATE statement, which the server rejects
    when two of its rows have the same key: a batch in which a subscriber
    occurs twice is never written. The call leaves the committed database
    as it was, without an open transaction; it returns 0 or raises, and it
    does return 0 as long as no call to the server fails for the
    connection. *)
Theorem parser_upsert_rejects_repeated_subscriber
    (records : list Parser.RadiusDict) (w : Sys.World) :
  Sys.tx w = None ->
  (length records <= 100)%nat ->
  ~ NoDup (map Parser.msisdn records) ->
  let w' := (RadiusParser.upsert_latest_traces records w).1 in
  let r := (RadiusParser.upsert_latest_traces records w).2 in
  (r = Returned 0 \/ exists e, r = Raised e)
  /\ Sys.db w' = Sys.db w
  /\ Sys.tx w' = None
  /\ (Sys.faults w = [] -> r = Returned 0).
Proof.
  intros Htx Hlen Hdup. cbv zeta.
  destruct (RadiusParser.upsert_latest_traces records w) as [w' r] eqn:E.
  simpl. revert E. unfold RadiusParser.upsert_latest_traces.
  destruct records as [|r0 rs]; [destruct Hdup; constructor|].
  set (records := r0 :: rs) in *.
  assert (Hpages : RadiusParser.pages (length records) records = [records]).
  { unfold records at 1 2. cbn [length RadiusParser.pages].
    fold records. rewrite firstn_all2 by exact Hlen.
    rewrite skipn_all2 by exact Hlen. destruct (length rs); reflexivity. }
  unfold Sys.try_except, Sys.bind at 1, Sys.get at 1, Sys.bind at 1,
    RadiusParser.execute_values.
  rewrite Hpages.
  pose proof (executemany_quiet
                (RadiusParser.latest_page (Sys.clock w) (Sys.clock w))
                [records] w) as Hq.
  destruct (IO.executemany _ [records] w) as [w1 r1] eqn:E1.
  apply executemany_spec in E1. destruct E1 as (Hd1 & _ & _ & Hv1).
  destruct r1 as [[]|e1].
  - exfalso. specialize (Hv1 eq_refl). revert Hv1.
    cbn [run]. unfold RadiusParser.latest_page.
    rewrite bool_decide_eq_false_2 by exact Hdup. discriminate.
  - unfold Sys.bind at 1.
    destruct (IO.rollback w1) as [w3 r3] eqn:E3. apply rollback_cases in E3.
    destruct E3 as (Hd3 & Ht3 & Hq3).
    assert (Hd : Sys.db w3 = Sys.db w) by congruence.
    destruct r3 as [[]|e3]; unfold Sys.ret; intros [= <- <-].
    + repeat split; auto.
    + split; [right; eauto|]. split; [exact Hd|]. split; [exact Ht3|].
      intros Hf. destruct (Hq3 (Hq Hf)) as [H _]. discriminate H.
Qed.

Lemma parser_upsert_rejects_repeated_subscriber_witness :
  let records := [Samples.tail_record "5926001234";
                  Samples.tail_record "5926001234"] in
  let w := Samples.world EmptyString None [] in
  (RadiusParser.upsert_latest_traces records w).2 = Returned 0
  /\ Sys.db (RadiusParser.upsert_latest_traces records w).1 = Sys.db w.
Proof.
  intros records w.
  destruct (parser_upsert_rejects_repeated_subscriber records w)
    as (_ & Hd & _ & Hr).
  - reflexivity.
  - simpl. lia.
  - intros H. inversion H as [|? ? Hin _]; subst. apply Hin. left.
  - split; [apply Hr; reflexivity|exact Hd].
Defined.
